(** * Workflow builder store (keep-ui/entities/workflows/model/workflow-store.ts)

    A shallow embedding of the zustand store that keeps the node/edge graph
    of the workflow builder in step with the workflow definition: the insert
    command [addNodeBetween], [deleteNodes], [onConnect], [onLayout],
    [updateDefinition] and [validateDefinition].

    The store is one record, [WorkflowStateValues]; a command is a function
    from the store to an outcome (a returned value or a thrown error)
    together with the store as the command left it.  Helpers that the store
    imports from other modules are the fields of the class [Collaborators]. *)

From Stdlib Require Import ZArith String List Bool Lia.
From stdpp Require Import gmap strings list fin_maps.
Import ListNotations.

Set Warnings "-register-all".
Local Open Scope Z_scope.

(** ** Values *)

(** Untyped payloads ([any], [Record<string, any>]) as JSON values. *)
Inductive Json : Type :=
| JNull
| JBool (b : bool)
| JNum (n : Z)
| JStr (s : string)
| JArr (items : list Json)
| JObj (fields : list (string * Json)).

(** JavaScript truthiness: [!value] holds exactly when [truthy value] is
    [false]. *)
Definition truthy (j : Json) : bool :=
  match j with
  | JNull => false
  | JBool b => b
  | JNum n => negb (n =? 0)
  | JStr s => negb (String.eqb s "")
  | JArr _ | JObj _ => true
  end.

(** [value.key] on an untyped payload. *)
Fixpoint assoc (k : string) (fields : list (string * Json)) : option Json :=
  match fields with
  | [] => None
  | (k', v) :: rest => if String.eqb k k' then Some v else assoc k rest
  end.

Definition jget (k : string) (j : Json) : option Json :=
  match j with
  | JObj fields => assoc k fields
  | _ => None
  end.

(** [a ?? b]: [b] replaces a missing or null [a]. *)
Definition nullish (a : option Json) (b : Json) : Json :=
  match a with
  | None | Some JNull => b
  | Some v => v
  end.

(** [!s] on a string: the empty string is falsy. *)
Definition nonempty (s : string) : bool := negb (String.eqb s "").

(** [a || b] on strings. *)
Definition or_else (a b : string) : string := if nonempty a then a else b.

(** [hay.includes(needle)]. *)
Fixpoint includes (needle hay : string) : bool :=
  if String.prefix needle hay then true
  else match hay with
       | EmptyString => false
       | String _ rest => includes needle rest
       end.

(** [Array.prototype.findIndex], [None] for -1. *)
Fixpoint findIndex {A} (p : A -> bool) (l : list A) : option nat :=
  match l with
  | [] => None
  | a :: rest => if p a then Some O else option_map S (findIndex p rest)
  end.

(** [findIndex] together with the element at the index found:
    [i = l.findIndex(p)] and [l[i]]. *)
Fixpoint findEntry {A} (p : A -> bool) (l : list A) : option (nat * A) :=
  match l with
  | [] => None
  | a :: rest =>
      if p a then Some (O, a)
      else option_map (fun '(i, x) => (S i, x)) (findEntry p rest)
  end.

(** [Array.prototype.slice(from, to)] on indices within [0, length]. *)
Definition slice {A} (l : list A) (from to : nat) : list A :=
  take (to - from)%nat (drop from l).

(** [array.includes(s)] on an array of strings. *)
Definition includes_id (l : list string) (s : string) : bool :=
  existsb (String.eqb s) l.

(** ** The data model *)

Record Position := mkPosition { pos_x : Z; pos_y : Z }.

(** The fields of a step that the store reads or writes.  The temporary
    steps of the insert scaffold carry [edgeLabel], [edgeColor] and
    [edgeNotNeeded]; [deleteNodes] adds the key [islayouted]. *)
Record StepData := mkStepData {
  step_id : string;
  step_name : string;
  step_type : string;
  step_componentType : string;
  step_properties : option (gmap string Json);
  step_isLayouted : option bool;
  edgeLabel : option string;
  edgeColor : option string;
  edgeNotNeeded : option bool;
  islayouted : option bool
}.

(** [V2Step]: a union discriminated by [componentType]; a switch has
    [branches.true] and [branches.false], a container has [sequence]. *)
Inductive V2Step : Type :=
| Leaf (d : StepData)
| Switch (d : StepData) (branches_true branches_false : list V2Step)
| Container (d : StepData) (sequence : list V2Step).

Definition data (s : V2Step) : StepData :=
  match s with
  | Leaf d | Switch d _ _ | Container d _ => d
  end.

Definition with_data (d : StepData) (s : V2Step) : V2Step :=
  match s with
  | Leaf _ => Leaf d
  | Switch _ t f => Switch d t f
  | Container _ q => Container d q
  end.

Definition set_step_id (i : string) (d : StepData) : StepData :=
  mkStepData i (step_name d) (step_type d) (step_componentType d)
    (step_properties d) (step_isLayouted d) (edgeLabel d) (edgeColor d)
    (edgeNotNeeded d) (islayouted d).

Definition set_step_isLayouted (b : option bool) (d : StepData) : StepData :=
  mkStepData (step_id d) (step_name d) (step_type d) (step_componentType d)
    (step_properties d) b (edgeLabel d) (edgeColor d)
    (edgeNotNeeded d) (islayouted d).

Definition set_islayouted (b : option bool) (d : StepData) : StepData :=
  mkStepData (step_id d) (step_name d) (step_type d) (step_componentType d)
    (step_properties d) (step_isLayouted d) (edgeLabel d) (edgeColor d)
    (edgeNotNeeded d) b.

(** [FlowNode]; an absent [isNested] reads as [false]. *)
Record FlowNode := mkFlowNode {
  node_id : string;
  node_position : Position;
  node_data : StepData;
  node_isDraggable : option bool;
  node_prevStepId : option string;
  node_isNested : bool
}.

Definition set_node_position (p : Position) (n : FlowNode) : FlowNode :=
  mkFlowNode (node_id n) p (node_data n) (node_isDraggable n)
    (node_prevStepId n) (node_isNested n).

Definition set_node_data (d : StepData) (n : FlowNode) : FlowNode :=
  mkFlowNode (node_id n) (node_position n) d (node_isDraggable n)
    (node_prevStepId n) (node_isNested n).

Definition set_node_isDraggable (b : option bool) (n : FlowNode) : FlowNode :=
  mkFlowNode (node_id n) (node_position n) (node_data n) b
    (node_prevStepId n) (node_isNested n).

Definition set_node_prevStepId (p : option string) (n : FlowNode) : FlowNode :=
  mkFlowNode (node_id n) (node_position n) (node_data n) (node_isDraggable n)
    p (node_isNested n).

Definition set_node_isNested (b : bool) (n : FlowNode) : FlowNode :=
  mkFlowNode (node_id n) (node_position n) (node_data n) (node_isDraggable n)
    (node_prevStepId n) b.

(** [Edge]: [edge_stroke] is [style.stroke], [edge_isLayouted] is
    [data.isLayouted]. *)
Record Edge := mkEdge {
  edge_id : string;
  edge_source : string;
  edge_target : string;
  edge_label : option string;
  edge_stroke : option string;
  edge_type : option string;
  edge_animated : option bool;
  edge_isLayouted : option bool
}.

Definition set_edge_layouted (animated : bool) (e : Edge) : Edge :=
  mkEdge (edge_id e) (edge_source e) (edge_target e) (edge_label e)
    (edge_stroke e) (edge_type e) (Some animated) (Some true).

(** [Connection] of the graph library: the two endpoints of a new edge. *)
Record Connection := mkConnection { conn_source : string; conn_target : string }.

Inductive Severity := error | warning.

(** [ValidationError = [string, "error" | "warning"]]. *)
Abbreviation ValidationError := (string * Severity)%type.

Definition is_error (s : Severity) : bool :=
  match s with error => true | warning => false end.

(** [Definition]: the sequence of steps and the workflow properties. *)
Record WfDefinition := mkWfDefinition {
  def_sequence : list V2Step;
  def_properties : gmap string Json
}.

(** [DefinitionV2]: what [wrapDefinitionV2] returns. *)
Record DefinitionV2 := mkDefinitionV2 {
  def_value : WfDefinition;
  def_isValid : bool
}.

(** The fields of [WorkflowStateValues] that the modelled commands use. *)
Record WorkflowStateValues := mkState {
  nodes : list FlowNode;
  edges : list Edge;
  selectedNode : option string;
  v2Properties : gmap string Json;
  editorOpen : bool;
  providers : option (list Json);
  installedProviders : option (list Json);
  secrets : option (gmap string string);
  isLayouted : bool;
  selectedEdge : option string;
  changes : Z;
  isEditorSyncedWithNodes : bool;
  lastChangedAt : option Z;
  canDeploy : bool;
  definition : option DefinitionV2;
  validationErrors : gmap string ValidationError
}.

Definition defaultState : WorkflowStateValues :=
  mkState [] [] None ∅ false None None (Some ∅) false None 0 true None false
    None ∅.

(** ** Errors and commands *)

(** [KeepWorkflowStoreError] is the store's own error; [ZodError] is thrown
    by a schema's [parse]; [TypeError] by the runtime on a property access
    of [undefined]. *)
Inductive StoreError :=
| KeepWorkflowStoreError (message : string)
| ZodError
| TypeError (message : string).

(** The two errors a command is written to throw: the schema's and the
    store's own. *)
Definition foreseen (e : StoreError) : Prop :=
  e = ZodError \/ exists message, e = KeepWorkflowStoreError message.

Inductive Outcome (A : Type) :=
| Returned (a : A)
| Thrown (e : StoreError).
Arguments Returned {A} a.
Arguments Thrown {A} e.

(** A command runs on the store and leaves it as it was when the command
    returned or threw. *)
Definition Cmd (A : Type) : Type :=
  WorkflowStateValues -> Outcome A * WorkflowStateValues.

Definition ret {A} (a : A) : Cmd A := fun st => (Returned a, st).
Definition throw {A} (e : StoreError) : Cmd A := fun st => (Thrown e, st).
Definition bind {A B} (c : Cmd A) (k : A -> Cmd B) : Cmd B :=
  fun st => match c st with
            | (Returned a, st') => k a st'
            | (Thrown e, st') => (Thrown e, st')
            end.
(** [get()] and [set(...)] of the store. *)
Definition get : Cmd WorkflowStateValues := fun st => (Returned st, st).
Definition set (f : WorkflowStateValues -> WorkflowStateValues) : Cmd unit :=
  fun st => (Returned tt, f st).
(** [if (c) throw e]. *)
Definition throw_if (c : bool) (e : StoreError) : Cmd unit :=
  if c then throw e else ret tt.

Notation "'let!' x ':=' c 'in' k" := (bind c (fun x => k))
  (at level 10, x name, c at level 100, k at level 200).
Notation "'run!' c 'in' k" := (bind c (fun _ => k))
  (at level 10, c at level 100, k at level 200).

(** A command that only reads the store, and throws a foreseen error if
    it throws. *)
Definition readonly {A} (c : Cmd A) : Prop :=
  forall st, snd (c st) = st /\ forall e, fst (c st) = Thrown e -> foreseen e.

(** A command that never throws. *)
Definition total {A} (c : Cmd A) : Prop :=
  forall st, exists a, fst (c st) = Returned a.

(** A command that, when it throws, throws a foreseen error and has not
    touched the store. *)
Definition clean {A} (c : Cmd A) : Prop :=
  forall st e st', c st = (Thrown e, st') -> st' = st /\ foreseen e.

(** A command that on [st] throws the store's own error and leaves [st]. *)
Definition rejects {A} (c : Cmd A) (st : WorkflowStateValues) : Prop :=
  exists message, c st = (Thrown (KeepWorkflowStoreError message), st).

(** Field updates of the store, one per key of a [set({...})] call. *)
Definition with_nodes (v : list FlowNode) (s : WorkflowStateValues) :=
  mkState v (edges s) (selectedNode s) (v2Properties s) (editorOpen s)
    (providers s) (installedProviders s) (secrets s) (isLayouted s)
    (selectedEdge s) (changes s) (isEditorSyncedWithNodes s) (lastChangedAt s)
    (canDeploy s) (definition s) (validationErrors s).
Definition with_edges (v : list Edge) (s : WorkflowStateValues) :=
  mkState (nodes s) v (selectedNode s) (v2Properties s) (editorOpen s)
    (providers s) (installedProviders s) (secrets s) (isLayouted s)
    (selectedEdge s) (changes s) (isEditorSyncedWithNodes s) (lastChangedAt s)
    (canDeploy s) (definition s) (validationErrors s).
Definition with_selectedNode (v : option string) (s : WorkflowStateValues) :=
  mkState (nodes s) (edges s) v (v2Properties s) (editorOpen s)
    (providers s) (installedProviders s) (secrets s) (isLayouted s)
    (selectedEdge s) (changes s) (isEditorSyncedWithNodes s) (lastChangedAt s)
    (canDeploy s) (definition s) (validationErrors s).
Definition with_v2Properties (v : gmap string Json) (s : WorkflowStateValues) :=
  mkState (nodes s) (edges s) (selectedNode s) v (editorOpen s)
    (providers s) (installedProviders s) (secrets s) (isLayouted s)
    (selectedEdge s) (changes s) (isEditorSyncedWithNodes s) (lastChangedAt s)
    (canDeploy s) (definition s) (validationErrors s).
Definition with_editorOpen (v : bool) (s : WorkflowStateValues) :=
  mkState (nodes s) (edges s) (selectedNode s) (v2Properties s) v
    (providers s) (installedProviders s) (secrets s) (isLayouted s)
    (selectedEdge s) (changes s) (isEditorSyncedWithNodes s) (lastChangedAt s)
    (canDeploy s) (definition s) (validationErrors s).
Definition with_isLayouted (v : bool) (s : WorkflowStateValues) :=
  mkState (nodes s) (edges s) (selectedNode s) (v2Properties s) (editorOpen s)
    (providers s) (installedProviders s) (secrets s) v
    (selectedEdge s) (changes s) (isEditorSyncedWithNodes s) (lastChangedAt s)
    (canDeploy s) (definition s) (validationErrors s).
Definition with_selectedEdge (v : option string) (s : WorkflowStateValues) :=
  mkState (nodes s) (edges s) (selectedNode s) (v2Properties s) (editorOpen s)
    (providers s) (installedProviders s) (secrets s) (isLayouted s)
    v (changes s) (isEditorSyncedWithNodes s) (lastChangedAt s)
    (canDeploy s) (definition s) (validationErrors s).
Definition with_changes (v : Z) (s : WorkflowStateValues) :=
  mkState (nodes s) (edges s) (selectedNode s) (v2Properties s) (editorOpen s)
    (providers s) (installedProviders s) (secrets s) (isLayouted s)
    (selectedEdge s) v (isEditorSyncedWithNodes s) (lastChangedAt s)
    (canDeploy s) (definition s) (validationErrors s).
Definition with_isEditorSyncedWithNodes (v : bool) (s : WorkflowStateValues) :=
  mkState (nodes s) (edges s) (selectedNode s) (v2Properties s) (editorOpen s)
    (providers s) (installedProviders s) (secrets s) (isLayouted s)
    (selectedEdge s) (changes s) v (lastChangedAt s)
    (canDeploy s) (definition s) (validationErrors s).
Definition with_lastChangedAt (v : option Z) (s : WorkflowStateValues) :=
  mkState (nodes s) (edges s) (selectedNode s) (v2Properties s) (editorOpen s)
    (providers s) (installedProviders s) (secrets s) (isLayouted s)
    (selectedEdge s) (changes s) (isEditorSyncedWithNodes s) v
    (canDeploy s) (definition s) (validationErrors s).
Definition with_canDeploy (v : bool) (s : WorkflowStateValues) :=
  mkState (nodes s) (edges s) (selectedNode s) (v2Properties s) (editorOpen s)
    (providers s) (installedProviders s) (secrets s) (isLayouted s)
    (selectedEdge s) (changes s) (isEditorSyncedWithNodes s) (lastChangedAt s)
    v (definition s) (validationErrors s).
Definition with_definition (v : option DefinitionV2) (s : WorkflowStateValues) :=
  mkState (nodes s) (edges s) (selectedNode s) (v2Properties s) (editorOpen s)
    (providers s) (installedProviders s) (secrets s) (isLayouted s)
    (selectedEdge s) (changes s) (isEditorSyncedWithNodes s) (lastChangedAt s)
    (canDeploy s) v (validationErrors s).
Definition with_validationErrors (v : gmap string ValidationError)
    (s : WorkflowStateValues) :=
  mkState (nodes s) (edges s) (selectedNode s) (v2Properties s) (editorOpen s)
    (providers s) (installedProviders s) (secrets s) (isLayouted s)
    (selectedEdge s) (changes s) (isEditorSyncedWithNodes s) (lastChangedAt s)
    (canDeploy s) (definition s) v.

(** ** Collaborators

    What the store imports from the rest of keep-ui and from its libraries:
    the zod schemas, the edge predicates of the builder, the compiler
    [processWorkflowV2] and its inverse [reConstructWorklowToDefinition],
    the node and edge constructors, the validators, the layout routine and
    [addEdge] of the graph library. *)
Class Collaborators := {
  (** [V2StepTriggerSchema.parse], [None] when it throws a [ZodError]. *)
  V2StepTriggerSchema_parse : Json -> option V2Step;
  V2StepTemplateSchema_parse : Json -> option V2Step;
  canAddTriggerBeforeEdge : string -> string -> bool;
  canAddConditionBeforeEdge : string -> string -> bool;
  canAddForeachBeforeEdge : string -> string -> bool;
  canAddStepBeforeEdge : string -> string -> bool;
  processWorkflowV2 :
    list V2Step -> Position -> bool -> list FlowNode * list Edge;
  (** [createCustomEdgeMeta(source, target, label)], flattened. *)
  createCustomEdgeMeta : string -> string -> option string -> list Edge;
  createDefaultNodeV2 : StepData -> string -> FlowNode;
  (** [getLayoutedWorkflowElements(nodes, edges, {"elk.direction": d})]. *)
  getLayoutedWorkflowElements :
    list FlowNode -> list Edge -> string -> list FlowNode * list Edge;
  reConstructWorklowToDefinition :
    list FlowNode -> list Edge -> gmap string Json ->
    list V2Step * gmap string Json;
  validateGlobalPure : WfDefinition -> list (string * string);
  validateStepPure :
    V2Step -> list Json -> list Json -> gmap string string -> WfDefinition ->
    list ValidationError;
  wrapDefinitionV2 : WfDefinition -> bool -> DefinitionV2;
  (** [addEdge({...connection, type}, edges)] of the graph library. *)
  addEdge : Connection -> string -> list Edge -> list Edge
}.

Definition PROTECTED_NODE_IDS : list string :=
  ["start"; "end"; "trigger_start"; "trigger_end"]%string.

Definition TRIGGER_IDS : list string :=
  ["interval"; "alert"; "manual"; "incident"]%string.

Section Store.
Context `{Collaborators}.

(** *** onLayout *)

Record LayoutParams := mkLayoutParams {
  direction : string;
  useInitialNodes : bool;
  initialNodes : list FlowNode;
  initialEdges : list Edge
}.

Definition layoutDown : LayoutParams := mkLayoutParams "DOWN" false [] [].

(** The graph that the layout pass works on. *)
Definition layoutInput (params : LayoutParams) (st : WorkflowStateValues)
  : list FlowNode * list Edge :=
  (if useInitialNodes params then initialNodes params else nodes st,
   if useInitialNodes params then initialEdges params else edges st).

Definition layoutEdge (e : Edge) : Edge :=
  set_edge_layouted (includes "empty" (edge_target e)) e.

Definition layoutNode (n : FlowNode) : FlowNode :=
  set_node_data (set_step_isLayouted (Some true) (node_data n)) n.

(** Lines 813-827: the laid-out elements, every one flagged as layouted. *)
Definition layoutedElements (ns : list FlowNode) (es : list Edge)
    (direction : string) : list FlowNode * list Edge :=
  let '(_layoutedNodes, _layoutedEdges) :=
    getLayoutedWorkflowElements ns es direction in
  (map layoutNode _layoutedNodes, map layoutEdge _layoutedEdges).

Definition onLayout (params : LayoutParams) : Cmd unit :=
  let! st := get in
  let '(ns, es) := layoutInput params st in
  let '(layoutedNodes, layoutedEdges) :=
    layoutedElements ns es (direction params) in
  set (fun s => with_isLayouted true
                  (with_edges layoutedEdges (with_nodes layoutedNodes s))).

(** *** validateDefinition *)

(** The validation state of the loop: [isValid] and [validationErrors]. *)
Definition Findings : Type := bool * gmap string ValidationError.

(** [record[key] = value] on the plain object that holds the findings,
    each an array: the key [__proto__] is the accessor of
    [Object.prototype], so that write sets the prototype of the record and
    leaves no entry in it; any other key takes the value. *)
Definition assign {V} (key : string) (value : V) (record : gmap string V)
  : gmap string V :=
  if String.eqb key "__proto__" then record else <[key := value]> record.

(** [validationErrors[s.name || s.id] = errors[0]; isValid = false] when
    [errors] is not empty. *)
Definition recordFirst (s : V2Step) (errors : list ValidationError)
    (acc : Findings) : Findings :=
  match errors with
  | [] => acc
  | first :: _ =>
      (false, assign (or_else (step_name (data s)) (step_id (data s))) first
                (snd acc))
  end.

Definition validateNested (st : WorkflowStateValues) (d : WfDefinition)
    (acc : Findings) (s : V2Step) : Findings :=
  recordFirst s
    (validateStepPure s (default [] (providers st))
       (default [] (installedProviders st)) (default ∅ (secrets st)) d)
    acc.

Definition validateStep (st : WorkflowStateValues) (d : WfDefinition)
    (acc : Findings) (step : V2Step) : Findings :=
  let errors :=
    validateStepPure step (default [] (providers st))
      (default [] (installedProviders st)) (default ∅ (secrets st)) d in
  let acc1 :=
    match step with
    | Switch _ branches_true branches_false =>
        fold_left (validateNested st d) (branches_true ++ branches_false) acc
    | Container _ sequence => fold_left (validateNested st d) sequence acc
    | Leaf _ => acc
    end in
  recordFirst step errors acc1.

Record ValidationResult := mkValidationResult {
  res_isValid : bool;
  res_validationErrors : gmap string ValidationError;
  res_canDeploy : bool
}.

(** [Object.values(validationErrors).filter(([_, severity]) =>
    severity === "error")]. *)
Definition errorFindings (ve : gmap string ValidationError)
  : list ValidationError :=
  filter (fun v => is_error (snd v) = true) (snd <$> map_to_list ve).

(** [validateDefinition(definition)]; the result of the global pass is an
    array, so the test [if (result)] passes. *)
Definition validateDefinition (st : WorkflowStateValues) (d : WfDefinition)
  : ValidationResult :=
  let result := validateGlobalPure d in
  let globals : Findings :=
    (bool_decide (result = []),
     fold_left (fun ve '(key, err) => assign key (err, error) ve) result ∅) in
  let '(isValid, validationErrors) :=
    fold_left (validateStep st d) (def_sequence d) globals in
  mkValidationResult isValid validationErrors
    (Nat.eqb (length (errorFindings validationErrors)) 0).

(** *** updateDefinition *)

Definition updateDefinition : Cmd unit :=
  let! st := get in
  let '(sequence, newProperties) :=
    reConstructWorklowToDefinition (nodes st) (edges st) (v2Properties st) in
  let definition := mkWfDefinition sequence newProperties in
  let r := validateDefinition st definition in
  set (fun s =>
         with_isEditorSyncedWithNodes true
           (with_canDeploy (res_canDeploy r)
              (with_validationErrors (res_validationErrors r)
                 (with_definition
                    (Some (wrapDefinitionV2 definition (res_isValid r))) s)))).

(** *** addNodeBetween *)

(** [type: "node" | "edge"]. *)
Inductive AnchorKind := AnchorNode | AnchorEdge.

(** Lines 102-119: the edge that the anchor names. *)
Definition findAnchorEdge (nodeOrEdgeId : string) (type : AnchorKind)
    (es : list Edge) : option Edge :=
  match type with
  | AnchorNode => find (fun edge => String.eqb (edge_target edge) nodeOrEdgeId) es
  | AnchorEdge => find (fun edge => String.eqb (edge_id edge) nodeOrEdgeId) es
  end.

Definition anchorNotFound (nodeOrEdgeId : string) (type : AnchorKind)
  : StoreError :=
  match type with
  | AnchorNode =>
      KeepWorkflowStoreError
        ("Edge with target " +:+ nodeOrEdgeId +:+ " not found")
  | AnchorEdge =>
      KeepWorkflowStoreError ("Edge with id " +:+ nodeOrEdgeId +:+ " not found")
  end.

(** Lines 121-124: the endpoints of the insertion; an edge that leaves
    [trigger_start] is taken to end at [trigger_end]. *)
Definition insertionEndpoints (edge : Edge) : string * string :=
  let sourceId := edge_source edge in
  let targetId := edge_target edge in
  (sourceId,
   if String.eqb sourceId "trigger_start" then "trigger_end"%string
   else targetId).

(** The temporary steps that stand for the two ends of the edge. *)
Definition tempSource (sourceId : string) (edge : Edge) : V2Step :=
  Leaf (mkStepData sourceId "temp_node" "temp_node" "temp_node" None None
          (edge_label edge) (edge_stroke edge) None None).

Definition tempTarget (targetId : string) : V2Step :=
  Leaf (mkStepData targetId "temp_node" "temp_node" "temp_node" None None
          None None (Some true) None).

(** [rawStep.componentType === "trigger"]. *)
Definition isTriggerPayload (rawStep : Json) : bool :=
  match jget "componentType" rawStep with
  | Some (JStr c) => String.eqb c "trigger"
  | _ => false
  end.

(** [newStep.properties?.[newNodeId] ?? fallback]. *)
Definition seedProperty (newStep : V2Step) (newNodeId : string)
    (fallback : Json) : Json :=
  nullish (match step_properties (data newStep) with
           | Some props => props !! newNodeId
           | None => None
           end) fallback.

(** Lines 241-270: the trigger ids seed the workflow properties. *)
Definition seedTriggerProperties (newNodeId : string) (newStep : V2Step)
  : Cmd unit :=
  if String.eqb newNodeId "interval" || String.eqb newNodeId "manual" then
    set (fun s => with_v2Properties
                    (<[newNodeId := seedProperty newStep newNodeId (JStr "")]>
                       (v2Properties s)) s)
  else if String.eqb newNodeId "alert" || String.eqb newNodeId "incident" then
    set (fun s => with_v2Properties
                    (<[newNodeId := seedProperty newStep newNodeId (JObj [])]>
                       (v2Properties s)) s)
  else ret tt.

(** Lines 126-275 of [addNodeBetween]: the insertion of the parsed [step]
    between [sourceId] and [targetId], the endpoints taken from [edge];
    [uuid] is the value of [uuidv4()] and [now] the value of [Date.now()]
    in this call. *)
Definition insertOnEdge (isTriggerComponent : bool) (step : V2Step)
    (edge : Edge) (sourceId targetId : string) (uuid : string) (now : Z)
  : Cmd string :=
  run! throw_if (negb (nonempty sourceId))
         (KeepWorkflowStoreError
            ("Source is not defined for edge " +:+ edge_id edge)) in
  run! throw_if (negb (nonempty targetId))
         (KeepWorkflowStoreError
            ("Target is not defined for edge " +:+ edge_id edge)) in
  run! throw_if
         (isTriggerComponent && negb (canAddTriggerBeforeEdge sourceId targetId))
         (KeepWorkflowStoreError
            ("Edge " +:+ edge_id edge +:+ " cannot add trigger")) in
  run! throw_if
         (String.eqb (step_componentType (data step)) "switch"
          && negb (canAddConditionBeforeEdge sourceId targetId))
         (KeepWorkflowStoreError
            ("Edge " +:+ edge_id edge +:+ " cannot add condition")) in
  run! throw_if
         (String.eqb (step_componentType (data step)) "container"
          && String.eqb (step_type (data step)) "foreach"
          && negb (canAddForeachBeforeEdge sourceId targetId))
         (KeepWorkflowStoreError
            ("Edge " +:+ edge_id edge +:+ " cannot add foreach")) in
  run! throw_if
         (negb (String.eqb sourceId "trigger_start") && isTriggerComponent)
         (KeepWorkflowStoreError
            ("Trigger is only allowed at the start of the workflow. Attempted to add trigger at edge "
             +:+ edge_id edge)) in
  run! throw_if
         (String.eqb sourceId "trigger_start" && negb isTriggerComponent)
         (KeepWorkflowStoreError
            ("Only trigger can be added at the start of the workflow. Attempted to add step at edge "
             +:+ edge_id edge)) in
  run! throw_if
         (negb isTriggerComponent && negb (canAddStepBeforeEdge sourceId targetId))
         (KeepWorkflowStoreError
            ("Edge " +:+ edge_id edge +:+ " cannot add step")) in
  let! st1 := get in
  let nodes0 := nodes st1 in
  run! throw_if
         (isTriggerComponent
          && existsb (fun node => String.eqb (step_id (data step)) (node_id node))
               nodes0)
         (KeepWorkflowStoreError
            ("Trigger of type " +:+ step_type (data step)
             +:+ " is already in the workflow")) in
  let sourceIndex :=
    findIndex (fun node => String.eqb (node_id node) sourceId) nodes0 in
  let! targetIndex :=
    match findIndex (fun node => String.eqb (node_id node) targetId) nodes0 with
    | Some i => ret i
    | None =>
        throw (KeepWorkflowStoreError
                 ("Target node with id " +:+ targetId +:+ " not found"))
    end in
  let newNodeId := if isTriggerComponent then step_id (data step) else uuid in
  let newStep := with_data (set_step_id newNodeId (data step)) step in
  let! st2 := get in
  let edges0 := edges st2 in
  let '(newNodes, newEdges) :=
    processWorkflowV2
      [tempSource sourceId edge; newStep; tempTarget targetId]
      (mkPosition 0 0) true in
  let finalEdges :=
    newEdges ++
    List.filter
      (fun edge => negb (String.eqb (edge_source edge) sourceId
                         && String.eqb (edge_target edge) targetId))
      edges0 in
  let isNested :=
    match nodes0 !! targetIndex with
    | Some n => node_isNested n
    | None => false
    end
    || match sourceIndex with
       | Some i => match nodes0 !! i with
                   | Some n => node_isNested n
                   | None => false
                   end
       | None => false
       end in
  let newNodes := map (set_node_isNested isNested) newNodes in
  let newNodes :=
    slice nodes0 0 targetIndex ++ newNodes ++ drop targetIndex nodes0 in
  run! set (fun s =>
              with_lastChangedAt (Some now)
                (with_changes (changes s + 1)
                   (with_isLayouted false
                      (with_nodes newNodes (with_edges finalEdges s))))) in
  run! seedTriggerProperties newNodeId newStep in
  run! onLayout layoutDown in
  run! updateDefinition in
  ret newNodeId.


(** [addNodeBetween(nodeOrEdgeId, rawStep, type, set, get)], lines 85-124:
    the payload is parsed, the anchor resolved to an edge, and the step
    inserted between the endpoints of that edge. *)
Definition addNodeBetween (nodeOrEdgeId : string) (rawStep : Json)
    (type : AnchorKind) (uuid : string) (now : Z) : Cmd string :=
  run! throw_if (negb (truthy rawStep))
         (KeepWorkflowStoreError "Step is not defined") in
  run! throw_if (negb (nonempty nodeOrEdgeId))
         (KeepWorkflowStoreError "Node or edge id is not defined") in
  let isTriggerComponent := isTriggerPayload rawStep in
  let! step :=
    match (if isTriggerComponent then V2StepTriggerSchema_parse rawStep
           else V2StepTemplateSchema_parse rawStep) with
    | Some step => ret step
    | None => throw ZodError
    end in
  let! st0 := get in
  let! edge :=
    match findAnchorEdge nodeOrEdgeId type (edges st0) with
    | Some edge => ret edge
    | None => throw (anchorNotFound nodeOrEdgeId type)
    end in
  let '(sourceId, targetId) := insertionEndpoints edge in
  insertOnEdge isTriggerComponent step edge sourceId targetId uuid now.

(** The store method [addNodeBetween]: the insert, then the selection
    moves to the new node. *)
Definition addNodeBetween_method (nodeOrEdgeId : string) (step : Json)
    (type : AnchorKind) (uuid : string) (now : Z) : Cmd string :=
  let! newNodeId := addNodeBetween nodeOrEdgeId step type uuid now in
  run! set (fun s => with_selectedEdge None
                       (with_selectedNode (Some newNodeId) s)) in
  ret newNodeId.

(** *** deleteNodes *)

(** The argument of [deleteNodes]: one id, or anything that is not a
    string (an array of ids). *)
Inductive DeleteArg := IdString (ids : string) | IdArray (ids : list string).

(** Lines 671-677: the end of the range that starts with [startNode]: the
    node named [<type>__end__<id>] when there is one, else [startNode]. *)
Definition customIdentifier (startNode : FlowNode) : string :=
  step_type (node_data startNode) +:+ "__end__" +:+ node_id startNode.

Definition rangeEnd (ns : list FlowNode) (nodeStartIndex : nat)
    (startNode : FlowNode) : nat * FlowNode :=
  default (nodeStartIndex, startNode)
    (findEntry (fun node => String.eqb (node_id node) (customIdentifier startNode))
       ns).

(** Lines 681-683: the ids of the range. *)
Definition rangeIds (ns : list FlowNode) (nodeStartIndex endIndex : nat)
  : list string :=
  map node_id (slice ns nodeStartIndex (endIndex + 1)).

(** Lines 685-688: the edges with no end in the range. *)
Definition outsideRange (idArray : list string) (es : list Edge) : list Edge :=
  List.filter
    (fun edge => negb (includes_id idArray (edge_source edge)
                       || includes_id idArray (edge_target edge)))
    es.

(** Lines 689-696: a trigger that is not the only successor of
    [trigger_start] loses its outgoing edges before the reconnection. *)
Definition siblingTrigger (ids : string) (es : list Edge) : bool :=
  includes_id TRIGGER_IDS ids
  && existsb (fun edge => String.eqb (edge_source edge) "trigger_start"
                          && negb (String.eqb (edge_target edge) ids)) es.

Definition reconnectBase (ids : string) (idArray : list string)
    (es : list Edge) : list Edge :=
  if siblingTrigger ids es
  then List.filter (fun edge => negb (includes_id idArray (edge_source edge))) es
  else es.

(** Lines 697-719: one new edge per edge into the start of the range and
    edge out of its end.  Each slot of the edge array holds an object of
    its own, so the two [Set]s are the filtered arrays. *)
Definition reconnections (startNode endNode : FlowNode) (es : list Edge)
  : list Edge :=
  let sources :=
    List.filter (fun edge => String.eqb (node_id startNode) (edge_target edge)) es in
  let targets :=
    List.filter (fun edge => String.eqb (node_id endNode) (edge_source edge)) es in
  concat
    (map (fun edge =>
            let target :=
              if String.eqb (edge_source edge) "trigger_start"
              then "trigger_end"%string else edge_target edge in
            concat
              (map (fun source =>
                      createCustomEdgeMeta (edge_source source) target
                        (edge_label source))
                 sources))
       targets).

(** The edges and the nodes that [deleteNodes] hands to [set], for the
    node [startNode] at [nodeStartIndex] and the node [next] that follows
    its range. *)
Definition deleteFinalEdges (ids : string) (ns : list FlowNode)
    (es : list Edge) (nodeStartIndex : nat) (startNode : FlowNode) : list Edge :=
  let '(endIndex, endNode) := rangeEnd ns nodeStartIndex startNode in
  let idArray := rangeIds ns nodeStartIndex endIndex in
  outsideRange idArray es
  ++ reconnections startNode endNode (reconnectBase ids idArray es).

Definition deleteNewNodes (ns : list FlowNode) (nodeStartIndex : nat)
    (startNode next : FlowNode) : list FlowNode :=
  let endIndex := fst (rangeEnd ns nodeStartIndex startNode) in
  (* nodes[endIndex + 1].position = { x: 0, y: 0 } *)
  let ns1 := <[(endIndex + 1)%nat := set_node_position (mkPosition 0 0) next]> ns in
  let newNode :=
    createDefaultNodeV2 (set_islayouted (Some false) (node_data next))
      (node_id next) in
  slice ns1 0 nodeStartIndex ++ [newNode] ++ drop (endIndex + 2) ns1.

(** [deleteNodes(ids)]; [now] is the value of [Date.now()]. *)
Definition deleteNodes (ids : DeleteArg) (now : Z) : Cmd (list string) :=
  match ids with
  | IdArray _ => ret []
  | IdString ids =>
      run! throw_if (includes_id PROTECTED_NODE_IDS ids)
             (KeepWorkflowStoreError "Cannot delete protected node") in
      let! st := get in
      let ns := nodes st in
      match findEntry (fun node => String.eqb ids (node_id node)) ns with
      | None => ret []
      | Some (nodeStartIndex, startNode) =>
          let endIndex := fst (rangeEnd ns nodeStartIndex startNode) in
          let finalEdges :=
            deleteFinalEdges ids ns (edges st) nodeStartIndex startNode in
          let! next :=
            match ns !! (endIndex + 1)%nat with
            | Some next => ret next
            | None =>
                throw (TypeError
                         "Cannot set properties of undefined (setting 'position')")
            end in
          let newNodes := deleteNewNodes ns nodeStartIndex startNode next in
          run! (if includes_id TRIGGER_IDS ids
                then set (fun s => with_v2Properties
                                     (delete ids (v2Properties s)) s)
                else ret tt) in
          run! set (fun s =>
                      with_editorOpen true
                        (with_lastChangedAt (Some now)
                           (with_changes (changes s + 1)
                              (with_isLayouted false
                                 (with_selectedNode None
                                    (with_nodes newNodes
                                       (with_edges finalEdges s))))))) in
          run! onLayout layoutDown in
          run! updateDefinition in
          ret [ids]
      end
  end.

(** *** onConnect *)

Definition getNodeById (st : WorkflowStateValues) (id : string)
  : option FlowNode :=
  find (fun node => String.eqb (node_id node) id) (nodes st).

Definition outgoing (st : WorkflowStateValues) (source : string) : list Edge :=
  List.filter (fun edge => String.eqb (edge_source edge) source) (edges st).

(** The connection restrictions, lines 560-584. *)
Definition canConnect (st : WorkflowStateValues) (source : string)
    (sourceNode targetNode : option FlowNode) : bool :=
  match sourceNode, targetNode with
  | Some sourceNode, Some _ =>
      let sourceType := step_componentType (node_data sourceNode) in
      if String.eqb sourceType "switch" then
        (length (outgoing st source) <? 2)%nat
      else if String.eqb sourceType "container"
              && String.eqb (step_type (node_data sourceNode)) "foreach" then
        true
      else Nat.eqb (length (outgoing st source)) 0
  | _, _ => false
  end.

Definition connectNode (source target : string) (node : FlowNode) : FlowNode :=
  if String.eqb (node_id node) target then
    set_node_isDraggable (Some false) (set_node_prevStepId (Some source) node)
  else if String.eqb (node_id node) source then
    set_node_isDraggable (Some false) node
  else node.

(** [onConnect(connection)]; the rejected call logs a warning and leaves
    the store alone. *)
Definition onConnect (connection : Connection) : Cmd unit :=
  let source := conn_source connection in
  let target := conn_target connection in
  let! st := get in
  let sourceNode := getNodeById st source in
  let targetNode := getNodeById st target in
  if canConnect st source sourceNode targetNode then
    run! set (fun s => with_edges (addEdge connection "custom-edge" (edges s)) s) in
    set (fun s => with_nodes (map (connectNode source target) (nodes s)) s)
  else ret tt.

End Store.

(** ** The compiler and the decompiler

    [processWorkflowV2] and [reConstructWorklowToDefinition] live in
    utils/reactFlow, a module that is not part of this development; the two functions below
    follow the contracts the specification gives for them. *)

(** Modelled from the spec: the constructor of an edge, missing with
    utils/reactFlow; an edge from [source] to [target] that carries the
    given label. *)
Definition edgeBetween (source target : string) (label : option string)
  : Edge :=
  mkEdge ("e" +:+ source +:+ "-" +:+ target) source target label None
    (Some "custom-edge"%string) None None.

(** Modelled from the spec: the node that wraps a step, missing with
    utils/reactFlow; node identity is step identity, the position and the
    nested flag are presentation metadata. *)
Definition nodeFor (origin : Position) (nested : bool) (d : StepData)
  : FlowNode :=
  mkFlowNode (step_id d) origin d None None nested.

(** The derived identifier [<type>__end__<parentId>] of the node that
    closes the region of a switch or container. *)
Definition boundaryId (d : StepData) : string :=
  step_type d +:+ "__end__" +:+ step_id d.

Definition boundaryData (d : StepData) : StepData :=
  mkStepData (boundaryId d) (boundaryId d) (step_type d) "boundary" None None
    None None None None.

(** The id at which a path begins: its first step, or what follows it. *)
Definition entry (l : list V2Step) (next : string) : string :=
  match l with
  | [] => next
  | s :: _ => step_id (data s)
  end.

Definition graph_app (a b : list FlowNode * list Edge)
  : list FlowNode * list Edge :=
  (fst a ++ fst b, snd a ++ snd b).

(** A path of steps, each expanded by [expand] and wired to the entry of
    the rest of the path. *)
Definition compilePathWith
    (expand : V2Step -> string -> list FlowNode * list Edge)
  : list V2Step -> string -> list FlowNode * list Edge :=
  fix go (l : list V2Step) (next : string) {struct l} :=
    match l with
    | [] => ([], [])
    | s :: rest => graph_app (expand s (entry rest next)) (go rest next)
    end.

(** Modelled from the spec: the expansion of one step of the definition
    tree (section 4.1), missing with utils/reactFlow.  A task is one node
    with one edge to what follows; a switch is its node, the false and the
    true sub-path, labelled, that reconverge on its end-boundary node; a
    container is its node and its body, closed by its end-boundary node. *)
Fixpoint compileStep (origin : Position) (nested : bool) (s : V2Step)
    (next : string) {struct s} : list FlowNode * list Edge :=
  match s with
  | Leaf d => ([nodeFor origin nested d], [edgeBetween (step_id d) next None])
  | Switch d branches_true branches_false =>
      let close := boundaryId d in
      let f := compilePathWith (compileStep origin true) branches_false close in
      let t := compilePathWith (compileStep origin true) branches_true close in
      (nodeFor origin nested d :: fst f ++ fst t
         ++ [nodeFor origin nested (boundaryData d)],
       edgeBetween (step_id d) (entry branches_false close) (Some "false"%string)
         :: edgeBetween (step_id d) (entry branches_true close) (Some "true"%string)
         :: snd f ++ snd t ++ [edgeBetween close next None])
  | Container d sequence =>
      let close := boundaryId d in
      let b := compilePathWith (compileStep origin true) sequence close in
      (nodeFor origin nested d :: fst b
         ++ [nodeFor origin nested (boundaryData d)],
       edgeBetween (step_id d) (entry sequence close) None
         :: snd b ++ [edgeBetween close next None])
  end.

Definition compilePath (origin : Position) (nested : bool)
  : list V2Step -> string -> list FlowNode * list Edge :=
  compilePathWith (compileStep origin nested).

Definition sentinel (id : string) : StepData :=
  mkStepData id id id id (Some ∅) (Some false) None None None None.

Definition triggerData (kind : string) (config : Json) : StepData :=
  mkStepData kind kind kind "trigger" (Some {[kind := config]}) None None None
    None None.

(** The configured trigger kinds, in the order of [TRIGGER_IDS]. *)
Definition configuredTriggers (properties : gmap string Json)
  : list StepData :=
  omap (fun kind => triggerData kind <$> properties !! kind) TRIGGER_IDS.

(** The trigger lane: every trigger between [trigger_start] and
    [trigger_end], or the empty lane edge. *)
Definition laneEdges (triggers : list StepData) : list Edge :=
  match triggers with
  | [] => [edgeBetween "trigger_start" "trigger_end" None]
  | _ =>
      concat (map (fun d => [edgeBetween "trigger_start" (step_id d) None;
                             edgeBetween (step_id d) "trigger_end" None])
                triggers)
  end.

(** Modelled from the spec: [compile(sequence, properties, originPosition)]
    of section 4.1, the contract of the missing [processWorkflowV2]:
    [start], the trigger lane, the expanded sequence, [end]. *)
Definition compile (d : WfDefinition) (origin : Position)
  : list FlowNode * list Edge :=
  let triggers := configuredTriggers (def_properties d) in
  let path := compilePath origin false (def_sequence d) "end" in
  (nodeFor origin false (sentinel "start")
     :: nodeFor origin false (sentinel "trigger_start")
     :: map (nodeFor origin false) triggers
     ++ nodeFor origin false (sentinel "trigger_end")
     :: fst path ++ [nodeFor origin false (sentinel "end")],
   edgeBetween "start" "trigger_start" None
     :: laneEdges triggers
     ++ edgeBetween "trigger_end" (entry (def_sequence d) "end") None
     :: snd path).

(** The target of the edge that leaves [source] with the given label. *)
Definition follow (es : list Edge) (source : string) (label : option string)
  : option string :=
  edge_target <$>
    find (fun e => String.eqb (edge_source e) source
                   && bool_decide (edge_label e = label)) es.

(** The explicit placeholder that stands for a dangling end of a path. *)
Definition emptyStep : V2Step :=
  Leaf (mkStepData "empty" "empty" "empty" "empty" None None None None None None).

(** Modelled from the spec: the traversal of section 4.2, missing with
    utils/reactFlow.  It walks the path from [cur] to [stop]; at a switch
    it collects the two labelled branches up to the end-boundary node, at a
    container the region up to the end-boundary node, and goes on behind
    the boundary; where the path dangles it puts the placeholder. *)
Fixpoint walk (ns : list FlowNode) (es : list Edge) (fuel : nat)
    (cur : option string) (stop : string) : list V2Step :=
  match fuel, cur with
  | S fuel, Some cur =>
      if String.eqb cur stop then []
      else
        match find (fun n => String.eqb (node_id n) cur) ns with
        | None => [emptyStep]
        | Some n =>
            let d := node_data n in
            let close := boundaryId d in
            if String.eqb (step_componentType d) "switch" then
              Switch d
                (walk ns es fuel (follow es cur (Some "true"%string)) close)
                (walk ns es fuel (follow es cur (Some "false"%string)) close)
              :: walk ns es fuel (follow es close None) stop
            else if String.eqb (step_componentType d) "container" then
              Container d (walk ns es fuel (follow es cur None) close)
              :: walk ns es fuel (follow es close None) stop
            else Leaf d :: walk ns es fuel (follow es cur None) stop
        end
  | _, _ => [emptyStep]
  end.

(** Modelled from the spec: [decompile(nodes, edges, currentProperties)]
    of section 4.2, the contract of the missing
    [reConstructWorklowToDefinition]: from [start] over the trigger lane
    to the main lane, which is walked up to [end]. *)
Definition decompile (ns : list FlowNode) (es : list Edge)
    (currentProperties : gmap string Json) : WfDefinition :=
  let first :=
    match follow es "start" None with
    | Some "trigger_start"%string => follow es "trigger_end" None
    | other => other
    end in
  mkWfDefinition (walk ns es (length ns) first "end") currentProperties.

(** A definition is legally constructed when every step carries the
    [componentType] of its variant, and the ids of its steps and of their
    end-boundary nodes are distinct from each other, from the four
    protected ids and from the trigger kinds. *)
Definition reservedIds : list string :=
  PROTECTED_NODE_IDS ++ TRIGGER_IDS.

Fixpoint stepIds (s : V2Step) : list string :=
  match s with
  | Leaf d => [step_id d]
  | Switch d t f =>
      step_id d :: flat_map stepIds f ++ flat_map stepIds t ++ [boundaryId d]
  | Container d q => step_id d :: flat_map stepIds q ++ [boundaryId d]
  end.

Definition pathIds (l : list V2Step) : list string := flat_map stepIds l.

Fixpoint wellTagged (s : V2Step) : bool :=
  match s with
  | Leaf d =>
      negb (String.eqb (step_componentType d) "switch")
      && negb (String.eqb (step_componentType d) "container")
  | Switch d t f =>
      String.eqb (step_componentType d) "switch"
      && forallb wellTagged t && forallb wellTagged f
  | Container d q =>
      String.eqb (step_componentType d) "container" && forallb wellTagged q
  end.

Definition allWellTagged (l : list V2Step) : bool := forallb wellTagged l.

Definition legallyConstructed (d : WfDefinition) : Prop :=
  allWellTagged (def_sequence d) = true
  /\ NoDup (reservedIds ++ pathIds (def_sequence d)).

(** ** A reference set of collaborators

    One instance of [Collaborators], built from the compiler and the
    decompiler above, on which the commands can be run. *)

Definition jstr (k : string) (j : Json) : option string :=
  match jget k j with
  | Some (JStr s) => Some s
  | _ => None
  end.

Definition jprops (j : Json) : option (gmap string Json) :=
  match jget "properties" j with
  | Some (JObj fields) => Some (list_to_map fields)
  | _ => None
  end.

(** Modelled from the spec: the trigger schema, missing with
    entities/workflows; a trigger payload names one of the trigger kinds
    as its id and type. *)
Definition referenceTriggerParse (rawStep : Json) : option V2Step :=
  match jstr "id" rawStep, jstr "type" rawStep, jstr "name" rawStep with
  | Some i, Some t, Some n =>
      if String.eqb i t && includes_id TRIGGER_IDS i
      then Some (Leaf (mkStepData i n t "trigger" (jprops rawStep) None None
                         None None None))
      else None
  | _, _, _ => None
  end.

(** Modelled from the spec: the generic step schema, missing with
    entities/workflows; a template has a name, a type and a component
    type, and no id yet. *)
Definition referenceTemplateParse (rawStep : Json) : option V2Step :=
  match jstr "name" rawStep, jstr "type" rawStep, jstr "componentType" rawStep with
  | Some n, Some t, Some c =>
      let d := mkStepData "" n t c (jprops rawStep) None None None None None in
      Some (if String.eqb c "switch" then Switch d [] []
            else if String.eqb c "container" then Container d []
            else Leaf d)
  | _, _, _ => None
  end.

(** Modelled from the spec: the insert scaffold run through the compiler
    (section 4.3); the two temporary steps give no node, the leading edge
    keeps the label and the colour of the edge it replaces. *)
Definition referenceProcessWorkflowV2 (steps : list V2Step)
    (origin : Position) (useInitial : bool) : list FlowNode * list Edge :=
  match steps with
  | [Leaf src; step; Leaf tgt] =>
      let '(ns, es) := compileStep origin false step (step_id tgt) in
      (ns,
       mkEdge ("e" +:+ step_id src +:+ "-" +:+ step_id (data step))
         (step_id src) (step_id (data step)) (edgeLabel src) (edgeColor src)
         (Some "custom-edge"%string) None None :: es)
  | _ => compilePath origin false steps "end"
  end.

(** Modelled from the spec: the layout routine of section 4.5, missing
    with entities/workflows/lib; nodes are placed one after the other
    along the direction, nothing else changes. *)
Fixpoint placeNodes (direction : string) (k : Z) (ns : list FlowNode)
  : list FlowNode :=
  match ns with
  | [] => []
  | n :: rest =>
      set_node_position
        (if String.eqb direction "DOWN" then mkPosition 0 (100 * k)
         else mkPosition (100 * k) 0) n
      :: placeNodes direction (k + 1) rest
  end.

(** Modelled from the spec: the global and the per-step validators of
    section 4.4, missing with entities/workflows/lib; a workflow needs a
    trigger, a step needs a name (an error) and a configuration (a
    warning). *)
Definition referenceValidateGlobal (d : WfDefinition)
  : list (string * string) :=
  if existsb (fun kind => bool_decide (is_Some (def_properties d !! kind)))
       TRIGGER_IDS
  then []
  else [("trigger_start", "Workflow should have at least one trigger.")]%string.

Definition referenceValidateStep (s : V2Step) (providers installed : list Json)
    (secrets : gmap string string) (d : WfDefinition) : list ValidationError :=
  (if nonempty (step_name (data s)) then []
   else [("Step name cannot be empty."%string, error)])
  ++ (match step_properties (data s) with
      | Some _ => []
      | None => [("Step is not configured."%string, warning)]
      end).

(** Modelled from the spec: the collaborators, missing with the modules
    they live in, each by the contract the specification gives it: the
    schemas, the edge predicates of section 4.3, the compiler and the
    decompiler, the edge and node constructors, the layout routine, the
    validators, and [addEdge], which appends the new edge. *)
Definition referenceCollaborators : Collaborators := {|
  V2StepTriggerSchema_parse := referenceTriggerParse;
  V2StepTemplateSchema_parse := referenceTemplateParse;
  canAddTriggerBeforeEdge := fun s t =>
    String.eqb s "trigger_start" && String.eqb t "trigger_end";
  canAddConditionBeforeEdge := fun s t => negb (String.eqb s "trigger_start");
  canAddForeachBeforeEdge := fun s t => negb (String.eqb s "trigger_start");
  canAddStepBeforeEdge := fun s t => negb (String.eqb s "trigger_start");
  processWorkflowV2 := referenceProcessWorkflowV2;
  createCustomEdgeMeta := fun s t l => [edgeBetween s t l];
  createDefaultNodeV2 := fun d i => mkFlowNode i (mkPosition 0 0) d None None false;
  getLayoutedWorkflowElements := fun ns es dir => (placeNodes dir 0 ns, es);
  reConstructWorklowToDefinition := fun ns es props =>
    (def_sequence (decompile ns es props), props);
  validateGlobalPure := referenceValidateGlobal;
  validateStepPure := referenceValidateStep;
  wrapDefinitionV2 := mkDefinitionV2;
  addEdge := fun c ty es =>
    es ++ [mkEdge ("xy-edge__" +:+ conn_source c +:+ "-" +:+ conn_target c)
             (conn_source c) (conn_target c) None None (Some ty) None None]
|}.

(** ** Example stores *)

Definition origin : Position := mkPosition 0 50.

Definition taskData (id name : string) : StepData :=
  mkStepData id name "step-slack" "task" (Some ∅) None None None None None.

Definition foreachData (id : string) : StepData :=
  mkStepData id id "foreach" "container" (Some ∅) None None None None None.

Definition switchData (id : string) : StepData :=
  mkStepData id id "condition-assert" "switch" (Some ∅) None None None None None.

(** The store that holds the compiled graph of a definition. *)
Definition storeOf (d : WfDefinition) : WorkflowStateValues :=
  let '(ns, es) := compile d origin in
  with_v2Properties (def_properties d) (with_edges es (with_nodes ns defaultState)).

(** A manual trigger and one task. *)
Definition linearDefinition : WfDefinition :=
  mkWfDefinition [Leaf (taskData "send-slack" "send-slack")]
    {[ "manual"%string := JStr "true" ]}.

(** Two triggers, a manual and an alert trigger, and one task. *)
Definition twoTriggerDefinition : WfDefinition :=
  mkWfDefinition [Leaf (taskData "send-slack" "send-slack")]
    (<[ "alert"%string := JObj [("source"%string, JStr "sentry")] ]>
       {[ "manual"%string := JStr "true" ]}).

(** A foreach container around a task, then a switch with one task in its
    true branch. *)
Definition nestedDefinition : WfDefinition :=
  mkWfDefinition
    [Container (foreachData "loop") [Leaf (taskData "inner" "inner")];
     Switch (switchData "check") [Leaf (taskData "on-true" "on-true")] []]
    {[ "manual"%string := JStr "true" ]}.

(** A task with no edge out of it, in front of [end]. *)
Definition danglingStore : WorkflowStateValues :=
  with_edges [edgeBetween "start" "a" None]
    (with_nodes [nodeFor origin false (sentinel "start");
                 nodeFor origin false (taskData "a" "a");
                 nodeFor origin false (sentinel "end")] defaultState).

Definition manualTrigger : Json :=
  JObj [("id", JStr "manual"); ("type", JStr "manual"); ("name", JStr "Manual");
        ("componentType", JStr "trigger");
        ("properties", JObj [("manual", JStr "true")])]%string.

(** A task that is not configured, behind a manual trigger; and the same
    task with no trigger at all. *)
Definition unconfiguredDefinition : WfDefinition :=
  mkWfDefinition
    [Leaf (mkStepData "notify" "notify" "action-slack" "task" None None None
             None None None)]
    {[ "manual"%string := JStr "true" ]}.

Definition untriggeredDefinition : WfDefinition :=
  mkWfDefinition (def_sequence unconfiguredDefinition) ∅.

(** Two steps under one key: the first has no name and the id [x], the
    second the name [x] and no configuration. *)
Definition shadowedDefinition : WfDefinition :=
  mkWfDefinition
    [Leaf (mkStepData "x" "" "action-slack" "task" (Some ∅) None None None None
             None);
     Leaf (mkStepData "y" "x" "action-slack" "task" None None None None None
             None)]
    {[ "manual"%string := JStr "true" ]}.

(** A store whose node [step-slack__end__a] stands in front of the node
    [a]. *)
Definition backwardStore : WorkflowStateValues :=
  with_edges [edgeBetween "start" "a" None; edgeBetween "a" "end" None]
    (with_nodes [nodeFor origin false (sentinel "start");
                 nodeFor origin false (taskData "step-slack__end__a" "stray");
                 nodeFor origin false (taskData "a" "a");
                 nodeFor origin false (sentinel "end")] defaultState).

(** What the trigger schema makes of [manualTrigger]. *)
Definition manualStep : V2Step :=
  Leaf (mkStepData "manual" "Manual" "manual" "trigger"
          (Some {[ "manual"%string := JStr "true" ]}) None None None None None).

Definition slackTemplate : Json :=
  JObj [("name", JStr "slack-action"); ("type", JStr "action-slack");
        ("componentType", JStr "task"); ("properties", JObj [])]%string.

(** What the template schema makes of [slackTemplate]. *)
Definition slackStep : V2Step :=
  Leaf (mkStepData "" "slack-action" "action-slack" "task" (Some ∅) None None
          None None None).

Definition alertTrigger : Json :=
  JObj [("id", JStr "alert"); ("type", JStr "alert"); ("name", JStr "Alert");
        ("componentType", JStr "trigger");
        ("properties", JObj [("alert", JObj [("source", JStr "sentry")])])]%string.

(** What the trigger schema makes of [alertTrigger]. *)
Definition alertStep : V2Step :=
  Leaf (mkStepData "alert" "Alert" "alert" "trigger"
          (Some {[ "alert"%string := JObj [("source"%string, JStr "sentry")] ]})
          None None None None None).

(** What the traversal does at one compiled step, in a graph [ns], [es]
    that holds the compiled nodes [mainNodes] and edges [mainEdges]: it
    rebuilds the step and goes on at what follows it. *)
Definition walksStep (origin : Position) (ns mainNodes : list FlowNode)
    (es mainEdges : list Edge) (s : V2Step) : Prop :=
  forall nested next stop fuel,
    incl (fst (compileStep origin nested s next)) mainNodes ->
    incl (snd (compileStep origin nested s next)) mainEdges ->
    wellTagged s = true ->
    NoDup (stepIds s) ->
    step_id (data s) <> stop ->
    (length (stepIds s) <= fuel)%nat ->
    walk ns es (S fuel) (Some (step_id (data s))) stop
    = s :: walk ns es fuel (Some next) stop.

(** The key under which the traversal looks an edge up. *)
Definition edgeKey (e : Edge) : string * option string :=
  (edge_source e, edge_label e).

(** ** What is asked of a deletion *)

(** Every edge into [first] and every edge out of [last] in the store
    [before] are joined in the store [after] by an edge from the source of
    the one to the target of the other, under the label of the first. *)
Definition reconnectsAll (before after : WorkflowStateValues)
    (first last : string) : Prop :=
  forall p s,
    In p (edges before) -> edge_target p = first ->
    In s (edges before) -> edge_source s = last ->
    exists e,
      In e (edges after)
      /\ edge_source e = edge_source p /\ edge_target e = edge_target s
      /\ edge_label e = edge_label p.

(** A node that stands for the [empty] placeholder step. *)
Definition isPlaceholder (node : FlowNode) : bool :=
  includes "empty" (node_id node)
  || includes "empty" (step_type (node_data node))
  || includes "empty" (step_componentType (node_data node)).

(** ** What is asked of a layout pass *)

(** A node without its position, and without its position and layouted
    flag: what is left is its identity and content. *)
Definition withoutPosition (n : FlowNode) : FlowNode :=
  set_node_position (mkPosition 0 0) n.

Definition withoutLayout (n : FlowNode) : FlowNode :=
  set_node_data (set_step_isLayouted None (node_data n)) (withoutPosition n).

(** Modelled from the spec: the contract of the layout routine
    [getLayoutedWorkflowElements], missing with entities/workflows/lib
    (section 4.5): it gives back the nodes it was given, in their order,
    with new positions and nothing else changed, and the edges it was
    given. *)
Definition keepsContent (ns : list FlowNode) (es : list Edge)
    (out : list FlowNode * list Edge) : Prop :=
  map withoutPosition (fst out) = map withoutPosition ns /\ snd out = es.

(** A step of the definition without the layouted flags in it. *)
Fixpoint withoutLayoutFlag (s : V2Step) : V2Step :=
  match s with
  | Leaf d => Leaf (set_step_isLayouted None d)
  | Switch d t f =>
      Switch (set_step_isLayouted None d) (map withoutLayoutFlag t)
        (map withoutLayoutFlag f)
  | Container d q =>
      Container (set_step_isLayouted None d) (map withoutLayoutFlag q)
  end.

(** An edge without its animated and layouted flags. *)
Definition withoutFlags (e : Edge) : Edge :=
  mkEdge (edge_id e) (edge_source e) (edge_target e) (edge_label e)
    (edge_stroke e) (edge_type e) None None.

(** ** More of the store

    The other commands of the store that work on the fields above. *)

(** What the rest of the store imports: the predicates and the toolbox of
    the builder, the YAML schema and parsers, the trigger steps of the
    compiler and the change reducers of the graph library.  A zod schema
    is, for the store, what its [parse] does with a value: [true] when it
    returns, [false] when it throws a [ZodError]. *)
Class BuilderCollaborators := {
  (** [edgeCanHaveAddButton(source, target)]. *)
  edgeCanHaveAddButton : string -> string -> bool;
  (** [getToolboxConfiguration(providers)]. *)
  getToolboxConfiguration : list Json -> Json;
  (** [getYamlWorkflowDefinitionSchema(providers, { partial })]; [None]
      when the options are left out. *)
  getYamlWorkflowDefinitionSchema : list Json -> option bool -> Json -> bool;
  (** [getTriggerSteps(properties)]. *)
  getTriggerSteps : gmap string Json -> list V2Step;
  (** [parseWorkflowYamlStringToJSON(yamlString)], [None] when it throws. *)
  parseWorkflowYamlStringToJSON : string -> option Json;
  (** [parseWorkflow(yamlString, providers)], [None] when it throws. *)
  parseWorkflow : string -> list Json -> option WfDefinition;
  (** [applyNodeChanges(changes, nodes)], [applyEdgeChanges(changes, edges)]. *)
  applyNodeChanges : list Json -> list FlowNode -> list FlowNode;
  applyEdgeChanges : list Json -> list Edge -> list Edge
}.

Section StoreMore.
Context `{Collaborators} `{BuilderCollaborators}.

(** [addNodeBetweenSafe], lines 345-366: the body of the store method in a
    [try]; the [catch] shows a toast, logs the error and returns [null]. *)
Definition addNodeBetweenSafe (nodeOrEdgeId : string) (step : Json)
    (type : AnchorKind) (uuid : string) (now : Z) : Cmd (option string) :=
  fun st =>
    match addNodeBetween_method nodeOrEdgeId step type uuid now st with
    | (Returned newNodeId, st') => (Returned (Some newNodeId), st')
    | (Thrown _, st') => (Returned None, st')
    end.

(** [setSelectedEdge(id)], lines 323-333. *)
Definition setSelectedEdge (id : string) : Cmd unit :=
  let! st := get in
  match find (fun edge => String.eqb (edge_id edge) id) (edges st) with
  | None => ret tt
  | Some edge =>
      set (fun s =>
             with_editorOpen
               (edgeCanHaveAddButton (edge_source edge) (edge_target edge))
               (with_selectedNode None (with_selectedEdge (Some id) s)))
  end.

(** [getEdgeById(id)], line 335. *)
Definition getEdgeById (st : WorkflowStateValues) (id : string) : option Edge :=
  find (fun edge => String.eqb (edge_id edge) id) (edges st).

(** [id || null] on an id that may be [null]. *)
Definition truthyId (id : option string) : option string :=
  match id with
  | Some i => if nonempty i then Some i else None
  | None => None
  end.

(** [setSelectedNode(id)], lines 542-549. *)
Definition setSelectedNode (id : option string) : Cmd unit :=
  set (fun s =>
         with_editorOpen (bool_decide (is_Some (truthyId id)))
           (with_selectedEdge None (with_selectedNode (truthyId id) s))).

(** [updateV2Properties(properties)], lines 533-541; in the spread the
    new properties win. *)
Definition updateV2Properties (properties : gmap string Json) (now : Z)
  : Cmd unit :=
  let! st := get in
  let updatedProperties := properties ∪ v2Properties st in
  run! set (fun s =>
              with_lastChangedAt (Some now)
                (with_changes (changes s + 1)
                   (with_v2Properties updatedProperties s))) in
  updateDefinition.

(** [getNextEdge(nodeId)], lines 753-768; [edges[1]] of a shorter array is
    [undefined], here [None]. *)
Definition getNextEdge (nodeId : string) : Cmd (option Edge) :=
  let! st := get in
  match getNodeById st nodeId with
  | None => throw (KeepWorkflowStoreError "Node not found")
  | Some node =>
      let es := List.filter (fun e => String.eqb (edge_source e) nodeId) (edges st) in
      run! throw_if (Nat.eqb (length es) 0)
             (KeepWorkflowStoreError "Edge not found") in
      if String.eqb (step_componentType (node_data node)) "switch"
      then ret (es !! 1%nat)
      else ret (es !! 0%nat)
  end.

(** [setNodes], [setEdges], lines 653-654. *)
Definition setNodes (ns : list FlowNode) : Cmd unit := set (with_nodes ns).
Definition setEdges (es : list Edge) : Cmd unit := set (with_edges es).

(** [useUIBuilderUnsavedChanges], lines 911-914: [changes !== 0]. *)
Definition useUIBuilderUnsavedChanges (st : WorkflowStateValues) : bool :=
  negb (changes st =? 0).

(** The steps that [validateDefinition] looks at below a step of the
    sequence: the two branches of a switch, true first, and the sequence
    of a container. *)
Definition directChildren (step : V2Step) : list V2Step :=
  match step with
  | Switch _ branches_true branches_false => branches_true ++ branches_false
  | Container _ sequence => sequence
  | Leaf _ => []
  end.

(** The findings of one step, with the providers and secrets of the
    store. *)
Definition findingsOf (st : WorkflowStateValues) (d : WfDefinition)
    (s : V2Step) : list ValidationError :=
  validateStepPure s (default [] (providers st))
    (default [] (installedProviders st)) (default ∅ (secrets st)) d.

(** The key under which the finding of a step is filed. *)
Definition findingKey (s : V2Step) : string :=
  or_else (step_name (data s)) (step_id (data s)).

(** What [validateDefinition] files for a step: the first of its findings,
    under the key of the step. *)
Definition filing (st : WorkflowStateValues) (d : WfDefinition) (s : V2Step)
  : list (string * ValidationError) :=
  match findingsOf st d s with
  | [] => []
  | first :: _ => [(findingKey s, first)]
  end.

(** The findings that [validateDefinition] files, in the order of its
    writes: those of the global pass, each as an error under its own key,
    then, step by step, those of the steps directly below the step and
    that of the step. *)
Definition filings (st : WorkflowStateValues) (d : WfDefinition)
  : list (string * ValidationError) :=
  map (fun '(key, err) => (key, (err, error))) (validateGlobalPure d)
  ++ flat_map (fun step =>
                 flat_map (filing st d) (directChildren step) ++ filing st d step)
       (def_sequence d).

(** The store is settled: its definition, its findings and its deploy flag
    are those of the graph and the properties it holds. *)
Definition settled (st : WorkflowStateValues) : Prop :=
  let d :=
    mkWfDefinition
      (fst (reConstructWorklowToDefinition (nodes st) (edges st) (v2Properties st)))
      (snd (reConstructWorklowToDefinition (nodes st) (edges st) (v2Properties st))) in
  definition st = Some (wrapDefinitionV2 d (res_isValid (validateDefinition st d)))
  /\ validationErrors st = res_validationErrors (validateDefinition st d)
  /\ canDeploy st = res_canDeploy (validateDefinition st d)
  /\ isEditorSyncedWithNodes st = true.

(** [onNodesChange], [onEdgesChange], lines 550-553. *)
Definition onNodesChange (changes : list Json) : Cmd unit :=
  let! st := get in set (with_nodes (applyNodeChanges changes (nodes st))).
Definition onEdgesChange (changes : list Json) : Cmd unit :=
  let! st := get in set (with_edges (applyEdgeChanges changes (edges st))).

(** *** The whole store

    [WorkflowStateValues] above holds the fields that the graph commands
    work on; the store with its other fields follows. *)

Record WorkflowStore := mkStore {
  values : WorkflowStateValues;
  workflowId : option string;
  toolboxConfiguration : option Json;
  yamlSchema : option (Json -> bool);
  isInitialized : bool;
  lastDeployedAt : option Z;
  saveRequestCount : Z;
  isSaving : bool;
  isLoading : bool;
  isDeployed : bool
}.

(** [defaultState], lines 282-308, in full. *)
Definition defaultStore : WorkflowStore :=
  mkStore defaultState None None None false None 0 false false false.

Definition with_values (v : WorkflowStateValues) (s : WorkflowStore) :=
  mkStore v (workflowId s) (toolboxConfiguration s) (yamlSchema s)
    (isInitialized s) (lastDeployedAt s) (saveRequestCount s) (isSaving s)
    (isLoading s) (isDeployed s).
Definition with_lastDeployedAt (v : option Z) (s : WorkflowStore) :=
  mkStore (values s) (workflowId s) (toolboxConfiguration s) (yamlSchema s)
    (isInitialized s) v (saveRequestCount s) (isSaving s) (isLoading s)
    (isDeployed s).
Definition with_saveRequestCount (v : Z) (s : WorkflowStore) :=
  mkStore (values s) (workflowId s) (toolboxConfiguration s) (yamlSchema s)
    (isInitialized s) (lastDeployedAt s) v (isSaving s) (isLoading s)
    (isDeployed s).
Definition with_isSaving (v : bool) (s : WorkflowStore) :=
  mkStore (values s) (workflowId s) (toolboxConfiguration s) (yamlSchema s)
    (isInitialized s) (lastDeployedAt s) (saveRequestCount s) v (isLoading s)
    (isDeployed s).
Definition with_isLoading (v : bool) (s : WorkflowStore) :=
  mkStore (values s) (workflowId s) (toolboxConfiguration s) (yamlSchema s)
    (isInitialized s) (lastDeployedAt s) (saveRequestCount s) (isSaving s) v
    (isDeployed s).
Definition with_providers (v : option (list Json)) (s : WorkflowStateValues) :=
  mkState (nodes s) (edges s) (selectedNode s) (v2Properties s) (editorOpen s)
    v (installedProviders s) (secrets s) (isLayouted s)
    (selectedEdge s) (changes s) (isEditorSyncedWithNodes s) (lastChangedAt s)
    (canDeploy s) (definition s) (validationErrors s).
Definition with_installedProviders (v : option (list Json))
    (s : WorkflowStateValues) :=
  mkState (nodes s) (edges s) (selectedNode s) (v2Properties s) (editorOpen s)
    (providers s) v (secrets s) (isLayouted s)
    (selectedEdge s) (changes s) (isEditorSyncedWithNodes s) (lastChangedAt s)
    (canDeploy s) (definition s) (validationErrors s).
Definition with_secrets (v : option (gmap string string))
    (s : WorkflowStateValues) :=
  mkState (nodes s) (edges s) (selectedNode s) (v2Properties s) (editorOpen s)
    (providers s) (installedProviders s) v (isLayouted s)
    (selectedEdge s) (changes s) (isEditorSyncedWithNodes s) (lastChangedAt s)
    (canDeploy s) (definition s) (validationErrors s).

(** What a call of the store can throw: an error of the graph commands,
    a plain [Error], or whatever [parseWorkflow] throws. *)
Inductive Failure :=
| StoreFailure (e : StoreError)
| PlainError (message : string)
| ParserFailure.

(** A call runs on the whole store. *)
Definition Call (A : Type) : Type :=
  WorkflowStore -> (A + Failure) * WorkflowStore.

Definition call_bind {A B} (c : Call A) (k : A -> Call B) : Call B :=
  fun s => match c s with
           | (inl a, s') => k a s'
           | (inr e, s') => (inr e, s')
           end.

(** A graph command, run on the store. *)
Definition on_values {A} (c : Cmd A) : Call A :=
  fun s => match c (values s) with
           | (Returned a, v) => (inl a, with_values v s)
           | (Thrown e, v) => (inr (StoreFailure e), with_values v s)
           end.

(** A [set] of the store. *)
Definition update (f : WorkflowStore -> WorkflowStore) : Call unit :=
  fun s => (inl tt, f s).

(** The setters of lines 314-322, 334 and 367-377. *)
Definition setDefinition (def : option DefinitionV2) : Call unit :=
  on_values (set (with_definition def)).
Definition setIsLoading (loading : bool) : Call unit :=
  update (with_isLoading loading).
Definition triggerSave : Call unit :=
  update (fun s => with_saveRequestCount (saveRequestCount s + 1) s).
Definition setIsSaving (state : bool) : Call unit :=
  update (with_isSaving state).
Definition setCanDeploy (deploy : bool) : Call unit :=
  on_values (set (with_canDeploy deploy)).
Definition setEditorSynced (sync : bool) : Call unit :=
  on_values (set (with_isEditorSyncedWithNodes sync)).
Definition setLastDeployedAt (deployedAt : option Z) : Call unit :=
  update (fun s => with_lastDeployedAt deployedAt
                     (with_values (with_changes 0 (values s)) s)).
Definition setIsLayouted (isLayouted : bool) : Call unit :=
  on_values (set (with_isLayouted isLayouted)).
Definition setInstalledProviders (installedProviders : list Json) : Call unit :=
  on_values (set (with_installedProviders (Some installedProviders))).
Definition setSecrets (secrets : gmap string string) : Call unit :=
  on_values (set (with_secrets (Some secrets))).
Definition setEditorOpen (open : bool) : Call unit :=
  on_values (set (with_editorOpen open)).
Definition setProviders (providers : list Json) : Call unit :=
  update (fun s =>
            mkStore (with_providers (Some providers) (values s)) (workflowId s)
              (Some (getToolboxConfiguration providers))
              (Some (getYamlWorkflowDefinitionSchema providers None))
              (isInitialized s) (lastDeployedAt s) (saveRequestCount s)
              (isSaving s) (isLoading s) (isDeployed s)).

(** [reset()], line 770. *)
Definition reset : Call unit := update (fun _ => defaultStore).

(** *** initializeWorkflow *)

(** The name of the step of the selected node, lines 842-845. *)
Definition selectedStepName (st : WorkflowStateValues) : option string :=
  match selectedNode st with
  | Some currentSelectedNode =>
      option_map (fun node => step_name (node_data node))
        (find (fun node => String.eqb (node_id node) currentSelectedNode)
           (nodes st))
  | None => None
  end.

(** Lines 859-878: [start], the trigger steps, the sequence, [end]. *)
Definition startStep : V2Step :=
  Leaf (mkStepData "start" "start" "start" "start" (Some ∅) (Some false) None
          None None None).
Definition endStep : V2Step :=
  Leaf (mkStepData "end" "end" "end" "end" (Some ∅) (Some false) None None None
          None).
Definition fullSequence (parsedWorkflow : WfDefinition) : list V2Step :=
  [startStep] ++ getTriggerSteps (def_properties parsedWorkflow)
  ++ def_sequence parsedWorkflow ++ [endStep].

(** Lines 881-886: the node that takes over the selection, found by the
    name of its step; every step of the model has a name, so no node is
    found for a missing one. *)
Definition rematchedSelection (isUpdatingExistingState : bool)
    (currentSelectedNode currentSelectedNodeStepName : option string)
    (ns : list FlowNode) : option string :=
  if isUpdatingExistingState
     && bool_decide (is_Some (truthyId currentSelectedNode))
  then
    match currentSelectedNodeStepName with
    | Some name =>
        option_map node_id
          (find (fun node => String.eqb (step_name (node_data node)) name) ns)
    | None => None
    end
  else None.

(** [{ ...properties, name }] with [name = properties.name], line 893:
    the key is written back with the value it was read with; a key that
    holds [undefined] reads as a key that is not there. *)
Definition withOwnName (properties : gmap string Json) : gmap string Json :=
  match properties !! "name"%string with
  | Some name => <["name"%string := name]> properties
  | None => properties
  end.

(** [!workflowId]. *)
Definition noWorkflowId (workflowId : option string) : bool :=
  negb (bool_decide (is_Some (truthyId workflowId))).

(** [initializeWorkflow(workflowId, { providers, installedProviders,
    secrets }, set, get)], lines 835-909. *)
Definition initializeWorkflow (workflowId0 : option string)
    (providers0 installedProviders0 : list Json)
    (secrets0 : gmap string string) : Call unit :=
  fun s =>
    let isUpdatingExistingState := bool_decide (workflowId s = workflowId0) in
    let currentSelectedNode := selectedNode (values s) in
    let currentSelectedNodeStepName := selectedStepName (values s) in
    match definition (values s) with
    | None =>
        (inr (PlainError "Definition should be set before initializing workflow"),
         s)
    | Some definition0 =>
        let s1 := with_isLoading true s in
        let parsedWorkflow := def_value definition0 in
        let '(ns, es) :=
          processWorkflowV2 (fullSequence parsedWorkflow) (mkPosition 0 50) true in
        let newSelectedNodeId :=
          rematchedSelection isUpdatingExistingState currentSelectedNode
            currentSelectedNodeStepName ns in
        let v :=
          with_lastChangedAt None
            (with_editorOpen
               (noWorkflowId workflowId0
                || (isUpdatingExistingState && editorOpen (values s1)))
               (with_secrets (Some secrets0)
                  (with_installedProviders (Some installedProviders0)
                     (with_providers (Some providers0)
                        (with_v2Properties
                           (withOwnName (def_properties parsedWorkflow))
                           (with_edges es
                              (with_nodes ns
                                 (with_isLayouted false
                                    (with_selectedNode newSelectedNodeId
                                       (values s1)))))))))) in
        let s2 :=
          mkStore v workflowId0 (Some (getToolboxConfiguration providers0))
            (Some (getYamlWorkflowDefinitionSchema providers0 (Some true)))
            true None (saveRequestCount s1) (isSaving s1) false
            (bool_decide (is_Some workflowId0)) in
        call_bind (on_values (onLayout layoutDown))
          (fun _ => on_values updateDefinition) s2
    end.

(** [updateFromYamlString(yamlString)], lines 400-434; [now] is the value
    of [Date.now()]. *)
Definition updateFromYamlString (yamlString : string) (now : Z) : Call unit :=
  fun s =>
    match parseWorkflowYamlStringToJSON yamlString with
    | None => (inl tt, s)
    | Some json =>
        if match yamlSchema s with
           | Some schema => schema json
           | None => true
           end
        then
          match parseWorkflow yamlString (default [] (providers (values s))) with
          | None => (inr ParserFailure, s)
          | Some parsed =>
              let s1 :=
                with_values
                  (with_definition (Some (wrapDefinitionV2 parsed true))
                     (values s)) s in
              let s2 :=
                with_values
                  (with_lastChangedAt (Some now)
                     (with_changes (changes (values s1) + 1) (values s1))) s1 in
              initializeWorkflow (workflowId s2)
                (default [] (providers (values s2)))
                (default [] (installedProviders (values s2)))
                (default ∅ (secrets (values s2))) s2
          end
        else (inl tt, s)
    end.

(** *** The calls of the store

    The calls that the model covers, each with its arguments; [uuid] and
    [now] are the values of [uuidv4()] and [Date.now()] in the call. *)
Inductive Action :=
| AddNodeBetween (nodeOrEdgeId : string) (step : Json) (type : AnchorKind)
    (uuid : string) (now : Z)
| AddNodeBetweenSafe (nodeOrEdgeId : string) (step : Json) (type : AnchorKind)
    (uuid : string) (now : Z)
| DeleteNodes (ids : DeleteArg) (now : Z)
| OnConnect (connection : Connection)
| SetSelectedEdge (id : string)
| SetSelectedNode (id : option string)
| UpdateV2Properties (properties : gmap string Json) (now : Z)
| UpdateDefinition
| OnLayout (params : LayoutParams)
| SetNodes (ns : list FlowNode)
| SetEdges (es : list Edge)
| OnNodesChange (changes : list Json)
| OnEdgesChange (changes : list Json)
| GetNextEdge (nodeId : string)
| SetDefinition (def : option DefinitionV2)
| SetIsLoading (loading : bool)
| TriggerSave
| SetIsSaving (state : bool)
| SetCanDeploy (deploy : bool)
| SetEditorSynced (sync : bool)
| SetLastDeployedAt (deployedAt : option Z)
| SetIsLayouted (isLayouted : bool)
| SetProviders (providers : list Json)
| SetInstalledProviders (installedProviders : list Json)
| SetSecrets (secrets : gmap string string)
| SetEditorOpen (open : bool)
| InitializeWorkflow (workflowId : option string)
    (providers installedProviders : list Json) (secrets : gmap string string)
| UpdateFromYamlString (yamlString : string) (now : Z)
| Reset.

(** The store after a call, whether the call returned or threw. *)
Definition after (a : Action) (s : WorkflowStore) : WorkflowStore :=
  match a with
  | AddNodeBetween nodeOrEdgeId step type uuid now =>
      snd (on_values (addNodeBetween_method nodeOrEdgeId step type uuid now) s)
  | AddNodeBetweenSafe nodeOrEdgeId step type uuid now =>
      snd (on_values (addNodeBetweenSafe nodeOrEdgeId step type uuid now) s)
  | DeleteNodes ids now => snd (on_values (deleteNodes ids now) s)
  | OnConnect connection => snd (on_values (onConnect connection) s)
  | SetSelectedEdge id => snd (on_values (setSelectedEdge id) s)
  | SetSelectedNode id => snd (on_values (setSelectedNode id) s)
  | UpdateV2Properties properties now =>
      snd (on_values (updateV2Properties properties now) s)
  | UpdateDefinition => snd (on_values updateDefinition s)
  | OnLayout params => snd (on_values (onLayout params) s)
  | SetNodes ns => snd (on_values (setNodes ns) s)
  | SetEdges es => snd (on_values (setEdges es) s)
  | OnNodesChange changes => snd (on_values (onNodesChange changes) s)
  | OnEdgesChange changes => snd (on_values (onEdgesChange changes) s)
  | GetNextEdge nodeId => snd (on_values (getNextEdge nodeId) s)
  | SetDefinition def => snd (setDefinition def s)
  | SetIsLoading loading => snd (setIsLoading loading s)
  | TriggerSave => snd (triggerSave s)
  | SetIsSaving state => snd (setIsSaving state s)
  | SetCanDeploy deploy => snd (setCanDeploy deploy s)
  | SetEditorSynced sync => snd (setEditorSynced sync s)
  | SetLastDeployedAt deployedAt => snd (setLastDeployedAt deployedAt s)
  | SetIsLayouted isLayouted => snd (setIsLayouted isLayouted s)
  | SetProviders providers => snd (setProviders providers s)
  | SetInstalledProviders installedProviders =>
      snd (setInstalledProviders installedProviders s)
  | SetSecrets secrets => snd (setSecrets secrets s)
  | SetEditorOpen open => snd (setEditorOpen open s)
  | InitializeWorkflow workflowId providers installedProviders secrets =>
      snd (initializeWorkflow workflowId providers installedProviders secrets s)
  | UpdateFromYamlString yamlString now =>
      snd (updateFromYamlString yamlString now s)
  | Reset => snd (reset s)
  end.

(** The stores that the calls reach from the default store. *)
Inductive reachable : WorkflowStore -> Prop :=
| reachable_default : reachable defaultStore
| reachable_after a s : reachable s -> reachable (after a s).

End StoreMore.

(** At most one of a node and an edge is selected. *)
Definition exclusiveSelection (st : WorkflowStateValues) : Prop :=
  selectedNode st = None \/ selectedEdge st = None.

(** The finding that was filed last under a key. *)
Definition lastFiled (key : string) (l : list (string * ValidationError))
  : option ValidationError :=
  snd <$> find (fun f => String.eqb (fst f) key) (rev l).

(** The state of the validation loop after the findings [l] are filed. *)
Definition file (acc : Findings) (l : list (string * ValidationError))
  : Findings :=
  (fst acc && match l with [] => true | _ :: _ => false end,
   fold_left (fun ve '(key, finding) => assign key finding ve) l (snd acc)).

(** From [st] to [st'] the selection stays exclusive and the count of
    changes stays or goes up by one. *)
Definition bumps (st st' : WorkflowStateValues) : Prop :=
  (exclusiveSelection st -> exclusiveSelection st')
  /\ (changes st' = changes st \/ changes st' = changes st + 1).

(** What every call keeps of the store. *)
Definition wellKept (s : WorkflowStore) : Prop :=
  exclusiveSelection (values s)
  /\ 0 <= changes (values s)
  /\ 0 <= saveRequestCount s
  /\ isDeployed s = bool_decide (is_Some (workflowId s)).

(** The properties map after the insert of [newStep] under [newNodeId],
    lines 241-270: a trigger kind writes its own key, nothing else does. *)
Definition seededProperties (newNodeId : string) (newStep : V2Step)
    (properties : gmap string Json) : gmap string Json :=
  if String.eqb newNodeId "interval" || String.eqb newNodeId "manual" then
    <[newNodeId := seedProperty newStep newNodeId (JStr "")]> properties
  else if String.eqb newNodeId "alert" || String.eqb newNodeId "incident" then
    <[newNodeId := seedProperty newStep newNodeId (JObj [])]> properties
  else properties.

(** The nested flag that the new nodes take, lines 224-226: that of the
    target node or of the source node. *)
Definition inheritedNested (ns : list FlowNode) (sourceId : string)
    (targetIndex : nat) : bool :=
  match ns !! targetIndex with
  | Some n => node_isNested n
  | None => false
  end
  || match findIndex (fun node => String.eqb (node_id node) sourceId) ns with
     | Some i => match ns !! i with
                 | Some n => node_isNested n
                 | None => false
                 end
     | None => false
     end.

(** A node that is not in any range of its own and closes the node list:
    the store of [linearDefinition] with a dropped node behind [end]. *)
Definition droppedStore : WorkflowStateValues :=
  with_nodes
    (nodes (storeOf linearDefinition)
     ++ [mkFlowNode "dropped" (mkPosition 10 10) (taskData "dropped" "dropped")
           (Some true) None false])
    (storeOf linearDefinition).

(** A switch with one edge out of it. *)
Definition loneSwitchStore : WorkflowStateValues :=
  with_edges [edgeBetween "start" "check" None; edgeBetween "check" "end" None]
    (with_nodes [nodeFor origin false (sentinel "start");
                 nodeFor origin false (switchData "check");
                 nodeFor origin false (sentinel "end")] defaultState).

(** Modelled from the spec: the collaborators of the rest of the store,
    missing with features/workflows/builder, utils/reactFlow and
    entities/workflows/lib, which the specification keeps outside its core
    (section 1) and gives no contract; each stands here as a simple
    function of its type, so that the calls can be run: every edge but
    those out of [start] can have an add button, the trigger steps are the
    configured triggers of section 4.1, a YAML string that is not empty
    parses, to [linearDefinition], and the schema accepts objects. *)
Definition referenceBuilder : BuilderCollaborators := {|
  edgeCanHaveAddButton := fun source target => negb (String.eqb source "start");
  getToolboxConfiguration := fun providers => JArr providers;
  getYamlWorkflowDefinitionSchema := fun providers partial json =>
    match json with JObj _ => true | _ => false end;
  getTriggerSteps := fun properties => map Leaf (configuredTriggers properties);
  parseWorkflowYamlStringToJSON := fun yamlString =>
    if nonempty yamlString then Some (JObj [("workflow"%string, JStr yamlString)])
    else None;
  parseWorkflow := fun yamlString providers => Some linearDefinition;
  applyNodeChanges := fun changes ns => ns;
  applyEdgeChanges := fun changes es => es
|}.

(** The store of [linearDefinition] after the insert of an alert trigger
    in front of the manual one, after the insert of a Slack action in
    front of [end] through the store method, and after the deletion of
    [send-slack]. *)
Definition alertedStore : WorkflowStateValues :=
  snd (@addNodeBetween referenceCollaborators "manual" alertTrigger AnchorNode
         "u1" 5 (storeOf linearDefinition)).

Definition insertedStore : WorkflowStateValues :=
  snd (@addNodeBetween_method referenceCollaborators "end" slackTemplate
         AnchorNode "u1" 5 (storeOf linearDefinition)).

Definition deletedStore : WorkflowStateValues :=
  snd (@deleteNodes referenceCollaborators (IdString "send-slack") 7
         (storeOf linearDefinition)).

(** The default store with the definition [linearDefinition] set. *)
Definition definedStore : WorkflowStore :=
  with_values
    (with_definition (Some (mkDefinitionV2 linearDefinition true)) defaultState)
    defaultStore.

(** The default store after one change of the properties. *)
Definition changedStore : WorkflowStore :=
  @after referenceCollaborators referenceBuilder (UpdateV2Properties ∅ 5)
    defaultStore.

(** * Properties *)

(** ** Commands that read, commands that return *)

Section Commands.
Context `{Collaborators}.

Lemma foreseen_store message : foreseen (KeepWorkflowStoreError message).
Proof. right. exists message. reflexivity. Qed.

Lemma foreseen_zod : foreseen ZodError.
Proof. left. reflexivity. Qed.

Lemma foreseen_anchorNotFound nodeOrEdgeId type :
  foreseen (anchorNotFound nodeOrEdgeId type).
Proof. destruct type; apply foreseen_store. Qed.

Lemma readonly_ret {A} (a : A) : readonly (ret a).
Proof. intros st. split; [reflexivity | discriminate]. Qed.

Lemma readonly_throw {A} (e : StoreError) : foreseen e -> readonly (@throw A e).
Proof. intros He st. split; [reflexivity |]. intros e' [= <-]. exact He. Qed.

Lemma readonly_get : readonly get.
Proof. intros st. split; [reflexivity | discriminate]. Qed.

Lemma readonly_throw_if (c : bool) (e : StoreError) :
  foreseen e -> readonly (throw_if c e).
Proof.
  intros He. destruct c; [apply readonly_throw, He | apply readonly_ret].
Qed.

Lemma readonly_option {A} (o : option A) (e : StoreError) :
  foreseen e -> readonly (match o with Some a => ret a | None => throw e end).
Proof.
  intros He. destruct o; [apply readonly_ret | apply readonly_throw, He].
Qed.

Lemma clean_total {A} (c : Cmd A) : total c -> clean c.
Proof.
  intros Hc st e st' Hrun. destruct (Hc st) as [a Ha].
  rewrite Hrun in Ha. discriminate Ha.
Qed.

(** A throw behind a command that only reads is as clean as the rest. *)
Lemma clean_bind {A B} (c : Cmd A) (k : A -> Cmd B) :
  readonly c -> (forall a, clean (k a)) -> clean (bind c k).
Proof.
  intros Hc Hk st e st' Hrun. unfold bind in Hrun.
  destruct (Hc st) as [Hstore Herror].
  destruct (c st) as [[a | e0] st1]; simpl in Hstore; subst st1.
  - eapply Hk. exact Hrun.
  - injection Hrun as <- <-. split; [reflexivity |]. apply Herror. reflexivity.
Qed.

Lemma total_ret {A} (a : A) : total (ret a).
Proof. intros st. exists a. reflexivity. Qed.

Lemma total_get : total get.
Proof. intros st. exists st. reflexivity. Qed.

Lemma total_set f : total (set f).
Proof. intros st. exists tt. reflexivity. Qed.

Lemma total_bind {A B} (c : Cmd A) (k : A -> Cmd B) :
  total c -> (forall a, total (k a)) -> total (bind c k).
Proof.
  intros Hc Hk st. unfold bind. destruct (Hc st) as [a Ha].
  destruct (c st) as [[a' | e] st1]; simpl in Ha; [| discriminate Ha].
  apply Hk.
Qed.

Lemma total_onLayout params : total (onLayout params).
Proof.
  unfold onLayout. apply total_bind; [apply total_get |]. intros st.
  destruct (layoutInput params st) as [ns es].
  destruct (layoutedElements ns es (direction params)).
  apply total_set.
Qed.

Lemma total_updateDefinition : total updateDefinition.
Proof.
  unfold updateDefinition. apply total_bind; [apply total_get |]. intros st.
  destruct (reConstructWorklowToDefinition _ _ _). apply total_set.
Qed.

Lemma total_seedTriggerProperties newNodeId newStep :
  total (seedTriggerProperties newNodeId newStep).
Proof.
  unfold seedTriggerProperties.
  repeat match goal with |- context [if ?b then _ else _] => destruct b end;
    first [apply total_set | apply total_ret].
Qed.

(** [rejects] through the steps of a command. *)
Lemma rejects_throw {A} message st :
  rejects (@throw A (KeepWorkflowStoreError message)) st.
Proof. exists message. reflexivity. Qed.

Lemma rejects_bind_throw_if {B} (c : bool) message (k : unit -> Cmd B) st :
  (c = false -> rejects (k tt) st) ->
  rejects (bind (throw_if c (KeepWorkflowStoreError message)) k) st.
Proof.
  intros Hk. destruct c.
  - exists message. reflexivity.
  - apply Hk. reflexivity.
Qed.

Lemma rejects_bind_get {B} (k : WorkflowStateValues -> Cmd B) st :
  rejects (k st) st -> rejects (bind get k) st.
Proof. intros Hk. exact Hk. Qed.

Lemma rejects_bind_ret {A B} (a : A) (k : A -> Cmd B) st :
  rejects (k a) st -> rejects (bind (ret a) k) st.
Proof. intros Hk. exact Hk. Qed.

End Commands.

Create HintDb cmd.
#[local] Hint Resolve foreseen_store foreseen_zod foreseen_anchorNotFound
  readonly_ret readonly_throw readonly_get readonly_throw_if readonly_option
  : cmd.
#[local] Hint Resolve total_ret total_get total_set total_onLayout
  total_updateDefinition total_seedTriggerProperties : cmd.

(** One step of a proof that a command is [clean]: a reading prefix, a pair
    to open, or a tail that cannot throw. *)
Ltac clean_step :=
  match goal with
  | |- clean (bind _ _) => apply clean_bind; [solve [auto with cmd] | intros ?]
  | |- clean (let '(_, _) := ?p in _) => destruct p
  end.

Ltac total_tail :=
  apply clean_total;
  repeat (apply total_bind; [solve [auto with cmd] | intros ?]);
  auto with cmd.

Ltac reject_step :=
  lazymatch goal with
  | |- rejects (bind (throw_if _ _) _) _ => apply rejects_bind_throw_if; intros ?
  | |- rejects (bind get _) _ => apply rejects_bind_get
  | |- rejects (bind (ret _) _) _ => apply rejects_bind_ret
  end.

(** ** The insert command *)

Section Insert.
Context `{Collaborators}.

Lemma clean_insertOnEdge isTriggerComponent step edge sourceId targetId uuid now :
  clean (insertOnEdge isTriggerComponent step edge sourceId targetId uuid now).
Proof.
  unfold insertOnEdge.
  repeat clean_step.
  total_tail.
Qed.

Lemma clean_addNodeBetween nodeOrEdgeId rawStep type uuid now :
  clean (addNodeBetween nodeOrEdgeId rawStep type uuid now).
Proof.
  unfold addNodeBetween.
  repeat clean_step.
  apply clean_insertOnEdge.
Qed.

(** C1: a call of [addNodeBetween] that throws throws the [ZodError] of the
    schema or the store's own error, from the anchor, the legality checks
    or the duplicate-trigger check, and has not touched the store: the
    node list, the edge list and the properties map are what they were
    before. *)
Theorem addNodeBetween_throws_before_any_change
    nodeOrEdgeId rawStep type uuid now st e :
  fst (addNodeBetween nodeOrEdgeId rawStep type uuid now st) = Thrown e ->
  (e = ZodError \/ exists message, e = KeepWorkflowStoreError message)
  /\ snd (addNodeBetween nodeOrEdgeId rawStep type uuid now st) = st
  /\ nodes (snd (addNodeBetween nodeOrEdgeId rawStep type uuid now st)) = nodes st
  /\ edges (snd (addNodeBetween nodeOrEdgeId rawStep type uuid now st)) = edges st
  /\ v2Properties (snd (addNodeBetween nodeOrEdgeId rawStep type uuid now st))
     = v2Properties st.
Proof.
  intros Hthrow.
  destruct (addNodeBetween nodeOrEdgeId rawStep type uuid now st)
    as [out st'] eqn:Hrun.
  simpl in Hthrow. subst out. simpl.
  apply clean_addNodeBetween in Hrun as [-> Hforeseen].
  split; [exact Hforeseen |]. repeat split.
Qed.

(** The store method fails as cleanly as the function under it. *)
Lemma clean_addNodeBetween_method nodeOrEdgeId rawStep type uuid now :
  clean (addNodeBetween_method nodeOrEdgeId rawStep type uuid now).
Proof.
  unfold addNodeBetween_method. intros st e st' Hrun. unfold bind in Hrun.
  destruct (addNodeBetween nodeOrEdgeId rawStep type uuid now st)
    as [[newNodeId | e0] st1] eqn:Hinner.
  - discriminate Hrun.
  - injection Hrun as <- <-. apply clean_addNodeBetween in Hinner. exact Hinner.
Qed.

Lemma rejects_anchorNotFound {A} nodeOrEdgeId type st :
  rejects (@throw A (anchorNotFound nodeOrEdgeId type)) st.
Proof. destruct type; apply rejects_throw. Qed.

(** A trigger whose id is taken is rejected by [insertOnEdge]. *)
Lemma insertOnEdge_duplicate_trigger step edge sourceId targetId uuid now st :
  existsb (fun node => String.eqb (step_id (data step)) (node_id node)) (nodes st)
  = true ->
  rejects (insertOnEdge true step edge sourceId targetId uuid now) st.
Proof.
  intros Hdup. unfold insertOnEdge.
  do 10 reject_step.
  rewrite Hdup in *. discriminate.
Qed.

(** C4: in a graph that holds a trigger node of some kind (triggers are
    named by their kind: the node id is the id of the trigger step),
    the insert of another trigger step of that kind throws the store's
    error and leaves the store as it was. *)
Theorem duplicate_trigger_is_rejected
    nodeOrEdgeId rawStep type uuid now st step :
  isTriggerPayload rawStep = true ->
  V2StepTriggerSchema_parse rawStep = Some step ->
  (exists node, In node (nodes st) /\ node_id node = step_id (data step)) ->
  exists message,
    addNodeBetween nodeOrEdgeId rawStep type uuid now st
    = (Thrown (KeepWorkflowStoreError message), st).
Proof.
  intros Htrigger Hparse (node & Hin & Hid).
  change (rejects (addNodeBetween nodeOrEdgeId rawStep type uuid now) st).
  unfold addNodeBetween. do 2 reject_step.
  rewrite Htrigger, Hparse. do 2 reject_step.
  destruct (findAnchorEdge nodeOrEdgeId type (edges st)) as [edge |];
    [| apply rejects_anchorNotFound].
  reject_step. destruct (insertionEndpoints edge) as [sourceId targetId].
  apply insertOnEdge_duplicate_trigger.
  apply existsb_exists. exists node. split; [exact Hin |].
  rewrite Hid. apply String.eqb_refl.
Qed.

End Insert.

(** The witnesses run the reference collaborators on the store of
    [linearDefinition]. *)

Lemma addNodeBetween_throws_before_any_change_witness :
  fst (@addNodeBetween referenceCollaborators "manual" manualTrigger AnchorNode
         "u1" 5 (storeOf linearDefinition))
  = Thrown (KeepWorkflowStoreError
              "Trigger of type manual is already in the workflow")
  /\ snd (@addNodeBetween referenceCollaborators "manual" manualTrigger
            AnchorNode "u1" 5 (storeOf linearDefinition))
     = storeOf linearDefinition.
Proof.
  split; [vm_compute; reflexivity |].
  apply (@addNodeBetween_throws_before_any_change referenceCollaborators
           "manual" manualTrigger AnchorNode "u1" 5 (storeOf linearDefinition)
           (KeepWorkflowStoreError
              "Trigger of type manual is already in the workflow")).
  vm_compute; reflexivity.
Defined.

Lemma duplicate_trigger_is_rejected_witness :
  exists message,
    @addNodeBetween referenceCollaborators "manual" manualTrigger AnchorNode
      "u1" 5 (storeOf linearDefinition)
    = (Thrown (KeepWorkflowStoreError message), storeOf linearDefinition).
Proof.
  apply (@duplicate_trigger_is_rejected referenceCollaborators "manual"
           manualTrigger AnchorNode "u1" 5 (storeOf linearDefinition)
           manualStep).
  - vm_compute; reflexivity.
  - vm_compute; reflexivity.
  - exists (nodeFor origin false (triggerData "manual" (JStr "true"))).
    split; [vm_compute; tauto | reflexivity].
Defined.

(** ** Lists and strings *)

Section Lists.
Context {A : Type}.

Lemma findEntry_Some (p : A -> bool) (l : list A) i a :
  findEntry p l = Some (i, a) -> l !! i = Some a /\ p a = true.
Proof.
  revert i. induction l as [| x l IH]; intros i Hfind; simpl in Hfind.
  - discriminate Hfind.
  - destruct (p x) eqn:Hp.
    + injection Hfind as <- <-. split; [reflexivity | exact Hp].
    + destruct (findEntry p l) as [[i' a'] |]; simpl in Hfind;
        [| discriminate Hfind].
      injection Hfind as <- <-. apply IH. reflexivity.
Qed.

Lemma findEntry_None (p : A -> bool) (l : list A) :
  findEntry p l = None <-> forall a, In a l -> p a = false.
Proof.
  induction l as [| x l IH]; simpl.
  - split; [intros _ a [] | reflexivity].
  - destruct (p x) eqn:Hp.
    + split; [discriminate |]. intros Hall.
      rewrite (Hall x) in Hp by (left; reflexivity). discriminate Hp.
    + destruct (findEntry p l) as [[i a] |]; simpl.
      * split; [discriminate |]. intros Hall.
        assert (Hnone : Some (i, a) = None); [| discriminate Hnone].
        apply IH. intros b Hb. apply Hall. right. exact Hb.
      * split; [| reflexivity]. intros _ a [<- | Ha]; [exact Hp |].
        apply (proj1 IH); [reflexivity | exact Ha].
Qed.

End Lists.

Lemma includes_id_true (l : list string) (s : string) :
  includes_id l s = true <-> In s l.
Proof.
  unfold includes_id. rewrite existsb_exists. split.
  - intros (x & Hin & Heq). apply String.eqb_eq in Heq. subst x. exact Hin.
  - intros Hin. exists s. split; [exact Hin | apply String.eqb_refl].
Qed.

Lemma includes_id_false (l : list string) (s : string) :
  includes_id l s = false <-> ~ In s l.
Proof.
  rewrite <- includes_id_true. destruct (includes_id l s); split;
    congruence.
Qed.

Lemma prefix_append (needle post : string) :
  String.prefix needle (needle +:+ post) = true.
Proof.
  induction needle as [| c needle IH]; simpl.
  - destruct post; reflexivity.
  - destruct (Ascii.ascii_dec c c) as [_ | Hne]; [exact IH | congruence].
Qed.

Lemma prefix_split (needle hay : string) :
  String.prefix needle hay = true -> exists post, hay = needle +:+ post.
Proof.
  revert hay. induction needle as [| c needle IH]; intros hay Hprefix.
  - exists hay. reflexivity.
  - destruct hay as [| c' hay]; simpl in Hprefix; [discriminate Hprefix |].
    destruct (Ascii.ascii_dec c c') as [<- | _]; [| discriminate Hprefix].
    destruct (IH hay Hprefix) as [post ->]. exists post. reflexivity.
Qed.

(** [includes] is containment: the needle occurs somewhere in the string. *)
Lemma includes_spec (needle hay : string) :
  includes needle hay = true
  <-> exists pre post, hay = pre +:+ needle +:+ post.
Proof.
  split.
  - induction hay as [| c hay IH]; cbn [includes].
    + destruct (String.prefix needle "") eqn:Hprefix;
        [| intros Hfalse; discriminate Hfalse].
      intros _. apply prefix_split in Hprefix as [post Hpost].
      exists ""%string, post. exact Hpost.
    + destruct (String.prefix needle (String c hay)) eqn:Hprefix.
      * intros _. apply prefix_split in Hprefix as [post Hpost].
        exists ""%string, post. exact Hpost.
      * intros Hrest. destruct (IH Hrest) as (pre & post & ->).
        exists (String c pre), post. reflexivity.
  - intros (pre & post & ->). induction pre as [| c pre IH].
    + change ("" +:+ needle +:+ post) with (needle +:+ post).
      destruct (needle +:+ post) eqn:Heq; cbn [includes];
        rewrite <- Heq, prefix_append; reflexivity.
    + change (String c pre +:+ needle +:+ post)
        with (String c (pre +:+ needle +:+ post)).
      cbn [includes]. rewrite IH.
      destruct (String.prefix needle (String c (pre +:+ needle +:+ post)));
        reflexivity.
Qed.

(** ** deleteNodes *)

Section Delete.
Context `{Collaborators}.

(** C2: [deleteNodes] on one of the four protected ids throws the store's
    error and leaves the whole store, so its nodes, edges and properties,
    as it was. *)
Theorem deleteNodes_protected ids now st :
  In ids PROTECTED_NODE_IDS ->
  deleteNodes (IdString ids) now st
  = (Thrown (KeepWorkflowStoreError "Cannot delete protected node"), st).
Proof.
  intros Hin. apply includes_id_true in Hin.
  unfold deleteNodes, bind. rewrite Hin. reflexivity.
Qed.

(** C10: [deleteNodes] on an argument that is not a string, or on an id
    that is not protected and names no node, returns the empty list, does
    not throw, and leaves the store as it was. *)
Theorem deleteNodes_missing_target now st :
  (forall ids, deleteNodes (IdArray ids) now st = (Returned [], st))
  /\ (forall ids,
        ~ In ids PROTECTED_NODE_IDS ->
        (forall node, In node (nodes st) -> node_id node <> ids) ->
        deleteNodes (IdString ids) now st = (Returned [], st)).
Proof.
  split; [reflexivity |].
  intros ids Hfree Hmissing. apply includes_id_false in Hfree.
  unfold deleteNodes, bind. rewrite Hfree. simpl.
  assert (Hnone : findEntry (fun node => String.eqb ids (node_id node)) (nodes st)
                  = None).
  { apply findEntry_None. intros node Hin. apply String.eqb_neq.
    intros ->. exact (Hmissing node Hin eq_refl). }
  rewrite Hnone. reflexivity.
Qed.

Lemma onLayout_down_run st :
  onLayout layoutDown st
  = (Returned tt,
     with_isLayouted true
       (with_edges (snd (layoutedElements (nodes st) (edges st) "DOWN"))
          (with_nodes (fst (layoutedElements (nodes st) (edges st) "DOWN")) st))).
Proof.
  unfold onLayout, bind, get, layoutInput. simpl.
  destruct (layoutedElements (nodes st) (edges st) "DOWN"). reflexivity.
Qed.

Lemma updateDefinition_run st :
  exists st',
    updateDefinition st = (Returned tt, st')
    /\ nodes st' = nodes st /\ edges st' = edges st
    /\ v2Properties st' = v2Properties st.
Proof.
  unfold updateDefinition, bind, get.
  destruct (reConstructWorklowToDefinition _ _ _) as [sequence newProperties].
  eexists. split; [reflexivity |]. repeat split.
Qed.

(** No derived end-boundary id is the id [trigger_start]. *)
Lemma customIdentifier_not_trigger_start node :
  customIdentifier node <> "trigger_start"%string.
Proof.
  intros Heq.
  assert (Hin : includes "__end__" (customIdentifier node) = true).
  { apply includes_spec.
    exists (step_type (node_data node)), (node_id node). reflexivity. }
  rewrite Heq in Hin. vm_compute in Hin. discriminate Hin.
Qed.

(** The end of the range: the start node itself, or a later node that
    carries the derived id. *)
Lemma rangeEnd_cases ns i startNode j endNode :
  ns !! i = Some startNode ->
  rangeEnd ns i startNode = (j, endNode) ->
  ns !! j = Some endNode
  /\ ((j = i /\ endNode = startNode
       /\ forall node, In node ns -> node_id node <> customIdentifier startNode)
      \/ node_id endNode = customIdentifier startNode).
Proof.
  intros Hstart. unfold rangeEnd.
  destruct (findEntry _ ns) as [[j' n'] |] eqn:Hfind; simpl; intros [= <- <-].
  - apply findEntry_Some in Hfind as [Hlookup Hid]. split; [exact Hlookup |].
    right. apply String.eqb_eq. exact Hid.
  - split; [exact Hstart |]. left. repeat split.
    intros node Hin Heq. rewrite findEntry_None in Hfind.
    specialize (Hfind node Hin). apply String.eqb_neq in Hfind. auto.
Qed.

Lemma in_outsideRange range es e :
  In e (outsideRange range es)
  <-> In e es /\ ~ In (edge_source e) range /\ ~ In (edge_target e) range.
Proof.
  unfold outsideRange. rewrite filter_In, negb_true_iff, orb_false_iff.
  rewrite !includes_id_false. tauto.
Qed.

(** The new edges join every edge into the start of the range with every
    edge out of its end, when the end is not [trigger_start]. *)
Lemma in_reconnections startNode endNode es e :
  node_id endNode <> "trigger_start"%string ->
  In e (reconnections startNode endNode es)
  <-> exists p s,
        In p es /\ edge_target p = node_id startNode
        /\ In s es /\ edge_source s = node_id endNode
        /\ In e (createCustomEdgeMeta (edge_source p) (edge_target s)
                   (edge_label p)).
Proof.
  intros Hend. unfold reconnections. rewrite in_concat. split.
  - intros (group & Hgroup & He). apply in_map_iff in Hgroup as (s & <- & Hs).
    apply filter_In in Hs as [Hs Hsource]. apply String.eqb_eq in Hsource.
    apply in_concat in He as (made & Hmade & He).
    apply in_map_iff in Hmade as (p & <- & Hp).
    apply filter_In in Hp as [Hp Htarget]. apply String.eqb_eq in Htarget.
    exists p, s. repeat split; try assumption; try congruence.
    destruct (String.eqb_spec (edge_source s) "trigger_start") as [Hts | _];
      [congruence | exact He].
  - intros (p & s & Hp & Htarget & Hs & Hsource & He).
    eexists. split.
    + apply in_map_iff. exists s. split; [reflexivity |].
      apply filter_In. split; [exact Hs |]. apply String.eqb_eq. congruence.
    + apply in_concat. eexists. split.
      * apply in_map_iff. exists p. split; [reflexivity |].
        apply filter_In. split; [exact Hp |]. apply String.eqb_eq. congruence.
      * destruct (String.eqb_spec (edge_source s) "trigger_start") as [Hts | _];
          [congruence | exact He].
Qed.

(** With its outgoing edges gone, the end of the range has no successor
    left to reconnect. *)
Lemma reconnections_sibling startNode endNode range es :
  In (node_id endNode) range ->
  reconnections startNode endNode
    (List.filter (fun edge => negb (includes_id range (edge_source edge))) es)
  = [].
Proof.
  intros Hin. unfold reconnections.
  assert (Hnone :
    List.filter
      (fun edge => String.eqb (node_id endNode) (edge_source edge))
      (List.filter (fun edge => negb (includes_id range (edge_source edge))) es)
    = []).
  { induction es as [| e es IH]; simpl; [reflexivity |].
    destruct (includes_id range (edge_source e)) eqn:Hrange; simpl;
      [exact IH |].
    destruct (String.eqb_spec (node_id endNode) (edge_source e)) as [Heq | _];
      [| exact IH].
    apply includes_id_false in Hrange. rewrite <- Heq in Hrange.
    contradiction. }
  rewrite Hnone. reflexivity.
Qed.

Lemma in_rangeIds (ns : list FlowNode) i j node :
  (i <= j)%nat -> ns !! j = Some node ->
  In (node_id node) (rangeIds ns i j).
Proof.
  intros Hle Hlookup. unfold rangeIds, slice. apply in_map.
  apply list_elem_of_In. apply list_elem_of_lookup. exists (j - i)%nat.
  rewrite lookup_take_lt by lia. rewrite lookup_drop.
  replace (i + (j - i))%nat with j by lia. exact Hlookup.
Qed.

Lemma rangeIds_single (ns : list FlowNode) i node :
  ns !! i = Some node -> rangeIds ns i i = [node_id node].
Proof.
  intros Hlookup. unfold rangeIds, slice.
  replace (i + 1 - i)%nat with 1%nat by lia.
  destruct (drop i ns) as [| x rest] eqn:Hdrop.
  - pose proof (lookup_drop ns i 0) as Hd. rewrite Hdrop in Hd.
    rewrite Nat.add_0_r, Hlookup in Hd. discriminate Hd.
  - pose proof (lookup_drop ns i 0) as Hd. rewrite Hdrop in Hd.
    rewrite Nat.add_0_r, Hlookup in Hd. injection Hd as ->.
    destruct rest; reflexivity.
Qed.

(** The tail of a structural command: the commit, the layout pass and the
    new definition. *)
Lemma commit_tail {A} (f : WorkflowStateValues -> WorkflowStateValues) (a : A) st :
  exists st',
    (run! set f in run! onLayout layoutDown in run! updateDefinition in ret a) st
    = (Returned a, st')
    /\ (nodes st', edges st')
       = layoutedElements (nodes (f st)) (edges (f st)) "DOWN"
    /\ v2Properties st' = v2Properties (f st).
Proof.
  unfold bind at 1. unfold set at 1. unfold bind at 1.
  rewrite onLayout_down_run. unfold bind at 1.
  destruct (updateDefinition_run
              (with_isLayouted true
                 (with_edges
                    (snd (layoutedElements (nodes (f st)) (edges (f st)) "DOWN"))
                    (with_nodes
                       (fst (layoutedElements (nodes (f st)) (edges (f st)) "DOWN"))
                       (f st)))))
    as (st' & Hupdate & Hnodes & Hedges & Hprops).
  exists st'. rewrite Hupdate. split; [reflexivity |].
  rewrite Hnodes, Hedges, Hprops. simpl. rewrite <- surjective_pairing.
  split; reflexivity.
Qed.

Lemma deleteNodes_run ids now st i startNode next :
  ~ In ids PROTECTED_NODE_IDS ->
  findEntry (fun node => String.eqb ids (node_id node)) (nodes st)
  = Some (i, startNode) ->
  nodes st !! (fst (rangeEnd (nodes st) i startNode) + 1)%nat = Some next ->
  exists st',
    deleteNodes (IdString ids) now st = (Returned [ids], st')
    /\ (nodes st', edges st')
       = layoutedElements (deleteNewNodes (nodes st) i startNode next)
           (deleteFinalEdges ids (nodes st) (edges st) i startNode) "DOWN"
    /\ v2Properties st'
       = (if includes_id TRIGGER_IDS ids then delete ids (v2Properties st)
          else v2Properties st).
Proof.
  intros Hfree Hfind Hnext. apply includes_id_false in Hfree.
  unfold deleteNodes. unfold bind at 1. rewrite Hfree. simpl throw_if.
  unfold ret at 1. unfold bind at 1. unfold get at 1.
  rewrite Hfind, Hnext. unfold bind at 1. unfold ret at 1.
  unfold bind at 1.
  destruct (includes_id TRIGGER_IDS ids); simpl.
  - edestruct (@commit_tail (list string)) as (st' & Hrun & Hgraph & Hprops).
    exists st'. split; [exact Hrun |]. split; [exact Hgraph | exact Hprops].
  - edestruct (@commit_tail (list string)) as (st' & Hrun & Hgraph & Hprops).
    exists st'. split; [exact Hrun |]. split; [exact Hgraph | exact Hprops].
Qed.

Lemma in_rangeIds_iff (ns : list FlowNode) i j id :
  In id (rangeIds ns i j)
  <-> exists k node,
        (i <= k <= j)%nat /\ ns !! k = Some node /\ node_id node = id.
Proof.
  unfold rangeIds, slice. rewrite in_map_iff. split.
  - intros (node & Hid & Hin). apply list_elem_of_In in Hin.
    apply list_elem_of_lookup in Hin as [idx Hidx].
    apply lookup_take_Some in Hidx as [Hidx Hlt].
    rewrite lookup_drop in Hidx.
    exists (i + idx)%nat, node. split; [lia |]. split; assumption.
  - intros (k & node & Hk & Hlookup & Hid). exists node. split; [exact Hid |].
    apply list_elem_of_In. apply list_elem_of_lookup. exists (k - i)%nat.
    apply lookup_take_Some. split; [| lia].
    rewrite lookup_drop. replace (i + (k - i))%nat with k by lia. exact Hlookup.
Qed.

Lemma deleteNewNodes_explicit (ns : list FlowNode) i startNode j endNode next :
  rangeEnd ns i startNode = (j, endNode) ->
  deleteNewNodes ns i startNode next
  = take i (<[(j + 1)%nat := set_node_position (mkPosition 0 0) next]> ns)
    ++ createDefaultNodeV2 (set_islayouted (Some false) (node_data next))
         (node_id next)
    :: drop (j + 2) ns.
Proof.
  intros Hend. unfold deleteNewNodes, slice. rewrite Hend. simpl fst.
  rewrite Nat.sub_0_r. change (drop 0 ?l) with l.
  rewrite drop_insert_lt by lia. reflexivity.
Qed.

(** C3, as the code has it: for a node that is not protected and is in
    the graph, at index [i] of the node list, let [j] be the index of the
    first node that carries the derived id [<type>__end__<id>], or [i]
    when no node carries it, and let a node [next] follow index [j].
    [deleteNodes] returns the id.  Its range is the nodes at the indices
    from [i] to [j]: the single node when no node carries the derived id,
    no node when the node that carries it stands before the target.  The
    edges kept are those with no end in the range.  Every edge into the
    target is joined with every edge out of the node at [j] by the edges
    of [createCustomEdgeMeta], from the source of the one to the target of
    the other under the label of the predecessor edge; only for a range
    that is not empty and a target that is a trigger kind beside another
    successor of [trigger_start] nothing is added.  No placeholder is put
    in: the node list handed to the layout is the nodes in front of index
    [i], with [next] moved to the origin if it is among them, then [next]
    rebuilt by [createDefaultNodeV2], then the nodes behind [next]; so
    with the derived id in front of the target no node goes.  A trigger
    kind loses its entry in the properties map. *)
Theorem deleteNodes_range_effect ids now st i startNode j endNode next :
  ~ In ids PROTECTED_NODE_IDS ->
  findEntry (fun node => String.eqb ids (node_id node)) (nodes st)
  = Some (i, startNode) ->
  rangeEnd (nodes st) i startNode = (j, endNode) ->
  nodes st !! (j + 1)%nat = Some next ->
  ((forall node, In node (nodes st) ->
                 node_id node <> customIdentifier startNode) ->
   j = i /\ rangeIds (nodes st) i j = [ids])
  /\ (node_id startNode = ids /\ nodes st !! j = Some endNode
      /\ (j <> i -> node_id endNode = customIdentifier startNode))
  /\ (forall id,
        In id (rangeIds (nodes st) i j)
        <-> exists k node,
              (i <= k <= j)%nat /\ nodes st !! k = Some node
              /\ node_id node = id)
  /\ exists st' newNodes kept added,
       deleteNodes (IdString ids) now st = (Returned [ids], st')
       /\ (nodes st', edges st')
          = layoutedElements newNodes (kept ++ added) "DOWN"
       /\ newNodes
          = take i (<[(j + 1)%nat := set_node_position (mkPosition 0 0) next]>
                      (nodes st))
            ++ createDefaultNodeV2
                 (set_islayouted (Some false) (node_data next)) (node_id next)
            :: drop (j + 2) (nodes st)
       /\ ((i <= j)%nat ->
           newNodes
           = take i (nodes st)
             ++ createDefaultNodeV2
                  (set_islayouted (Some false) (node_data next)) (node_id next)
             :: drop (j + 2) (nodes st))
       /\ (length newNodes + j + 1 = length (nodes st) + i)%nat
       /\ v2Properties st'
          = (if includes_id TRIGGER_IDS ids then delete ids (v2Properties st)
             else v2Properties st)
       /\ (forall e,
             In e kept
             <-> In e (edges st)
                 /\ ~ In (edge_source e) (rangeIds (nodes st) i j)
                 /\ ~ In (edge_target e) (rangeIds (nodes st) i j))
       /\ (siblingTrigger ids (edges st) = false \/ (j < i)%nat ->
           forall e,
             In e added
             <-> exists p s,
                   In p (edges st) /\ edge_target p = ids
                   /\ In s (edges st) /\ edge_source s = node_id endNode
                   /\ In e (createCustomEdgeMeta (edge_source p) (edge_target s)
                              (edge_label p)))
       /\ (siblingTrigger ids (edges st) = true -> (i <= j)%nat -> added = []).
Proof.
  intros Hfree Hfind Hend Hnext.
  replace j with (fst (rangeEnd (nodes st) i startNode)) in Hnext
    by (rewrite Hend; reflexivity).
  pose proof (findEntry_Some _ _ _ _ Hfind) as [Hstart Hid].
  apply String.eqb_eq in Hid. symmetry in Hid.
  destruct (rangeEnd_cases _ _ _ _ _ Hstart Hend) as [Hlookup Hcases].
  assert (Hnot_ts : node_id endNode <> "trigger_start"%string).
  { destruct Hcases as [(_ & -> & _) | ->].
    - rewrite Hid. intros ->. apply Hfree. simpl. tauto.
    - apply customIdentifier_not_trigger_start. }
  assert (Hempty : (j < i)%nat -> rangeIds (nodes st) i j = []).
  { intros Hlt. unfold rangeIds, slice.
    replace (j + 1 - i)%nat with 0%nat by lia. reflexivity. }
  split; [| split; [| split]].
  - intros Hnone. destruct Hcases as [(-> & _ & _) | Hcustom].
    + split; [reflexivity |]. rewrite <- Hid. apply rangeIds_single, Hstart.
    + exfalso. apply (Hnone endNode); [| exact Hcustom].
      apply list_elem_of_In. eapply list_elem_of_lookup_2. exact Hlookup.
  - repeat split; try assumption.
    intros Hne. destruct Hcases as [(-> & _) | Hcustom]; [congruence | exact Hcustom].
  - intros id. apply in_rangeIds_iff.
  - destruct (deleteNodes_run ids now st i startNode next Hfree Hfind Hnext)
      as (st' & Hrun & Hgraph & Hprops).
    exists st', (deleteNewNodes (nodes st) i startNode next),
      (outsideRange (rangeIds (nodes st) i j) (edges st)),
      (reconnections startNode endNode
         (reconnectBase ids (rangeIds (nodes st) i j) (edges st))).
    split; [exact Hrun |]. split.
    { rewrite Hgraph. unfold deleteFinalEdges. rewrite Hend. reflexivity. }
    rewrite (deleteNewNodes_explicit _ _ _ _ _ _ Hend).
    split; [reflexivity |]. split.
    { intros Hle. rewrite take_insert_ge by lia. reflexivity. }
    split.
    { rewrite length_app. simpl. rewrite length_take, length_insert, length_drop.
      apply lookup_lt_Some in Hstart.
      rewrite Hend in Hnext. simpl in Hnext. apply lookup_lt_Some in Hnext.
      lia. }
    split; [exact Hprops |]. split; [| split].
    + intros e. apply in_outsideRange.
    + intros Hcase e.
      assert (Hbase : reconnectBase ids (rangeIds (nodes st) i j) (edges st)
                      = edges st).
      { unfold reconnectBase. destruct Hcase as [-> | Hlt]; [reflexivity |].
        rewrite (Hempty Hlt).
        destruct (siblingTrigger ids (edges st)); [| reflexivity].
        apply forallb_filter_id, forallb_forall. intros e0 _. reflexivity. }
      rewrite Hbase, (in_reconnections _ _ _ _ Hnot_ts), Hid. reflexivity.
    + intros Hsibling Hle. unfold reconnectBase. rewrite Hsibling.
      apply reconnections_sibling. apply in_rangeIds; assumption.
Qed.


End Delete.

Lemma deleteNodes_protected_witness :
  In "trigger_end"%string PROTECTED_NODE_IDS
  /\ @deleteNodes referenceCollaborators (IdString "trigger_end") 7
       (storeOf linearDefinition)
     = (Thrown (KeepWorkflowStoreError "Cannot delete protected node"),
        storeOf linearDefinition).
Proof.
  split; [simpl; tauto |].
  apply (@deleteNodes_protected referenceCollaborators "trigger_end" 7
           (storeOf linearDefinition)).
  simpl; tauto.
Defined.

Lemma deleteNodes_missing_target_witness :
  @deleteNodes referenceCollaborators (IdArray ["send-slack"%string]) 7
    (storeOf linearDefinition)
  = (Returned [], storeOf linearDefinition)
  /\ @deleteNodes referenceCollaborators (IdString "send-email") 7
       (storeOf linearDefinition)
     = (Returned [], storeOf linearDefinition).
Proof.
  destruct (@deleteNodes_missing_target referenceCollaborators 7
              (storeOf linearDefinition)) as [Harray Hstring].
  split; [apply Harray |]. apply Hstring.
  - simpl. intros [H | [H | [H | [H | []]]]]; discriminate H.
  - intros node Hin. vm_compute in Hin.
    repeat (destruct Hin as [<- | Hin]; [discriminate |]). destruct Hin.
Defined.

(** On the store of [nestedDefinition] the container [loop] goes with its
    body and its end-boundary node; in [backwardStore] the node that
    carries the derived id of [a] stands in front of [a], and the call
    returns with [a] still in the node list. *)
Lemma deleteNodes_range_effect_witness :
  (exists st',
     @deleteNodes referenceCollaborators (IdString "loop") 7
       (storeOf nestedDefinition)
     = (Returned ["loop"%string], st')
     /\ v2Properties st' = v2Properties (storeOf nestedDefinition))
  /\ (exists st',
        @deleteNodes referenceCollaborators (IdString "a") 7 backwardStore
        = (Returned ["a"%string], st')
        /\ v2Properties st' = v2Properties backwardStore).
Proof.
  split.
  - destruct (@deleteNodes_range_effect referenceCollaborators "loop" 7
                (storeOf nestedDefinition) 4%nat
                (nodeFor origin false (foreachData "loop")) 6%nat
                (nodeFor origin false (boundaryData (foreachData "loop")))
                (nodeFor origin false (switchData "check")))
      as (_ & _ & _ & st' & newNodes & kept & added & Hrun & _ & _ & _ & _
          & Hprops & _).
    + simpl. intros [H | [H | [H | [H | []]]]]; discriminate H.
    + vm_compute; reflexivity.
    + vm_compute; reflexivity.
    + vm_compute; reflexivity.
    + exists st'. split; [exact Hrun | exact Hprops].
  - destruct (@deleteNodes_range_effect referenceCollaborators "a" 7
                backwardStore 2%nat (nodeFor origin false (taskData "a" "a"))
                1%nat
                (nodeFor origin false (taskData "step-slack__end__a" "stray"))
                (nodeFor origin false (taskData "a" "a")))
      as (_ & _ & _ & st' & newNodes & kept & added & Hrun & _ & _ & _ & _
          & Hprops & _).
    + simpl. intros [H | [H | [H | [H | []]]]]; discriminate H.
    + vm_compute; reflexivity.
    + vm_compute; reflexivity.
    + vm_compute; reflexivity.
    + exists st'. split; [exact Hrun | exact Hprops].
Defined.

(** In [backwardStore] the deletion of [a] removes no node and no edge. *)
Example deleteNodes_behind_its_end :
  fst (@deleteNodes referenceCollaborators (IdString "a") 7 backwardStore)
  = Returned ["a"%string]
  /\ map node_id
       (nodes (snd (@deleteNodes referenceCollaborators (IdString "a") 7
                      backwardStore)))
     = map node_id (nodes backwardStore)
  /\ map edgeKey
       (edges (snd (@deleteNodes referenceCollaborators (IdString "a") 7
                      backwardStore)))
     = map edgeKey (edges backwardStore).
Proof. repeat split; vm_compute; reflexivity. Qed.

(** C3, as stated, fails twice.  In the store of [twoTriggerDefinition]
    the trigger [manual] sits between [trigger_start] and [trigger_end];
    after its deletion no edge joins the two.  In [danglingStore] the task
    [a] has no successor; after its deletion no placeholder stands in its
    position and no edge is left. *)
Lemma deleteNodes_not_as_stated :
  ~ reconnectsAll (storeOf twoTriggerDefinition)
      (snd (@deleteNodes referenceCollaborators (IdString "manual") 7
              (storeOf twoTriggerDefinition)))
      "manual" "manual"
  /\ (@outgoing danglingStore "a" = []
      /\ fst (@deleteNodes referenceCollaborators (IdString "a") 7 danglingStore)
         = Returned ["a"%string]
      /\ existsb isPlaceholder
           (nodes (snd (@deleteNodes referenceCollaborators (IdString "a") 7
                          danglingStore)))
         = false
      /\ edges (snd (@deleteNodes referenceCollaborators (IdString "a") 7
                       danglingStore))
         = []).
Proof.
  split.
  - intros Hall.
    destruct (Hall (edgeBetween "trigger_start" "manual" None)
                (edgeBetween "manual" "trigger_end" None))
      as (e & Hin & Hsource & Htarget & _).
    + vm_compute. tauto.
    + reflexivity.
    + vm_compute. tauto.
    + reflexivity.
    + vm_compute in Hin.
      repeat (destruct Hin as [<- | Hin];
              [simpl in Hsource, Htarget; discriminate |]).
      destruct Hin.
  - repeat split; vm_compute; reflexivity.
Qed.

(** ** onConnect *)

Section Connect.
Context `{Collaborators}.

Lemma connectNode_id source target node :
  node_id (connectNode source target node) = node_id node.
Proof.
  unfold connectNode.
  destruct (String.eqb (node_id node) target);
    [| destruct (String.eqb (node_id node) source)]; reflexivity.
Qed.

Lemma connectNode_endpoint source target node :
  node_id node = source \/ node_id node = target ->
  node_isDraggable (connectNode source target node) = Some false.
Proof.
  intros Hend. unfold connectNode.
  destruct (String.eqb_spec (node_id node) target); [reflexivity |].
  destruct (String.eqb_spec (node_id node) source); [reflexivity | tauto].
Qed.

Lemma connectNode_other source target node :
  node_id node <> source -> node_id node <> target ->
  connectNode source target node = node.
Proof.
  intros Hs Ht. unfold connectNode.
  destruct (String.eqb_spec (node_id node) target); [contradiction |].
  destruct (String.eqb_spec (node_id node) source); [contradiction |].
  reflexivity.
Qed.

(** C6, as the code has it: [onConnect] never throws.  A connection with
    an endpoint that names no node is rejected.  Between two nodes of the
    graph, a switch source is accepted while it has fewer than two
    outgoing edges, a foreach container always, any other source only
    while it has no outgoing edge.  A rejected connection leaves the store
    as it was; an accepted one hands the connection to [addEdge] and
    clears the draggable flag of both endpoints, no other node changing. *)
Theorem onConnect_effect connection st :
  (exists st',
     onConnect connection st = (Returned tt, st')
     /\ (canConnect st (conn_source connection)
           (getNodeById st (conn_source connection))
           (getNodeById st (conn_target connection)) = false ->
         st' = st)
     /\ (canConnect st (conn_source connection)
           (getNodeById st (conn_source connection))
           (getNodeById st (conn_target connection)) = true ->
         edges st' = addEdge connection "custom-edge" (edges st)
         /\ map node_id (nodes st') = map node_id (nodes st)
         /\ (forall node,
               In node (nodes st') ->
               node_id node = conn_source connection
               \/ node_id node = conn_target connection ->
               node_isDraggable node = Some false)
         /\ (forall node,
               In node (nodes st) ->
               node_id node <> conn_source connection ->
               node_id node <> conn_target connection ->
               In node (nodes st'))))
  /\ (getNodeById st (conn_source connection) = None
      \/ getNodeById st (conn_target connection) = None ->
      canConnect st (conn_source connection)
        (getNodeById st (conn_source connection))
        (getNodeById st (conn_target connection)) = false)
  /\ (forall sourceNode targetNode,
        getNodeById st (conn_source connection) = Some sourceNode ->
        getNodeById st (conn_target connection) = Some targetNode ->
        (step_componentType (node_data sourceNode) = "switch"%string ->
         (canConnect st (conn_source connection) (Some sourceNode)
            (Some targetNode) = true
          <-> (length (outgoing st (conn_source connection)) < 2)%nat))
        /\ (step_componentType (node_data sourceNode) = "container"%string ->
            step_type (node_data sourceNode) = "foreach"%string ->
            canConnect st (conn_source connection) (Some sourceNode)
              (Some targetNode) = true)
        /\ (step_componentType (node_data sourceNode) <> "switch"%string ->
            ~ (step_componentType (node_data sourceNode) = "container"%string
               /\ step_type (node_data sourceNode) = "foreach"%string) ->
            (canConnect st (conn_source connection) (Some sourceNode)
               (Some targetNode) = true
             <-> length (outgoing st (conn_source connection)) = 0%nat))).
Proof.
  split; [| split].
  - unfold onConnect, bind, get.
    destruct (canConnect st _ _ _) eqn:Hcan.
    + eexists. split; [reflexivity |]. split; [discriminate |]. intros _.
      simpl. split; [reflexivity |]. split; [| split].
      * rewrite map_map. apply map_ext. intros node. apply connectNode_id.
      * intros node Hin Hend. apply in_map_iff in Hin as (old & <- & _).
        rewrite connectNode_id in Hend. apply connectNode_endpoint, Hend.
      * intros node Hin Hs Ht. apply in_map_iff. exists node.
        split; [apply connectNode_other; assumption | exact Hin].
    + exists st. split; [reflexivity |]. split; [reflexivity | discriminate].
  - intros [-> | ->]; [reflexivity |].
    destruct (getNodeById st (conn_source connection)); reflexivity.
  - intros sourceNode targetNode _ _. unfold canConnect. split; [| split].
    + intros ->. simpl. apply Nat.ltb_lt.
    + intros -> ->. reflexivity.
    + intros Hswitch Hforeach.
      destruct (String.eqb_spec (step_componentType (node_data sourceNode)) "switch");
        [contradiction |].
      destruct (String.eqb_spec (step_componentType (node_data sourceNode)) "container");
        destruct (String.eqb_spec (step_type (node_data sourceNode)) "foreach");
        simpl; try tauto; apply Nat.eqb_eq.
Qed.

End Connect.

Lemma onConnect_effect_witness :
  exists st',
    @onConnect referenceCollaborators (mkConnection "loop" "check")
      (storeOf nestedDefinition)
    = (Returned tt, st')
    /\ edges st'
       = @addEdge referenceCollaborators (mkConnection "loop" "check")
           "custom-edge" (edges (storeOf nestedDefinition)).
Proof.
  destruct (@onConnect_effect referenceCollaborators
              (mkConnection "loop" "check") (storeOf nestedDefinition))
    as ((st' & Hrun & _ & Haccepted) & _).
  exists st'. split; [exact Hrun |].
  apply Haccepted. vm_compute; reflexivity.
Defined.

(** C6, as stated, fails: the source [loop] is a foreach container, the
    target names no node, and the edge is not added. *)
Lemma onConnect_foreach_not_always_added :
  (exists sourceNode,
     getNodeById (storeOf nestedDefinition) "loop" = Some sourceNode
     /\ step_componentType (node_data sourceNode) = "container"%string
     /\ step_type (node_data sourceNode) = "foreach"%string)
  /\ @onConnect referenceCollaborators (mkConnection "loop" "ghost")
       (storeOf nestedDefinition)
     = (Returned tt, storeOf nestedDefinition)
  /\ edges (snd (@onConnect referenceCollaborators (mkConnection "loop" "ghost")
                   (storeOf nestedDefinition)))
     <> @addEdge referenceCollaborators (mkConnection "loop" "ghost")
          "custom-edge" (edges (storeOf nestedDefinition)).
Proof.
  split; [| split].
  - eexists. split; [vm_compute; reflexivity |]. split; reflexivity.
  - vm_compute; reflexivity.
  - vm_compute. discriminate.
Qed.

(** ** validateDefinition *)

Section Validate.
Context `{Collaborators}.

Lemma validateDefinition_canDeploy st d :
  res_canDeploy (validateDefinition st d)
  = Nat.eqb
      (length (errorFindings (res_validationErrors (validateDefinition st d)))) 0.
Proof.
  unfold validateDefinition.
  destruct (fold_left (validateStep st d) (def_sequence d) _) as [isValid ve].
  reflexivity.
Qed.

(** No finding of the map is an error exactly when the list of error
    findings is empty. *)
Lemma errorFindings_nil (ve : gmap string ValidationError) :
  errorFindings ve = []
  <-> forall key message severity,
        ve !! key = Some (message, severity) -> severity <> error.
Proof.
  unfold errorFindings. split.
  - intros Hnil key message severity Hlookup ->.
    apply (not_elem_of_nil (message, error)). rewrite <- Hnil.
    apply list_elem_of_filter. split; [reflexivity |].
    apply list_elem_of_fmap. exists (key, (message, error)).
    split; [reflexivity |]. apply elem_of_map_to_list. exact Hlookup.
  - intros Hall.
    destruct (filter _ (snd <$> map_to_list ve)) as [| v rest] eqn:Hfilter;
      [reflexivity |].
    assert (Hin : v ∈ filter (fun v : ValidationError => is_error (snd v) = true)
                    (snd <$> map_to_list ve)).
    { rewrite Hfilter. left. }
    apply list_elem_of_filter in Hin as [Herror Hin].
    apply list_elem_of_fmap in Hin as ([key [message severity]] & -> & Hin).
    apply elem_of_map_to_list in Hin. simpl in Herror.
    destruct severity; [| discriminate Herror].
    exfalso. exact (Hall key message error Hin eq_refl).
Qed.

Lemma file_nil acc : file acc [] = acc.
Proof. destruct acc as [valid ve]. unfold file. simpl. rewrite andb_true_r. reflexivity. Qed.

Lemma file_app acc l1 l2 : file (file acc l1) l2 = file acc (l1 ++ l2).
Proof.
  unfold file. simpl. rewrite fold_left_app. f_equal.
  destruct l1, l2; simpl; rewrite ?andb_true_r, ?andb_false_r; reflexivity.
Qed.

Lemma recordFirst_file st d s acc :
  recordFirst s (findingsOf st d s) acc = file acc (filing st d s).
Proof.
  unfold filing. destruct (findingsOf st d s) as [| first rest]; simpl.
  - symmetry. apply file_nil.
  - unfold file. simpl. rewrite andb_false_r. reflexivity.
Qed.

Lemma fold_validateNested_file st d l acc :
  fold_left (validateNested st d) l acc = file acc (flat_map (filing st d) l).
Proof.
  revert acc. induction l as [| s l IH]; intros acc; simpl.
  - symmetry. apply file_nil.
  - rewrite IH. unfold validateNested. fold (findingsOf st d s).
    rewrite recordFirst_file. apply file_app.
Qed.

Lemma validateStep_file st d acc step :
  validateStep st d acc step
  = file acc (flat_map (filing st d) (directChildren step) ++ filing st d step).
Proof.
  unfold validateStep. cbv zeta. fold (findingsOf st d step).
  rewrite recordFirst_file, <- file_app. f_equal.
  destruct step as [sd | sd t f | sd q]; simpl directChildren.
  - symmetry. apply file_nil.
  - apply fold_validateNested_file.
  - apply fold_validateNested_file.
Qed.

Lemma fold_validateStep_file st d l acc :
  fold_left (validateStep st d) l acc
  = file acc
      (flat_map (fun step =>
                   flat_map (filing st d) (directChildren step) ++ filing st d step)
         l).
Proof.
  revert acc. induction l as [| s l IH]; intros acc; simpl.
  - symmetry. apply file_nil.
  - rewrite IH, validateStep_file. apply file_app.
Qed.

Lemma globals_file (result : list (string * string)) :
  (bool_decide (result = []),
   fold_left (fun (ve : gmap string ValidationError) '(key, err) =>
                assign key (err, error) ve) result ∅)
  = file (true, ∅) (map (fun '(key, err) => (key, (err, error))) result).
Proof.
  unfold file. simpl. f_equal.
  - destruct result; reflexivity.
  - generalize (∅ : gmap string ValidationError).
    induction result as [| [key err] rest IH]; intros ve; simpl;
      [reflexivity | apply IH].
Qed.

(** [validateDefinition] files its findings one after the other, and is
    valid when there is none. *)
Lemma validateDefinition_filings st d :
  (res_isValid (validateDefinition st d),
   res_validationErrors (validateDefinition st d))
  = file (true, ∅) (filings st d).
Proof.
  unfold filings. rewrite <- file_app, <- globals_file, <- fold_validateStep_file.
  unfold validateDefinition. cbv zeta.
  destruct (fold_left (validateStep st d) (def_sequence d) _) as [isValid ve].
  reflexivity.
Qed.

Lemma lastFiled_snoc key l k v :
  lastFiled key (l ++ [(k, v)])
  = if String.eqb k key then Some v else lastFiled key l.
Proof.
  unfold lastFiled. rewrite rev_app_distr. simpl.
  destruct (String.eqb k key); reflexivity.
Qed.

Lemma lookup_assign {V} key (value : V) record k :
  assign key value record !! k
  = if String.eqb key "__proto__" then record !! k
    else if String.eqb key k then Some value else record !! k.
Proof.
  unfold assign. destruct (String.eqb key "__proto__"); [reflexivity |].
  destruct (String.eqb_spec key k) as [-> | Hne];
    [apply lookup_insert_eq | apply lookup_insert_ne, Hne].
Qed.

(** A key holds the finding filed last under it; nothing is held under
    [__proto__]. *)
Lemma lookup_filed (l : list (string * ValidationError))
    (ve : gmap string ValidationError) key :
  fold_left (fun ve '(key, finding) => assign key finding ve) l ve !! key
  = if String.eqb key "__proto__" then ve !! key
    else match lastFiled key l with
         | Some finding => Some finding
         | None => ve !! key
         end.
Proof.
  induction l as [| [k v] l IH] using rev_ind.
  - simpl. destruct (String.eqb key "__proto__"); reflexivity.
  - rewrite fold_left_app, lastFiled_snoc. simpl. rewrite lookup_assign, IH.
    destruct (String.eqb_spec k "__proto__") as [-> | Hk].
    + destruct (String.eqb_spec key "__proto__") as [_ | Hkey];
        [reflexivity |].
      destruct (String.eqb_spec "__proto__" key) as [<- | _];
        [contradiction | reflexivity].
    + destruct (String.eqb_spec k key) as [-> | Hne]; [| reflexivity].
      destruct (String.eqb_spec key "__proto__"); [contradiction | reflexivity].
Qed.

Lemma lastFiled_in key l finding :
  lastFiled key l = Some finding -> In (key, finding) l.
Proof.
  unfold lastFiled. destruct (find _ (rev l)) as [[k v] |] eqn:Hfind;
    [| discriminate].
  simpl. intros [= <-]. apply find_some in Hfind as [Hin Hk].
  simpl in Hk. apply String.eqb_eq in Hk. subst k.
  apply in_rev. exact Hin.
Qed.

Lemma lastFiled_none key l :
  lastFiled key l = None <-> forall finding, ~ In (key, finding) l.
Proof.
  unfold lastFiled. split.
  - intros Hnone finding Hin.
    destruct (find _ (rev l)) as [f |] eqn:Hfind; [discriminate |].
    apply in_rev in Hin. apply (find_none _ _ Hfind) in Hin. simpl in Hin.
    rewrite String.eqb_refl in Hin. discriminate Hin.
  - intros Hall. destruct (find _ (rev l)) as [[k v] |] eqn:Hfind; [| reflexivity].
    exfalso. apply find_some in Hfind as [Hin Hk]. simpl in Hk.
    apply String.eqb_eq in Hk. subst k. apply (Hall v). apply in_rev. exact Hin.
Qed.

(** C8, as the code has it: for a definition with no finding filed under
    the key [__proto__], [validateDefinition] files the findings of the
    global pass, each as an error under its own key, and then, step by
    step, the first finding of each step directly below the step and the
    first finding of the step, each under the name of its step, or the id
    when the name is empty; under a key the finding filed last stays.
    [canDeploy] is true exactly when no finding that stays is an error,
    and findings of severity [warning] never make it false. *)
Theorem canDeploy_iff_no_error_filed st d :
  (forall key finding,
     In (key, finding) (filings st d) -> key <> "__proto__"%string) ->
  (forall key,
     res_validationErrors (validateDefinition st d) !! key
     = lastFiled key (filings st d))
  /\ (res_canDeploy (validateDefinition st d) = true
      <-> forall key message,
            lastFiled key (filings st d) <> Some (message, error))
  /\ ((forall key message severity,
         In (key, (message, severity)) (filings st d) -> severity = warning) ->
      res_canDeploy (validateDefinition st d) = true).
Proof.
  intros Hplain.
  assert (Hrecord : forall key,
            res_validationErrors (validateDefinition st d) !! key
            = lastFiled key (filings st d)).
  { intros key.
    pose proof (f_equal snd (validateDefinition_filings st d)) as Hfiled.
    simpl in Hfiled. rewrite Hfiled, lookup_filed, lookup_empty.
    destruct (String.eqb_spec key "__proto__") as [-> | _].
    - symmetry. apply lastFiled_none. intros finding Hin.
      exact (Hplain _ _ Hin eq_refl).
    - destruct (lastFiled key (filings st d)); reflexivity. }
  assert (Hiff :
    res_canDeploy (validateDefinition st d) = true
    <-> forall key message,
          lastFiled key (filings st d) <> Some (message, error)).
  { rewrite validateDefinition_canDeploy, Nat.eqb_eq, length_zero_iff_nil.
    rewrite errorFindings_nil. split.
    - intros Hnone key message Hlast. rewrite <- Hrecord in Hlast.
      exact (Hnone key message error Hlast eq_refl).
    - intros Hnone key message severity Hlookup ->. rewrite Hrecord in Hlookup.
      exact (Hnone key message Hlookup). }
  split; [exact Hrecord |]. split; [exact Hiff |].
  intros Hwarnings. apply Hiff. intros key message Hlast.
  apply lastFiled_in in Hlast. apply Hwarnings in Hlast. discriminate Hlast.
Qed.


End Validate.

(** A warning alone leaves the workflow deployable; the missing trigger,
    an error, does not. *)
Example canDeploy_with_warning :
  res_validationErrors
    (@validateDefinition referenceCollaborators defaultState
       unconfiguredDefinition)
  = {[ "notify"%string := ("Step is not configured."%string, warning) ]}
  /\ res_canDeploy
       (@validateDefinition referenceCollaborators defaultState
          unconfiguredDefinition) = true
  /\ res_canDeploy
       (@validateDefinition referenceCollaborators defaultState
          untriggeredDefinition) = false.
Proof. repeat split; vm_compute; reflexivity. Qed.

Lemma canDeploy_iff_no_error_filed_witness :
  res_validationErrors
    (@validateDefinition referenceCollaborators defaultState
       unconfiguredDefinition) !! "notify"%string
  = Some ("Step is not configured."%string, warning)
  /\ res_canDeploy
       (@validateDefinition referenceCollaborators defaultState
          unconfiguredDefinition) = true.
Proof.
  assert (Hfiled :
    @filings referenceCollaborators defaultState unconfiguredDefinition
    = [("notify"%string, ("Step is not configured."%string, warning))])
    by (vm_compute; reflexivity).
  destruct (@canDeploy_iff_no_error_filed referenceCollaborators defaultState
              unconfiguredDefinition) as (Hrecord & _ & Hwarnings).
  - intros key finding Hin. rewrite Hfiled in Hin.
    destruct Hin as [[= <- _] | []]. discriminate.
  - split.
    + rewrite Hrecord, Hfiled. reflexivity.
    + apply Hwarnings. intros key message severity Hin. rewrite Hfiled in Hin.
      destruct Hin as [[= _ _ <-] | []]. reflexivity.
Defined.

(** C8, as stated, fails: in [shadowedDefinition] the first step has no
    name and the id [x], the second the name [x]; the validator finds an
    error for the first and a warning for the second, both are filed
    under [x], the warning stays, and the definition can be deployed. *)
Lemma canDeploy_despite_an_error_finding :
  (exists step,
     In step (def_sequence shadowedDefinition)
     /\ In ("Step name cannot be empty."%string, error)
          (@findingsOf referenceCollaborators defaultState shadowedDefinition
             step))
  /\ res_validationErrors
       (@validateDefinition referenceCollaborators defaultState
          shadowedDefinition)
     = {[ "x"%string := ("Step is not configured."%string, warning) ]}
  /\ res_canDeploy
       (@validateDefinition referenceCollaborators defaultState
          shadowedDefinition) = true.
Proof.
  split; [| split; vm_compute; reflexivity].
  eexists. split; [left; reflexivity |]. vm_compute. left. reflexivity.
Qed.

(** ** onLayout *)

Section Layout.
Context `{Collaborators}.

Lemma withoutLayout_layoutNode n :
  withoutLayout (layoutNode n) = withoutLayout n.
Proof. reflexivity. Qed.

Lemma withoutLayout_withoutPosition n :
  withoutLayout (withoutPosition n) = withoutLayout n.
Proof. reflexivity. Qed.

Lemma withoutLayout_layouted (moved ns : list FlowNode) :
  map withoutPosition moved = map withoutPosition ns ->
  map withoutLayout (map layoutNode moved) = map withoutLayout ns.
Proof.
  intros Hnodes. rewrite map_map.
  rewrite (map_ext _ _ withoutLayout_layoutNode).
  rewrite <- (map_ext _ _ withoutLayout_withoutPosition).
  rewrite <- map_map, Hnodes, map_map.
  apply map_ext, withoutLayout_withoutPosition.
Qed.

(** C9: with a layout routine that keeps to its contract, [onLayout]
    keeps the identity and the number of nodes and edges; a node differs from the one laid out in its
    position and layouted flag only, an edge in its animated and layouted
    flags only; every layouted flag is true, and an edge is animated
    exactly when its target id contains [empty]. *)
Theorem onLayout_changes_only_presentation params st :
  keepsContent (fst (layoutInput params st)) (snd (layoutInput params st))
    (getLayoutedWorkflowElements (fst (layoutInput params st))
       (snd (layoutInput params st)) (direction params)) ->
  exists st',
    onLayout params st = (Returned tt, st')
    /\ length (nodes st') = length (fst (layoutInput params st))
    /\ length (edges st') = length (snd (layoutInput params st))
    /\ map node_id (nodes st') = map node_id (fst (layoutInput params st))
    /\ map edge_id (edges st') = map edge_id (snd (layoutInput params st))
    /\ map withoutLayout (nodes st')
       = map withoutLayout (fst (layoutInput params st))
    /\ map withoutFlags (edges st')
       = map withoutFlags (snd (layoutInput params st))
    /\ (forall node, In node (nodes st') ->
                     step_isLayouted (node_data node) = Some true)
    /\ (forall edge, In edge (edges st') -> edge_isLayouted edge = Some true)
    /\ (forall edge, In edge (edges st') ->
          edge_animated edge = Some true
          <-> exists pre post, edge_target edge = pre +:+ "empty" +:+ post)
    /\ isLayouted st' = true.
Proof.
  intros [Hnodes Hedges]. unfold onLayout, bind, get, layoutedElements.
  destruct (layoutInput params st) as [ns es]. simpl in Hnodes, Hedges.
  destruct (getLayoutedWorkflowElements ns es (direction params))
    as [moved es']. simpl in Hnodes, Hedges. subst es'.
  eexists. split; [reflexivity |]. simpl.
  pose proof (withoutLayout_layouted moved ns Hnodes) as Hcontent.
  split; [| split; [| split; [| split; [| split; [| split; [| split;
    [| split]]]]]]].
  - rewrite <- (length_map withoutLayout), Hcontent. apply length_map.
  - apply length_map.
  - change node_id with (fun n => node_id (withoutLayout n)).
    rewrite <- (map_map withoutLayout node_id), Hcontent, map_map. reflexivity.
  - rewrite map_map. reflexivity.
  - exact Hcontent.
  - rewrite map_map. reflexivity.
  - intros node Hin. apply in_map_iff in Hin as (old & <- & _). reflexivity.
  - intros edge Hin. apply in_map_iff in Hin as (old & <- & _). reflexivity.
  - split; [| reflexivity].
    intros edge Hin. apply in_map_iff in Hin as (old & <- & _).
    rewrite <- includes_spec. simpl. split; congruence.
Qed.

End Layout.

Lemma onLayout_changes_only_presentation_witness :
  exists st',
    @onLayout referenceCollaborators layoutDown (storeOf nestedDefinition)
    = (Returned tt, st')
    /\ map node_id (nodes st') = map node_id (nodes (storeOf nestedDefinition))
    /\ map edge_id (edges st') = map edge_id (edges (storeOf nestedDefinition))
    /\ isLayouted st' = true.
Proof.
  destruct (@onLayout_changes_only_presentation referenceCollaborators
              layoutDown (storeOf nestedDefinition))
    as (st' & Hrun & _ & _ & Hnodes & Hedges & _ & _ & _ & _ & _ & Hflag).
  - split; vm_compute; reflexivity.
  - exists st'. repeat split; assumption.
Defined.

(** ** The round trip *)

(** Induction on a step with the steps nested in it. *)
Lemma V2Step_nested_ind (P : V2Step -> Prop) :
  (forall d, P (Leaf d)) ->
  (forall d t f, Forall P t -> Forall P f -> P (Switch d t f)) ->
  (forall d q, Forall P q -> P (Container d q)) ->
  forall s, P s.
Proof.
  intros HLeaf HSwitch HContainer. fix IH 1. intros [d | d t f | d q].
  - apply HLeaf.
  - apply HSwitch.
    + induction t as [| s t IHt]; constructor; [apply IH | exact IHt].
    + induction f as [| s f IHf]; constructor; [apply IH | exact IHf].
  - apply HContainer.
    induction q as [| s q IHq]; constructor; [apply IH | exact IHq].
Qed.

Section Compiled.
Variable origin : Position.

Lemma compilePathWith_cons expand s rest next :
  compilePathWith expand (s :: rest) next
  = graph_app (expand s (entry rest next)) (compilePathWith expand rest next).
Proof. reflexivity. Qed.

(** The ids of the compiled nodes are the ids of the tree, in order. *)
Lemma compilePathWith_ids expand l :
  Forall (fun s => forall next, map node_id (fst (expand s next)) = stepIds s) l ->
  forall next, map node_id (fst (compilePathWith expand l next)) = pathIds l.
Proof.
  induction 1 as [| s rest Hs _ IH]; intros next; [reflexivity |].
  rewrite compilePathWith_cons. unfold graph_app. simpl fst.
  rewrite map_app, Hs, IH. reflexivity.
Qed.

Lemma compileStep_ids s :
  forall nested next,
    map node_id (fst (compileStep origin nested s next)) = stepIds s.
Proof.
  induction s as [d | d t f IHt IHf | d q IHq] using V2Step_nested_ind;
    intros nested next; simpl.
  - reflexivity.
  - rewrite !map_app. simpl.
    rewrite (compilePathWith_ids _ f), (compilePathWith_ids _ t).
    + reflexivity.
    + eapply Forall_impl; [exact IHt |]. intros s Hs. apply Hs.
    + eapply Forall_impl; [exact IHf |]. intros s Hs. apply Hs.
  - rewrite !map_app. simpl. rewrite (compilePathWith_ids _ q).
    + reflexivity.
    + eapply Forall_impl; [exact IHq |]. intros s Hs. apply Hs.
Qed.

Lemma compilePath_ids nested l next :
  map node_id (fst (compilePath origin nested l next)) = pathIds l.
Proof.
  apply compilePathWith_ids. apply Forall_forall. intros s _ next'.
  apply compileStep_ids.
Qed.

(** Every compiled edge leaves a node of the tree. *)
Lemma compilePathWith_sources expand l :
  Forall (fun s => forall next e, In e (snd (expand s next)) ->
                                  In (edge_source e) (stepIds s)) l ->
  forall next e, In e (snd (compilePathWith expand l next)) ->
                 In (edge_source e) (pathIds l).
Proof.
  induction 1 as [| s rest Hs _ IH]; intros next e Hin; [destruct Hin |].
  rewrite compilePathWith_cons in Hin. unfold graph_app in Hin. simpl in Hin.
  unfold pathIds. simpl. apply in_or_app. apply in_app_or in Hin as [Hin | Hin].
  - left. eapply Hs, Hin.
  - right. eapply IH, Hin.
Qed.

Lemma compileStep_sources s :
  forall nested next e,
    In e (snd (compileStep origin nested s next)) ->
    In (edge_source e) (stepIds s).
Proof.
  induction s as [d | d t f IHt IHf | d q IHq] using V2Step_nested_ind;
    intros nested next e Hin; simpl in Hin.
  - destruct Hin as [<- | []]. left. reflexivity.
  - destruct Hin as [<- | [<- | Hin]]; [left; reflexivity .. |].
    simpl. right. rewrite !in_app_iff in *.
    destruct Hin as [Hin | [Hin | [<- | []]]].
    + left. eapply (compilePathWith_sources _ f); [| exact Hin].
      eapply Forall_impl; [exact IHf |]. intros s Hs. apply Hs.
    + right. left. eapply (compilePathWith_sources _ t); [| exact Hin].
      eapply Forall_impl; [exact IHt |]. intros s Hs. apply Hs.
    + right. right. left. reflexivity.
  - destruct Hin as [<- | Hin]; [left; reflexivity |].
    simpl. right. rewrite !in_app_iff in *.
    destruct Hin as [Hin | [<- | []]].
    + left. eapply (compilePathWith_sources _ q); [| exact Hin].
      eapply Forall_impl; [exact IHq |]. intros s Hs. apply Hs.
    + right. left. reflexivity.
Qed.

Lemma compilePath_sources nested l next e :
  In e (snd (compilePath origin nested l next)) ->
  In (edge_source e) (pathIds l).
Proof.
  apply compilePathWith_sources. apply Forall_forall. intros s _ next' e'.
  apply compileStep_sources.
Qed.

Lemma key_in_ids nested l next k :
  k ∈ map edgeKey (snd (compilePath origin nested l next)) ->
  fst k ∈ pathIds l.
Proof.
  intros Hk. apply list_elem_of_In in Hk. apply in_map_iff in Hk as (e & <- & He).
  apply list_elem_of_In. simpl. eapply compilePath_sources, He.
Qed.

Lemma stepIds_head s : step_id (data s) ∈ stepIds s.
Proof. destruct s; simpl; left. Qed.

(** Distinct ids give distinct edge keys. *)
Lemma compilePath_keys nested l :
  Forall (fun s => forall nested next,
            NoDup (stepIds s) ->
            NoDup (map edgeKey (snd (compileStep origin nested s next)))) l ->
  forall next,
    NoDup (pathIds l) ->
    NoDup (map edgeKey (snd (compilePath origin nested l next))).
Proof.
  induction 1 as [| s rest Hs _ IH]; intros next Hnodup; [constructor |].
  unfold compilePath. rewrite compilePathWith_cons. unfold graph_app.
  simpl snd. rewrite map_app.
  change (pathIds (s :: rest)) with (stepIds s ++ pathIds rest) in Hnodup.
  apply NoDup_app in Hnodup as (Hstep & Hdisjoint & Hrest).
  apply NoDup_app. split; [apply Hs, Hstep |]. split; [| apply IH, Hrest].
  intros k Hk Hk'. apply (key_in_ids nested rest next) in Hk'.
  apply (Hdisjoint (fst k)); [| exact Hk'].
  apply list_elem_of_In in Hk. apply in_map_iff in Hk as (e & <- & He).
  apply list_elem_of_In. simpl. eapply compileStep_sources, He.
Qed.

Lemma compileStep_keys s :
  forall nested next,
    NoDup (stepIds s) ->
    NoDup (map edgeKey (snd (compileStep origin nested s next))).
Proof.
  induction s as [d | d t f IHt IHf | d q IHq] using V2Step_nested_ind;
    intros nested next Hnodup; simpl.
  - apply NoDup_singleton.
  - simpl in Hnodup. apply NoDup_cons in Hnodup as [Hid Hnodup].
    apply NoDup_app in Hnodup as (Hf & Hfx & Hnodup).
    apply NoDup_app in Hnodup as (Ht & Htx & _).
    pose proof (key_in_ids true f (boundaryId d)) as Hkf.
    pose proof (key_in_ids true t (boundaryId d)) as Hkt.
    fold (compilePath origin true f (boundaryId d)).
    fold (compilePath origin true t (boundaryId d)).
    rewrite !map_app. simpl map.
    assert (Hfresh : forall lbl,
              (step_id d, lbl)
              ∉ map edgeKey (snd (compilePath origin true f (boundaryId d)))
                ++ map edgeKey (snd (compilePath origin true t (boundaryId d)))
                ++ [edgeKey (edgeBetween (boundaryId d) next None)]).
    { intros lbl Hin. apply Hid.
      rewrite !elem_of_app in Hin. rewrite !elem_of_app.
      destruct Hin as [Hin | [Hin | Hin]].
      - left. apply (Hkf _ Hin).
      - right. left. apply (Hkt _ Hin).
      - right. right. apply list_elem_of_singleton in Hin.
        injection Hin as ->. left. }
    apply NoDup_cons. split.
    { intros Hin. apply elem_of_cons in Hin as [Heq | Hin];
        [discriminate Heq | exact (Hfresh _ Hin)]. }
    apply NoDup_cons. split; [apply Hfresh |].
    apply NoDup_app. split; [apply compilePath_keys; assumption |].
    split.
    { intros k Hk Hk'. apply Hkf in Hk. apply (Hfx _ Hk).
      rewrite elem_of_app in Hk'. rewrite elem_of_app.
      destruct Hk' as [Hk' | Hk'].
      - left. apply (Hkt _ Hk').
      - right. apply list_elem_of_singleton in Hk' as ->. left. }
    apply NoDup_app. split; [apply compilePath_keys; assumption |].
    split; [| apply NoDup_singleton].
    intros k Hk Hk'. apply Hkt in Hk. apply (Htx _ Hk).
    apply list_elem_of_singleton in Hk' as ->. left.
  - simpl in Hnodup. apply NoDup_cons in Hnodup as [Hid Hnodup].
    apply NoDup_app in Hnodup as (Hq & Hqx & _).
    pose proof (key_in_ids true q (boundaryId d)) as Hkq.
    fold (compilePath origin true q (boundaryId d)).
    rewrite !map_app. simpl map.
    apply NoDup_cons. split.
    { intros Hin. apply Hid.
      rewrite elem_of_app in Hin. rewrite elem_of_app.
      destruct Hin as [Hin | Hin].
      - left. apply (Hkq _ Hin).
      - right. apply list_elem_of_singleton in Hin.
        injection Hin as ->. left. }
    apply NoDup_app. split; [apply compilePath_keys; assumption |].
    split; [| apply NoDup_singleton].
    intros k Hk Hk'. apply Hkq in Hk. apply (Hqx _ Hk).
    apply list_elem_of_singleton in Hk' as ->. left.
Qed.

End Compiled.

(** In a list with distinct keys, [find] by key finds the element. *)
Lemma find_by_key {A K} (key : A -> K) (p : A -> bool) (l : list A) (a : A) :
  NoDup (map key l) -> In a l -> p a = true ->
  (forall b, p b = true -> key b = key a) ->
  find p l = Some a.
Proof.
  intros Hnodup Hin Hpa Hkey.
  induction l as [| x l IH]; [destruct Hin |].
  simpl in Hnodup. apply NoDup_cons in Hnodup as [Hx Hnodup]. simpl.
  destruct Hin as [-> | Hin]; [rewrite Hpa; reflexivity |].
  destruct (p x) eqn:Hpx; [| apply IH; assumption].
  exfalso. apply Hx. rewrite (Hkey x Hpx).
  apply list_elem_of_In, in_map, Hin.
Qed.

Lemma find_app_none {A} (p : A -> bool) (pre l : list A) :
  (forall a, In a pre -> p a = false) ->
  find p (pre ++ l) = find p l.
Proof.
  intros Hpre. induction pre as [| x pre IH]; [reflexivity |].
  simpl. rewrite (Hpre x) by (left; reflexivity).
  apply IH. intros a Ha. apply Hpre. right. exact Ha.
Qed.

Section Walk.
Variable origin : Position.
Variables (ns mainNodes : list FlowNode) (es mainEdges : list Edge).

Hypothesis find_node :
  forall n, In n mainNodes ->
            find (fun n' => String.eqb (node_id n') (node_id n)) ns = Some n.
Hypothesis follow_edge :
  forall e, In e mainEdges ->
            follow es (edge_source e) (edge_label e) = Some (edge_target e).

Lemma find_compiled nested d :
  In (nodeFor origin nested d) mainNodes ->
  find (fun n' => String.eqb (node_id n') (step_id d)) ns
  = Some (nodeFor origin nested d).
Proof. intros Hin. exact (find_node _ Hin). Qed.

Lemma follow_compiled source target label :
  In (edgeBetween source target label) mainEdges ->
  follow es source label = Some target.
Proof. intros Hin. exact (follow_edge _ Hin). Qed.

Lemma walk_path l :
  Forall (walksStep origin ns mainNodes es mainEdges) l ->
  forall nested next fuel,
    incl (fst (compilePath origin nested l next)) mainNodes ->
    incl (snd (compilePath origin nested l next)) mainEdges ->
    allWellTagged l = true ->
    NoDup (pathIds l) ->
    ~ In next (pathIds l) ->
    (length (pathIds l) < fuel)%nat ->
    walk ns es fuel (Some (entry l next)) next = l.
Proof.
  induction 1 as [| s rest Hs _ IH];
    intros nested next fuel Hnodes Hedges Htagged Hnodup Hnext Hfuel.
  - destruct fuel as [| fuel]; [inversion Hfuel |].
    simpl. rewrite String.eqb_refl. reflexivity.
  - unfold compilePath in Hnodes, Hedges.
    rewrite compilePathWith_cons in Hnodes, Hedges.
    unfold graph_app in Hnodes, Hedges. simpl in Hnodes, Hedges.
    apply incl_app_inv in Hnodes as [Hnodes_s Hnodes_rest].
    apply incl_app_inv in Hedges as [Hedges_s Hedges_rest].
    change (pathIds (s :: rest)) with (stepIds s ++ pathIds rest) in *.
    apply NoDup_app in Hnodup as (Hnodup_s & _ & Hnodup_rest).
    rewrite length_app in Hfuel.
    unfold allWellTagged in Htagged. simpl in Htagged.
    apply andb_true_iff in Htagged as [Htagged_s Htagged_rest].
    destruct fuel as [| fuel]; [inversion Hfuel |].
    assert (Hlen : (0 < length (stepIds s))%nat).
    { pose proof (stepIds_head s) as Hhead.
      destruct (stepIds s); [inversion Hhead | simpl; lia]. }
    change (entry (s :: rest) next) with (step_id (data s)).
    rewrite (Hs nested (entry rest next) next fuel); try assumption.
    + f_equal. apply (IH nested); try assumption.
      * intros Hin. apply Hnext. apply in_or_app. right. exact Hin.
      * lia.
    + intros Heq. apply Hnext. apply in_or_app. left.
      rewrite <- Heq. apply list_elem_of_In, stepIds_head.
    + lia.
Qed.

Lemma walk_step s : walksStep origin ns mainNodes es mainEdges s.
Proof.
  induction s as [d | d t f IHt IHf | d q IHq] using V2Step_nested_ind;
    intros nested next stop fuel Hnodes Hedges Htagged Hnodup Hstop Hfuel;
    simpl in Hnodes, Hedges, Htagged, Hnodup, Hstop, Hfuel.
  - apply andb_true_iff in Htagged as [Hswitch Hcontainer].
    apply negb_true_iff in Hswitch, Hcontainer.
    cbn [walk data]. apply String.eqb_neq in Hstop. rewrite Hstop.
    rewrite (find_compiled nested d) by (apply Hnodes; left; reflexivity).
    cbn [node_data nodeFor]. rewrite Hswitch, Hcontainer.
    rewrite (follow_compiled (step_id d) next None)
      by (apply Hedges; left; reflexivity).
    reflexivity.
  - apply andb_true_iff in Htagged as [Htagged Htagged_f].
    apply andb_true_iff in Htagged as [Hswitch Htagged_t].
    apply NoDup_cons in Hnodup as [Hid Hnodup].
    apply NoDup_app in Hnodup as (Hnodup_f & Hfx & Hnodup).
    apply NoDup_app in Hnodup as (Hnodup_t & Htx & _).
    rewrite !length_app in Hfuel. simpl in Hfuel.
    apply incl_cons_inv in Hnodes as [Hnode Hnodes].
    apply incl_app_inv in Hnodes as [Hnodes_f Hnodes].
    apply incl_app_inv in Hnodes as [Hnodes_t _].
    apply incl_cons_inv in Hedges as [Hedge_f Hedges].
    apply incl_cons_inv in Hedges as [Hedge_t Hedges].
    apply incl_app_inv in Hedges as [Hedges_f Hedges].
    apply incl_app_inv in Hedges as [Hedges_t Hedges].
    apply incl_cons_inv in Hedges as [Hedge_close _].
    cbn [walk data]. apply String.eqb_neq in Hstop. rewrite Hstop.
    rewrite (find_compiled nested d) by exact Hnode.
    cbn [node_data nodeFor]. rewrite Hswitch.
    rewrite (follow_compiled _ _ _ Hedge_f), (follow_compiled _ _ _ Hedge_t),
      (follow_compiled _ _ _ Hedge_close).
    rewrite (walk_path t IHt true (boundaryId d) fuel); try assumption.
    + rewrite (walk_path f IHf true (boundaryId d) fuel); try assumption.
      * reflexivity.
      * intros Hin. apply list_elem_of_In in Hin. apply (Hfx _ Hin).
        apply elem_of_app. right. apply list_elem_of_singleton. reflexivity.
      * unfold pathIds. lia.
    + intros Hin. apply list_elem_of_In in Hin. apply (Htx _ Hin).
      apply list_elem_of_singleton. reflexivity.
    + unfold pathIds. lia.
  - apply andb_true_iff in Htagged as [Hcontainer Htagged_q].
    apply NoDup_cons in Hnodup as [Hid Hnodup].
    apply NoDup_app in Hnodup as (Hnodup_q & Hqx & _).
    rewrite !length_app in Hfuel. simpl in Hfuel.
    apply incl_cons_inv in Hnodes as [Hnode Hnodes].
    apply incl_app_inv in Hnodes as [Hnodes_q _].
    apply incl_cons_inv in Hedges as [Hedge_q Hedges].
    apply incl_app_inv in Hedges as [Hedges_q Hedges].
    apply incl_cons_inv in Hedges as [Hedge_close _].
    cbn [walk data]. apply String.eqb_neq in Hstop. rewrite Hstop.
    rewrite (find_compiled nested d) by exact Hnode.
    cbn [node_data nodeFor].
    assert (Hswitch : String.eqb (step_componentType d) "switch" = false).
    { apply String.eqb_eq in Hcontainer. rewrite Hcontainer. reflexivity. }
    rewrite Hswitch, Hcontainer.
    rewrite (follow_compiled _ _ _ Hedge_q), (follow_compiled _ _ _ Hedge_close).
    rewrite (walk_path q IHq true (boundaryId d) fuel); try assumption.
    + reflexivity.
    + intros Hin. apply list_elem_of_In in Hin. apply (Hqx _ Hin).
      apply list_elem_of_singleton. reflexivity.
    + unfold pathIds. lia.
Qed.

End Walk.

Lemma follow_head source target label rest :
  follow (edgeBetween source target label :: rest) source label = Some target.
Proof.
  unfold follow. cbn [find edgeBetween edge_source edge_label].
  rewrite String.eqb_refl, bool_decide_eq_true_2 by reflexivity. reflexivity.
Qed.

Lemma follow_skip pre l source label :
  (forall e, In e pre -> edge_source e <> source) ->
  follow (pre ++ l) source label = follow l source label.
Proof.
  intros Hpre. unfold follow. rewrite find_app_none; [reflexivity |].
  intros e He. apply andb_false_iff. left. apply String.eqb_neq, Hpre, He.
Qed.

Lemma configuredTriggers_kinds properties d :
  In d (configuredTriggers properties) -> In (step_id d) TRIGGER_IDS.
Proof.
  intros Hin. apply list_elem_of_In in Hin. unfold configuredTriggers in Hin.
  apply list_elem_of_omap in Hin as (kind & Hkind & Hd).
  destruct (properties !! kind) as [config |]; [| discriminate Hd].
  injection Hd as <-. apply list_elem_of_In. exact Hkind.
Qed.

Lemma laneEdges_sources triggers e :
  (forall d, In d triggers -> In (step_id d) TRIGGER_IDS) ->
  In e (laneEdges triggers) ->
  In (edge_source e) ("trigger_start"%string :: TRIGGER_IDS).
Proof.
  intros Hkinds Hin. destruct triggers as [| d0 rest].
  - destruct Hin as [<- | []]. left. reflexivity.
  - unfold laneEdges in Hin. apply in_concat in Hin as (pair & Hpair & Hin).
    apply in_map_iff in Hpair as (d & <- & Hd).
    destruct Hin as [<- | [<- | []]].
    + left. reflexivity.
    + right. apply Hkinds, Hd.
Qed.

Lemma lane_reserved x :
  In x ("trigger_start"%string :: TRIGGER_IDS) -> In x reservedIds.
Proof.
  intros [<- | Hx]; [vm_compute; tauto |].
  unfold reservedIds. apply in_or_app. right. exact Hx.
Qed.

Lemma reserved_not_in_path (l : list string) x :
  NoDup (reservedIds ++ l) -> In x reservedIds -> ~ In x l.
Proof.
  intros Hnodup Hx Hl. apply NoDup_app in Hnodup as (_ & Hdisjoint & _).
  apply (Hdisjoint x); apply list_elem_of_In; assumption.
Qed.

(** ** The traversal reads neither positions nor layouted flags *)

Lemma find_withoutLayout (ns ns' : list FlowNode) x :
  map withoutLayout ns = map withoutLayout ns' ->
  option_map (fun n => set_step_isLayouted None (node_data n))
    (find (fun n => String.eqb (node_id n) x) ns)
  = option_map (fun n => set_step_isLayouted None (node_data n))
      (find (fun n => String.eqb (node_id n) x) ns').
Proof.
  revert ns'. induction ns as [| n ns IH]; intros [| n' ns'] Hsame;
    try discriminate Hsame; [reflexivity |].
  simpl in Hsame.
  assert (Hhead : withoutLayout n = withoutLayout n') by congruence.
  assert (Htail : map withoutLayout ns = map withoutLayout ns') by congruence.
  clear Hsame. simpl.
  assert (Hid : node_id n = node_id n')
    by exact (f_equal node_id Hhead).
  assert (Hdata : set_step_isLayouted None (node_data n)
                  = set_step_isLayouted None (node_data n'))
    by exact (f_equal node_data Hhead).
  rewrite Hid. destruct (String.eqb (node_id n') x); simpl.
  - rewrite Hdata. reflexivity.
  - apply IH, Htail.
Qed.

Lemma follow_layoutEdge es source label :
  follow (map layoutEdge es) source label = follow es source label.
Proof.
  unfold follow. induction es as [| e es IH]; [reflexivity |].
  simpl. destruct (String.eqb (edge_source e) source
                   && bool_decide (edge_label e = label)); [reflexivity |].
  exact IH.
Qed.

Lemma walk_withoutLayout ns ns' es es' :
  map withoutLayout ns = map withoutLayout ns' ->
  (forall source label, follow es source label = follow es' source label) ->
  forall fuel cur stop,
    map withoutLayoutFlag (walk ns es fuel cur stop)
    = map withoutLayoutFlag (walk ns' es' fuel cur stop).
Proof.
  intros Hnodes Hedges. induction fuel as [| fuel IH]; intros cur stop;
    [reflexivity |].
  destruct cur as [cur |]; [| reflexivity]. cbn [walk].
  destruct (String.eqb cur stop); [reflexivity |].
  pose proof (find_withoutLayout ns ns' cur Hnodes) as Hfind.
  destruct (find _ ns) as [n |], (find _ ns') as [n' |];
    try discriminate Hfind; [| reflexivity].
  assert (Hdata : set_step_isLayouted None (node_data n)
                  = set_step_isLayouted None (node_data n'))
    by (simpl in Hfind; congruence).
  clear Hfind.
  assert (Htag : step_componentType (node_data n)
                 = step_componentType (node_data n'))
    by exact (f_equal step_componentType Hdata).
  assert (Hclose : boundaryId (node_data n) = boundaryId (node_data n')).
  { unfold boundaryId.
    rewrite (f_equal step_type Hdata : step_type (node_data n) = _).
    rewrite (f_equal step_id Hdata : step_id (node_data n) = _). reflexivity. }
  rewrite Htag, Hclose, !Hedges.
  destruct (String.eqb (step_componentType (node_data n')) "switch");
    [| destruct (String.eqb (step_componentType (node_data n')) "container")];
    cbn [map withoutLayoutFlag]; rewrite Hdata, !IH; reflexivity.
Qed.

Lemma decompile_withoutLayout ns ns' es es' properties :
  map withoutLayout ns = map withoutLayout ns' ->
  (forall source label, follow es source label = follow es' source label) ->
  map withoutLayoutFlag (def_sequence (decompile ns es properties))
  = map withoutLayoutFlag (def_sequence (decompile ns' es' properties)).
Proof.
  intros Hnodes Hedges. unfold decompile. cbn [def_sequence].
  rewrite !Hedges.
  assert (Hlength : length ns = length ns').
  { rewrite <- (length_map withoutLayout ns), Hnodes. apply length_map. }
  rewrite Hlength. apply walk_withoutLayout; assumption.
Qed.

(** The compiled graph of a legally constructed definition decompiles to
    the definition. *)
Lemma decompile_compiled_graph d origin :
  legallyConstructed d ->
  decompile (fst (compile d origin)) (snd (compile d origin)) (def_properties d)
  = d.
Proof.
  destruct d as [sequence properties]. intros [Htagged Hnodup].
  cbn [def_sequence] in Htagged, Hnodup.
  unfold decompile, compile. cbn [def_sequence def_properties fst snd].
  set (triggers := configuredTriggers properties).
  set (path := compilePath origin false sequence "end").
  assert (Hkinds : forall d, In d triggers -> In (step_id d) TRIGGER_IDS)
    by apply configuredTriggers_kinds.
  assert (Hdistinct : NoDup (pathIds sequence))
    by (apply NoDup_app in Hnodup as (_ & _ & Hpath); exact Hpath).
  assert (Hend : ~ In "end"%string (pathIds sequence)).
  { apply (reserved_not_in_path _ _ Hnodup). vm_compute. tauto. }
  rewrite follow_head.
  change (edgeBetween "start" "trigger_start" None
            :: laneEdges triggers
            ++ edgeBetween "trigger_end" (entry sequence "end") None :: snd path)
    with ((edgeBetween "start" "trigger_start" None :: laneEdges triggers)
            ++ edgeBetween "trigger_end" (entry sequence "end") None :: snd path).
  rewrite follow_skip, follow_head.
  2:{ intros e [<- | He]; [discriminate |].
      apply (laneEdges_sources _ _ Hkinds) in He. intros Heq.
      rewrite Heq in He. vm_compute in He.
      repeat (destruct He as [He | He]; [discriminate He |]). exact He. }
  f_equal.
  set (preNodes := [nodeFor origin false (sentinel "start");
                    nodeFor origin false (sentinel "trigger_start")]
                   ++ map (nodeFor origin false) triggers
                   ++ [nodeFor origin false (sentinel "trigger_end")]).
  set (preEdges := (edgeBetween "start" "trigger_start" None :: laneEdges triggers)
                   ++ [edgeBetween "trigger_end" (entry sequence "end") None]).
  assert (HpreNodes : forall m, In m preNodes -> In (node_id m) reservedIds).
  { intros m Hm. unfold preNodes in Hm. rewrite !in_app_iff in Hm.
    destruct Hm as [[<- | [<- | []]] | [Hm | [<- | []]]];
      try (vm_compute; tauto).
    apply in_map_iff in Hm as (d & <- & Hd).
    unfold reservedIds. apply in_or_app. right. apply Hkinds, Hd. }
  assert (HpreEdges : forall e, In e preEdges -> In (edge_source e) reservedIds).
  { intros e He. unfold preEdges in He. rewrite in_app_iff in He.
    destruct He as [[<- | He] | [<- | []]]; try (vm_compute; tauto).
    apply lane_reserved, (laneEdges_sources _ _ Hkinds), He. }
  apply (walk_path origin _ (fst path) _ (snd path)) with (nested := false).
  - apply Forall_forall. intros s _. apply walk_step.
    + intros n Hn.
      change (nodeFor origin false (sentinel "start")
                :: nodeFor origin false (sentinel "trigger_start")
                :: map (nodeFor origin false) triggers
                ++ nodeFor origin false (sentinel "trigger_end")
                :: fst path ++ [nodeFor origin false (sentinel "end")])
        with ([nodeFor origin false (sentinel "start");
               nodeFor origin false (sentinel "trigger_start")]
                ++ map (nodeFor origin false) triggers
                ++ [nodeFor origin false (sentinel "trigger_end")]
                ++ fst path ++ [nodeFor origin false (sentinel "end")]).
      rewrite !app_assoc. rewrite <- (app_assoc _ (fst path)).
      rewrite <- !app_assoc. rewrite (app_assoc (map _ _)), (app_assoc [_; _]).
      fold preNodes.
      assert (Hid : In (node_id n) (pathIds sequence)).
      { rewrite <- (compilePath_ids origin false sequence "end").
        apply in_map, Hn. }
      rewrite find_app_none.
      * apply (find_by_key node_id).
        -- rewrite map_app. unfold path.
           rewrite (compilePath_ids origin false). simpl.
           apply NoDup_app. split; [exact Hdistinct |].
           split; [| apply NoDup_singleton].
           intros x Hx Hx'. apply list_elem_of_singleton in Hx' as ->.
           apply Hend, list_elem_of_In, Hx.
        -- apply in_or_app. left. exact Hn.
        -- apply String.eqb_refl.
        -- intros b Hb. apply String.eqb_eq, Hb.
      * intros m Hm. apply String.eqb_neq. intros Heq.
        apply (reserved_not_in_path _ _ Hnodup (HpreNodes m Hm)).
        rewrite Heq. exact Hid.
    + intros e He.
      change ((edgeBetween "start" "trigger_start" None :: laneEdges triggers)
                ++ edgeBetween "trigger_end" (entry sequence "end") None
                :: snd path)
        with ((edgeBetween "start" "trigger_start" None :: laneEdges triggers)
                ++ [edgeBetween "trigger_end" (entry sequence "end") None]
                ++ snd path).
      rewrite app_assoc. fold preEdges.
      assert (Hsource : In (edge_source e) (pathIds sequence))
        by (eapply compilePath_sources, He).
      unfold follow. rewrite find_app_none.
      * rewrite (find_by_key edgeKey _ _ e); [reflexivity | | exact He | |].
        -- apply compilePath_keys; [| exact Hdistinct].
           apply Forall_forall. intros s' _. apply compileStep_keys.
        -- rewrite String.eqb_refl, bool_decide_eq_true_2 by reflexivity.
           reflexivity.
        -- intros b Hb. apply andb_true_iff in Hb as [Hs Hl].
           apply String.eqb_eq in Hs. apply bool_decide_eq_true_1 in Hl.
           unfold edgeKey. congruence.
      * intros m Hm. apply andb_false_iff. left. apply String.eqb_neq.
        intros Heq.
        apply (reserved_not_in_path _ _ Hnodup (HpreEdges m Hm)).
        rewrite Heq. exact Hsource.
  - apply incl_refl.
  - apply incl_refl.
  - exact Htagged.
  - exact Hdistinct.
  - exact Hend.
  - rewrite <- (compilePath_ids origin false sequence "end"), length_map.
    fold path. simpl. rewrite length_app. simpl. rewrite length_app. lia.
Qed.

(** C7: for a definition that is legally constructed, decompiling the
    graph compiled from it gives the definition back, its sequence and its
    properties.  Positions and layouted flags do not count: decompiling
    the compiled graph after a layout pass gives the same sequence, up to
    the layouted flags, and the same properties. *)
Theorem decompile_compile d origin :
  legallyConstructed d ->
  decompile (fst (compile d origin)) (snd (compile d origin)) (def_properties d)
  = d
  /\ forall out,
       keepsContent (fst (compile d origin)) (snd (compile d origin)) out ->
       map withoutLayoutFlag
         (def_sequence
            (decompile (map layoutNode (fst out)) (map layoutEdge (snd out))
               (def_properties d)))
       = map withoutLayoutFlag (def_sequence d)
       /\ def_properties
            (decompile (map layoutNode (fst out)) (map layoutEdge (snd out))
               (def_properties d))
          = def_properties d.
Proof.
  intros Hlegal.
  pose proof (decompile_compiled_graph d origin Hlegal) as Hexact.
  split; [exact Hexact |].
  intros out [Hnodes Hedges]. split; [| reflexivity].
  transitivity
    (map withoutLayoutFlag
       (def_sequence
          (decompile (fst (compile d origin)) (snd (compile d origin))
             (def_properties d))));
    [| rewrite Hexact; reflexivity].
  apply decompile_withoutLayout.
  - apply withoutLayout_layouted, Hnodes.
  - intros source label. rewrite Hedges. apply follow_layoutEdge.
Qed.

Lemma decompile_compile_witness :
  legallyConstructed nestedDefinition
  /\ decompile (fst (compile nestedDefinition origin))
       (snd (compile nestedDefinition origin)) (def_properties nestedDefinition)
     = nestedDefinition.
Proof.
  assert (Hlegal : legallyConstructed nestedDefinition).
  { split; [vm_compute; reflexivity |].
    apply (bool_decide_eq_true_1
             (NoDup (reservedIds ++ pathIds (def_sequence nestedDefinition)))).
    vm_compute. reflexivity. }
  split; [exact Hlegal |].
  apply (proj1 (decompile_compile nestedDefinition origin Hlegal)).
Defined.

(** * More of the store *)

(** ** Runs of the commands, written out *)

Section Runs.
Context `{Collaborators}.

Lemma with_v2Properties_same st : with_v2Properties (v2Properties st) st = st.
Proof. destruct st; reflexivity. Qed.

Lemma seedTriggerProperties_run newNodeId newStep st :
  seedTriggerProperties newNodeId newStep st
  = (Returned tt,
     with_v2Properties (seededProperties newNodeId newStep (v2Properties st)) st).
Proof.
  unfold seedTriggerProperties, seededProperties.
  destruct (String.eqb newNodeId "interval" || String.eqb newNodeId "manual");
    [reflexivity |].
  destruct (String.eqb newNodeId "alert" || String.eqb newNodeId "incident");
    [reflexivity |].
  rewrite with_v2Properties_same. reflexivity.
Qed.

(** The definition that [updateDefinition] rebuilds from the store. *)
Lemma updateDefinition_explicit st :
  updateDefinition st
  = (Returned tt,
     let d :=
       mkWfDefinition
         (fst (reConstructWorklowToDefinition (nodes st) (edges st) (v2Properties st)))
         (snd (reConstructWorklowToDefinition (nodes st) (edges st) (v2Properties st))) in
     with_isEditorSyncedWithNodes true
       (with_canDeploy (res_canDeploy (validateDefinition st d))
          (with_validationErrors (res_validationErrors (validateDefinition st d))
             (with_definition
                (Some (wrapDefinitionV2 d (res_isValid (validateDefinition st d))))
                st)))).
Proof.
  unfold updateDefinition, bind, get.
  destruct (reConstructWorklowToDefinition _ _ _) as [sequence newProperties].
  reflexivity.
Qed.

Lemma fold_left_ext {A B} (f g : A -> B -> A) (l : list B) (a : A) :
  (forall a b, f a b = g a b) -> fold_left f l a = fold_left g l a.
Proof.
  intros Hfg. revert a. induction l as [| b l IH]; intros a; [reflexivity |].
  simpl. rewrite Hfg. apply IH.
Qed.

(** Validation reads the providers and the secrets of the store, nothing
    else. *)
Lemma validateDefinition_frame st1 st2 d :
  providers st1 = providers st2 ->
  installedProviders st1 = installedProviders st2 ->
  secrets st1 = secrets st2 ->
  validateDefinition st1 d = validateDefinition st2 d.
Proof.
  intros Hp Hi Hs. unfold validateDefinition.
  assert (Hnested : forall acc s, validateNested st1 d acc s = validateNested st2 d acc s).
  { intros acc s. unfold validateNested. rewrite Hp, Hi, Hs. reflexivity. }
  assert (Hstep : forall acc s, validateStep st1 d acc s = validateStep st2 d acc s).
  { intros acc s. unfold validateStep. rewrite Hp, Hi, Hs.
    destruct s as [? | ? t f | ? q]; try reflexivity;
      rewrite (fold_left_ext _ _ _ _ Hnested); reflexivity. }
  rewrite (fold_left_ext _ _ _ _ Hstep). reflexivity.
Qed.

Lemma settled_frame st1 st2 :
  nodes st1 = nodes st2 -> edges st1 = edges st2 ->
  v2Properties st1 = v2Properties st2 ->
  providers st1 = providers st2 ->
  installedProviders st1 = installedProviders st2 ->
  secrets st1 = secrets st2 ->
  definition st1 = definition st2 ->
  validationErrors st1 = validationErrors st2 ->
  canDeploy st1 = canDeploy st2 ->
  isEditorSyncedWithNodes st1 = isEditorSyncedWithNodes st2 ->
  settled st1 -> settled st2.
Proof.
  intros Hn He Hv Hp Hi Hs Hd Hve Hc Hsy. unfold settled.
  rewrite <- Hn, <- He, <- Hv, <- Hd, <- Hve, <- Hc, <- Hsy.
  cbv zeta.
  set (d := mkWfDefinition _ _).
  rewrite <- (validateDefinition_frame st1 st2 d Hp Hi Hs). tauto.
Qed.

Lemma updateDefinition_settles st : settled (snd (updateDefinition st)).
Proof.
  rewrite updateDefinition_explicit. cbn [snd]. cbv zeta.
  set (d := mkWfDefinition _ _).
  unfold settled. cbn. fold d.
  rewrite (validateDefinition_frame (with_isEditorSyncedWithNodes _ _) st d);
    try reflexivity.
  repeat split.
Qed.

(** What [updateDefinition] and the layout pass leave alone. *)
Lemma updateDefinition_frame st :
  fst (updateDefinition st) = Returned tt
  /\ nodes (snd (updateDefinition st)) = nodes st
  /\ edges (snd (updateDefinition st)) = edges st
  /\ v2Properties (snd (updateDefinition st)) = v2Properties st
  /\ selectedNode (snd (updateDefinition st)) = selectedNode st
  /\ selectedEdge (snd (updateDefinition st)) = selectedEdge st
  /\ editorOpen (snd (updateDefinition st)) = editorOpen st
  /\ isLayouted (snd (updateDefinition st)) = isLayouted st
  /\ changes (snd (updateDefinition st)) = changes st
  /\ lastChangedAt (snd (updateDefinition st)) = lastChangedAt st
  /\ providers (snd (updateDefinition st)) = providers st
  /\ installedProviders (snd (updateDefinition st)) = installedProviders st
  /\ secrets (snd (updateDefinition st)) = secrets st.
Proof. rewrite updateDefinition_explicit. repeat split. Qed.

Lemma onLayout_down_frame st :
  fst (onLayout layoutDown st) = Returned tt
  /\ (nodes (snd (onLayout layoutDown st)), edges (snd (onLayout layoutDown st)))
     = layoutedElements (nodes st) (edges st) "DOWN"
  /\ isLayouted (snd (onLayout layoutDown st)) = true
  /\ v2Properties (snd (onLayout layoutDown st)) = v2Properties st
  /\ selectedNode (snd (onLayout layoutDown st)) = selectedNode st
  /\ selectedEdge (snd (onLayout layoutDown st)) = selectedEdge st
  /\ editorOpen (snd (onLayout layoutDown st)) = editorOpen st
  /\ changes (snd (onLayout layoutDown st)) = changes st
  /\ lastChangedAt (snd (onLayout layoutDown st)) = lastChangedAt st
  /\ providers (snd (onLayout layoutDown st)) = providers st
  /\ installedProviders (snd (onLayout layoutDown st)) = installedProviders st
  /\ secrets (snd (onLayout layoutDown st)) = secrets st.
Proof.
  rewrite onLayout_down_run. cbn. rewrite <- surjective_pairing. repeat split.
Qed.

(** The end of every structural command: the layout pass, then the new
    definition. *)
Lemma layout_then_definition {A} (a : A) st :
  exists st',
    (run! onLayout layoutDown in run! updateDefinition in ret a) st
    = (Returned a, st')
    /\ (nodes st', edges st') = layoutedElements (nodes st) (edges st) "DOWN"
    /\ isLayouted st' = true
    /\ v2Properties st' = v2Properties st
    /\ selectedNode st' = selectedNode st
    /\ selectedEdge st' = selectedEdge st
    /\ editorOpen st' = editorOpen st
    /\ changes st' = changes st
    /\ lastChangedAt st' = lastChangedAt st
    /\ settled st'.
Proof.
  destruct (onLayout_down_frame st)
    as (Hl & Hlg & Hli & Hlv & Hln & Hle & Hlo & Hlc & Hlt & _).
  destruct (updateDefinition_frame (snd (onLayout layoutDown st)))
    as (Hu & Hun & Hue & Huv & Husn & Huse & Huo & Hui & Huc & Hut & _).
  exists (snd (updateDefinition (snd (onLayout layoutDown st)))).
  split.
  - unfold bind at 1.
    rewrite (surjective_pairing (onLayout layoutDown st)), Hl.
    unfold bind at 1.
    rewrite (surjective_pairing (updateDefinition _)), Hu. reflexivity.
  - rewrite Hun, Hue, Huv, Husn, Huse, Huo, Hui, Huc, Hut.
    do 8 (split; [assumption |]). apply updateDefinition_settles.
Qed.

Lemma bind_returned {A B} (c : Cmd A) (k : A -> Cmd B) st b st' :
  bind c k st = (Returned b, st') ->
  exists a st1, c st = (Returned a, st1) /\ k a st1 = (Returned b, st').
Proof.
  unfold bind. destruct (c st) as [[a | e] st1]; [| discriminate].
  intros Hk. exists a, st1. split; [reflexivity | exact Hk].
Qed.

Lemma throw_if_returned (c : bool) e st st1 (u : unit) :
  throw_if c e st = (Returned u, st1) -> c = false /\ st1 = st.
Proof.
  destruct c; [discriminate |]. intros Heq. split; [reflexivity |].
  unfold throw_if, ret in Heq. congruence.
Qed.

Lemma bind_throw_if_returned {B} (c : bool) e (k : unit -> Cmd B) st b st' :
  bind (throw_if c e) k st = (Returned b, st') ->
  c = false /\ k tt st = (Returned b, st').
Proof.
  intros Hrun. apply bind_returned in Hrun as ([] & st1 & Hc & Hk).
  apply throw_if_returned in Hc as [-> ->]. split; [reflexivity | exact Hk].
Qed.

Lemma bind_get_eq {B} (k : WorkflowStateValues -> Cmd B) st :
  bind get k st = k st st.
Proof. reflexivity. Qed.

Lemma bind_ret_eq {A B} (a : A) (k : A -> Cmd B) st : bind (ret a) k st = k a st.
Proof. reflexivity. Qed.

Lemma bind_set_eq {B} f (k : unit -> Cmd B) st : bind (set f) k st = k tt (f st).
Proof. reflexivity. Qed.

(** A successful run of [insertOnEdge], step by step: every check passed,
    and the store is the commit, seeded, laid out and settled. *)
Lemma insertOnEdge_returned isTriggerComponent step edge sourceId targetId
    uuid now st id st' :
  insertOnEdge isTriggerComponent step edge sourceId targetId uuid now st
  = (Returned id, st') ->
  exists targetIndex,
    findIndex (fun node => String.eqb (node_id node) targetId) (nodes st)
    = Some targetIndex
    /\ id = (if isTriggerComponent then step_id (data step) else uuid)
    /\ isTriggerComponent = String.eqb sourceId "trigger_start"
    /\ (isTriggerComponent = true ->
        forall node, In node (nodes st) -> node_id node <> step_id (data step))
    /\ (nodes st', edges st')
       = layoutedElements
           (take targetIndex (nodes st)
            ++ map (set_node_isNested (inheritedNested (nodes st) sourceId targetIndex))
                 (fst (processWorkflowV2
                         [tempSource sourceId edge;
                          with_data (set_step_id id (data step)) step;
                          tempTarget targetId] (mkPosition 0 0) true))
            ++ drop targetIndex (nodes st))
           (snd (processWorkflowV2
                   [tempSource sourceId edge;
                    with_data (set_step_id id (data step)) step;
                    tempTarget targetId] (mkPosition 0 0) true)
            ++ List.filter
                 (fun e => negb (String.eqb (edge_source e) sourceId
                                 && String.eqb (edge_target e) targetId))
                 (edges st))
           "DOWN"
    /\ v2Properties st'
       = seededProperties id (with_data (set_step_id id (data step)) step)
           (v2Properties st)
    /\ changes st' = changes st + 1
    /\ lastChangedAt st' = Some now
    /\ isLayouted st' = true
    /\ selectedNode st' = selectedNode st
    /\ selectedEdge st' = selectedEdge st
    /\ editorOpen st' = editorOpen st
    /\ settled st'.
Proof.
  intros Hrun. unfold insertOnEdge in Hrun.
  apply bind_throw_if_returned in Hrun as [_ Hrun].
  apply bind_throw_if_returned in Hrun as [_ Hrun].
  apply bind_throw_if_returned in Hrun as [_ Hrun].
  apply bind_throw_if_returned in Hrun as [_ Hrun].
  apply bind_throw_if_returned in Hrun as [_ Hrun].
  apply bind_throw_if_returned in Hrun as [Hlane1 Hrun].
  apply bind_throw_if_returned in Hrun as [Hlane2 Hrun].
  apply bind_throw_if_returned in Hrun as [_ Hrun].
  rewrite bind_get_eq in Hrun.
  apply bind_throw_if_returned in Hrun as [Hdup Hrun].
  destruct (findIndex (fun node => String.eqb (node_id node) targetId) (nodes st))
    as [targetIndex |] eqn:Hfind; [| discriminate Hrun].
  rewrite bind_ret_eq, bind_get_eq in Hrun.
  set (newNodeId := if isTriggerComponent then step_id (data step) else uuid) in *.
  destruct (processWorkflowV2 _ _ _) as [newNodes newEdges] eqn:Hmade.
  rewrite bind_set_eq in Hrun.
  apply bind_returned in Hrun as ([] & st5 & Hseed & Hrun).
  rewrite seedTriggerProperties_run in Hseed. injection Hseed as <-.
  match type of Hrun with
  | _ ?s = _ => destruct (layout_then_definition newNodeId s)
      as (st6 & Hrun' & Hgraph & Hlayouted & Hprops & Hsn & Hse & Ho & Hc & Ht & Hsettled)
  end.
  rewrite Hrun' in Hrun. injection Hrun as <- <-.
  exists targetIndex. split; [reflexivity |]. split; [reflexivity |].
  split.
  { destruct isTriggerComponent, (String.eqb sourceId "trigger_start");
      simpl in Hlane1, Hlane2; congruence. }
  split.
  { intros -> node Hin Heq. simpl in Hdup.
    assert (Hex : existsb (fun node => String.eqb (step_id (data step)) (node_id node))
                    (nodes st) = true).
    { apply existsb_exists. exists node. split; [exact Hin |].
      rewrite Heq. apply String.eqb_refl. }
    congruence. }
  split.
  { rewrite Hmade. unfold inheritedNested.
    unfold slice in Hgraph. rewrite Nat.sub_0_r in Hgraph. exact Hgraph. }
  rewrite Hprops, Hc, Ht, Hsn, Hse, Ho.
  do 7 (split; [first [assumption | reflexivity] |]). exact Hsettled.
Qed.


(** A successful run of [addNodeBetween]: the payload parsed, the anchor
    named an edge, and the step went in between its endpoints. *)
Lemma addNodeBetween_returned nodeOrEdgeId rawStep type uuid now st id st' :
  addNodeBetween nodeOrEdgeId rawStep type uuid now st = (Returned id, st') ->
  exists step edge,
    (if isTriggerPayload rawStep then V2StepTriggerSchema_parse rawStep
     else V2StepTemplateSchema_parse rawStep) = Some step
    /\ findAnchorEdge nodeOrEdgeId type (edges st) = Some edge
    /\ insertOnEdge (isTriggerPayload rawStep) step edge
         (fst (insertionEndpoints edge)) (snd (insertionEndpoints edge))
         uuid now st
       = (Returned id, st').
Proof.
  intros Hrun. unfold addNodeBetween in Hrun.
  apply bind_throw_if_returned in Hrun as [_ Hrun].
  apply bind_throw_if_returned in Hrun as [_ Hrun].
  destruct (if isTriggerPayload rawStep then V2StepTriggerSchema_parse rawStep
            else V2StepTemplateSchema_parse rawStep) as [step |] eqn:Hparse;
    [| discriminate Hrun].
  rewrite bind_ret_eq, bind_get_eq in Hrun.
  destruct (findAnchorEdge nodeOrEdgeId type (edges st)) as [edge |] eqn:Hanchor;
    [| discriminate Hrun].
  rewrite bind_ret_eq in Hrun.
  exists step, edge. split; [reflexivity |]. split; [reflexivity |].
  destruct (insertionEndpoints edge) as [sourceId targetId]. exact Hrun.
Qed.

(** X1: a call of [addNodeBetween] that returns has parsed the payload
    and found the edge of its anchor.  A trigger payload went on an edge
    out of [trigger_start], any other payload on an edge that does not
    leave it.  The id returned is the id of the trigger step for a
    trigger, the fresh uuid for any other step, and no node of the graph
    carried the id of the trigger. *)
Theorem addNodeBetween_returned_id nodeOrEdgeId rawStep type uuid now st id st' :
  addNodeBetween nodeOrEdgeId rawStep type uuid now st = (Returned id, st') ->
  exists step edge,
    (if isTriggerPayload rawStep then V2StepTriggerSchema_parse rawStep
     else V2StepTemplateSchema_parse rawStep) = Some step
    /\ findAnchorEdge nodeOrEdgeId type (edges st) = Some edge
    /\ isTriggerPayload rawStep = String.eqb (edge_source edge) "trigger_start"
    /\ id = (if isTriggerPayload rawStep then step_id (data step) else uuid)
    /\ (isTriggerPayload rawStep = true ->
        forall node, In node (nodes st) -> node_id node <> id).
Proof.
  intros Hrun.
  apply addNodeBetween_returned in Hrun as (step & edge & Hparse & Hanchor & Hrun).
  apply insertOnEdge_returned in Hrun
    as (targetIndex & _ & Hid & Hlane & Hfresh & _).
  exists step, edge. do 4 (split; [assumption |]).
  intros Htrigger. rewrite Hid, Htrigger. apply Hfresh, Htrigger.
Qed.

(** X2: the graph that a successful insert leaves is the layout of this
    graph: the node list with the nodes that [processWorkflowV2] makes of
    the scaffold spliced in at the index of the target node, each flagged
    nested as the target node or the source node is; and the edges of the
    scaffold, followed by the old edges without those from the source to
    the target of the insertion. *)
Theorem addNodeBetween_splices nodeOrEdgeId rawStep type uuid now st id st' :
  addNodeBetween nodeOrEdgeId rawStep type uuid now st = (Returned id, st') ->
  exists step edge targetIndex made,
    (if isTriggerPayload rawStep then V2StepTriggerSchema_parse rawStep
     else V2StepTemplateSchema_parse rawStep) = Some step
    /\ findAnchorEdge nodeOrEdgeId type (edges st) = Some edge
    /\ findIndex
         (fun node => String.eqb (node_id node) (snd (insertionEndpoints edge)))
         (nodes st)
       = Some targetIndex
    /\ made
       = processWorkflowV2
           [tempSource (edge_source edge) edge;
            with_data (set_step_id id (data step)) step;
            tempTarget (snd (insertionEndpoints edge))]
           (mkPosition 0 0) true
    /\ (nodes st', edges st')
       = layoutedElements
           (take targetIndex (nodes st)
            ++ map (set_node_isNested
                      (inheritedNested (nodes st) (edge_source edge) targetIndex))
                 (fst made)
            ++ drop targetIndex (nodes st))
           (snd made
            ++ List.filter
                 (fun e => negb (String.eqb (edge_source e) (edge_source edge)
                                 && String.eqb (edge_target e)
                                      (snd (insertionEndpoints edge))))
                 (edges st))
           "DOWN".
Proof.
  intros Hrun.
  apply addNodeBetween_returned in Hrun as (step & edge & Hparse & Hanchor & Hrun).
  apply insertOnEdge_returned in Hrun
    as (targetIndex & Hfind & _ & _ & _ & Hgraph & _).
  exists step, edge, targetIndex. eexists.
  do 3 (split; [eassumption |]). split; [reflexivity |]. exact Hgraph.
Qed.

Lemma seededProperties_other newNodeId newStep properties k :
  k <> newNodeId ->
  seededProperties newNodeId newStep properties !! k = properties !! k.
Proof.
  intros Hne. unfold seededProperties.
  destruct (_ || _); [apply lookup_insert_ne; congruence |].
  destruct (_ || _); [apply lookup_insert_ne; congruence | reflexivity].
Qed.

Lemma seededProperties_trigger newNodeId newStep properties :
  In newNodeId TRIGGER_IDS ->
  seededProperties newNodeId newStep properties !! newNodeId
  = Some (seedProperty newStep newNodeId
            (if String.eqb newNodeId "interval" || String.eqb newNodeId "manual"
             then JStr "" else JObj [])).
Proof.
  intros Hin. unfold seededProperties.
  destruct (String.eqb newNodeId "interval" || String.eqb newNodeId "manual")
    eqn:Hfirst; [apply lookup_insert_eq |].
  destruct (String.eqb newNodeId "alert" || String.eqb newNodeId "incident")
    eqn:Hsecond; [apply lookup_insert_eq |].
  exfalso. simpl in Hin.
  destruct Hin as [<- | [<- | [<- | [<- | []]]]]; discriminate.
Qed.

Lemma seededProperties_plain newNodeId newStep properties :
  ~ In newNodeId TRIGGER_IDS ->
  seededProperties newNodeId newStep properties = properties.
Proof.
  intros Hout. unfold seededProperties.
  destruct (String.eqb_spec newNodeId "interval");
    [exfalso; apply Hout; subst; simpl; tauto |].
  destruct (String.eqb_spec newNodeId "manual");
    [exfalso; apply Hout; subst; simpl; tauto |].
  destruct (String.eqb_spec newNodeId "alert");
    [exfalso; apply Hout; subst; simpl; tauto |].
  destruct (String.eqb_spec newNodeId "incident");
    [exfalso; apply Hout; subst; simpl; tauto |].
  reflexivity.
Qed.

(** X3: a successful insert changes the properties map under the id of
    the new node at most.  An id that is no trigger kind leaves the map as
    it was.  A trigger kind is set to what the step holds under its own id
    in its properties, and when it holds nothing there, to the empty
    string for [interval] and [manual] and to the empty object for [alert]
    and [incident]. *)
Theorem addNodeBetween_seeds_properties
    nodeOrEdgeId rawStep type uuid now st id st' :
  addNodeBetween nodeOrEdgeId rawStep type uuid now st = (Returned id, st') ->
  (forall k, k <> id -> v2Properties st' !! k = v2Properties st !! k)
  /\ (~ In id TRIGGER_IDS -> v2Properties st' = v2Properties st)
  /\ (In id TRIGGER_IDS ->
      exists step,
        (if isTriggerPayload rawStep then V2StepTriggerSchema_parse rawStep
         else V2StepTemplateSchema_parse rawStep) = Some step
        /\ v2Properties st' !! id
           = Some (nullish
                     (match step_properties (data step) with
                      | Some props => props !! id
                      | None => None
                      end)
                     (if String.eqb id "interval" || String.eqb id "manual"
                      then JStr "" else JObj []))).
Proof.
  intros Hrun.
  apply addNodeBetween_returned in Hrun as (step & edge & Hparse & Hanchor & Hrun).
  apply insertOnEdge_returned in Hrun
    as (targetIndex & _ & _ & _ & _ & _ & Hprops & _).
  rewrite Hprops. split; [| split].
  - intros k Hne. apply seededProperties_other, Hne.
  - apply seededProperties_plain.
  - intros Hin. exists step. split; [exact Hparse |].
    rewrite (seededProperties_trigger _ _ _ Hin). unfold seedProperty.
    destruct step; reflexivity.
Qed.

(** X4: when the store method [addNodeBetween] returns, the new node is
    selected and no edge is, the editor is open or closed as before, one
    change is counted and dated with the time of the call, the graph is
    laid out, and the definition, the findings and the deploy flag are
    those of the new graph. *)
Theorem addNodeBetween_method_returned
    nodeOrEdgeId rawStep type uuid now st id st' :
  addNodeBetween_method nodeOrEdgeId rawStep type uuid now st
  = (Returned id, st') ->
  selectedNode st' = Some id
  /\ selectedEdge st' = None
  /\ editorOpen st' = editorOpen st
  /\ changes st' = changes st + 1
  /\ lastChangedAt st' = Some now
  /\ isLayouted st' = true
  /\ settled st'.
Proof.
  intros Hrun. unfold addNodeBetween_method in Hrun.
  apply bind_returned in Hrun as (newNodeId & st1 & Hinsert & Hrun).
  rewrite bind_set_eq in Hrun. injection Hrun as <- <-.
  apply addNodeBetween_returned in Hinsert
    as (step & edge & _ & _ & Hinsert).
  apply insertOnEdge_returned in Hinsert
    as (targetIndex & _ & _ & _ & _ & _ & _ & Hc & Ht & Hl & _ & _ & Ho & Hsettled).
  do 2 (split; [reflexivity |]).
  do 4 (split; [assumption |]).
  revert Hsettled. apply settled_frame; reflexivity.
Qed.

(** X5: [addNodeBetweenSafe] never throws.  It returns [null] when the
    insert threw, and the store is then as it was; it returns an id
    exactly when the store method [addNodeBetween] returns that id, and
    leaves the store that the method leaves. *)
Theorem addNodeBetweenSafe_never_throws nodeOrEdgeId step type uuid now st :
  exists result st',
    addNodeBetweenSafe nodeOrEdgeId step type uuid now st
    = (Returned result, st')
    /\ (result = None -> st' = st)
    /\ (forall id,
          result = Some id <->
          addNodeBetween_method nodeOrEdgeId step type uuid now st
          = (Returned id, st')).
Proof.
  unfold addNodeBetweenSafe.
  destruct (addNodeBetween_method nodeOrEdgeId step type uuid now st)
    as [[newNodeId | e] st1] eqn:Hrun.
  - exists (Some newNodeId), st1. split; [reflexivity |].
    split; [discriminate |]. intros id. split; congruence.
  - exists None, st1. split; [reflexivity |].
    apply clean_addNodeBetween_method in Hrun as [-> _].
    split; [reflexivity |]. intros id. split; discriminate.
Qed.

End Runs.

(** The witnesses insert an alert trigger and a Slack action into the
    store of [linearDefinition]. *)

Lemma addNodeBetween_returned_id_witness :
  @addNodeBetween referenceCollaborators "manual" alertTrigger AnchorNode "u1" 5
    (storeOf linearDefinition)
  = (Returned "alert"%string, alertedStore)
  /\ forall node,
       In node (nodes (storeOf linearDefinition)) ->
       node_id node <> "alert"%string.
Proof.
  assert (Hrun :
    @addNodeBetween referenceCollaborators "manual" alertTrigger AnchorNode "u1"
      5 (storeOf linearDefinition)
    = (Returned "alert"%string, alertedStore)) by (vm_compute; reflexivity).
  split; [exact Hrun |].
  destruct (@addNodeBetween_returned_id referenceCollaborators "manual"
              alertTrigger AnchorNode "u1" 5 (storeOf linearDefinition)
              "alert" alertedStore Hrun)
    as (step & edge & _ & _ & _ & _ & Hfresh).
  apply Hfresh. vm_compute; reflexivity.
Defined.

Lemma addNodeBetween_splices_witness :
  exists edge targetIndex,
    findAnchorEdge "manual" AnchorNode (edges (storeOf linearDefinition))
    = Some edge
    /\ findIndex
         (fun node => String.eqb (node_id node) (snd (insertionEndpoints edge)))
         (nodes (storeOf linearDefinition))
       = Some targetIndex.
Proof.
  destruct (@addNodeBetween_splices referenceCollaborators "manual"
              alertTrigger AnchorNode "u1" 5 (storeOf linearDefinition)
              "alert" alertedStore ltac:(vm_compute; reflexivity))
    as (step & edge & targetIndex & made & _ & Hanchor & Hfind & _).
  exists edge, targetIndex. split; assumption.
Defined.

Lemma addNodeBetween_seeds_properties_witness :
  v2Properties alertedStore !! "manual"%string
  = v2Properties (storeOf linearDefinition) !! "manual"%string.
Proof.
  apply (proj1 (@addNodeBetween_seeds_properties referenceCollaborators
                  "manual" alertTrigger AnchorNode "u1" 5
                  (storeOf linearDefinition) "alert" alertedStore
                  ltac:(vm_compute; reflexivity))).
  discriminate.
Defined.

Lemma addNodeBetween_method_returned_witness :
  selectedNode insertedStore = Some "u1"%string
  /\ selectedEdge insertedStore = None
  /\ editorOpen insertedStore = editorOpen (storeOf linearDefinition)
  /\ changes insertedStore = changes (storeOf linearDefinition) + 1
  /\ lastChangedAt insertedStore = Some 5
  /\ isLayouted insertedStore = true
  /\ @settled referenceCollaborators insertedStore.
Proof.
  apply (@addNodeBetween_method_returned referenceCollaborators "end"
           slackTemplate AnchorNode "u1" 5 (storeOf linearDefinition) "u1"
           insertedStore).
  vm_compute; reflexivity.
Defined.

(** ** The lane of an insert *)

Section Legality.
Context `{Collaborators}.

(** A run of [insertOnEdge] whose checks all pass returns. *)
Lemma insertOnEdge_runs isTriggerComponent step edge sourceId targetId uuid now
    st targetIndex :
  nonempty sourceId = true ->
  nonempty targetId = true ->
  isTriggerComponent && negb (canAddTriggerBeforeEdge sourceId targetId) = false ->
  String.eqb (step_componentType (data step)) "switch"
  && negb (canAddConditionBeforeEdge sourceId targetId) = false ->
  String.eqb (step_componentType (data step)) "container"
  && String.eqb (step_type (data step)) "foreach"
  && negb (canAddForeachBeforeEdge sourceId targetId) = false ->
  isTriggerComponent = String.eqb sourceId "trigger_start" ->
  negb isTriggerComponent && negb (canAddStepBeforeEdge sourceId targetId) = false ->
  isTriggerComponent
  && existsb (fun node => String.eqb (step_id (data step)) (node_id node))
       (nodes st) = false ->
  findIndex (fun node => String.eqb (node_id node) targetId) (nodes st)
  = Some targetIndex ->
  exists st',
    insertOnEdge isTriggerComponent step edge sourceId targetId uuid now st
    = (Returned (if isTriggerComponent then step_id (data step) else uuid), st').
Proof.
  intros Hs Ht Htrigger Hswitch Hforeach Hlane Hstep Hdup Hfind.
  unfold insertOnEdge.
  rewrite Hs, Ht, Htrigger, Hswitch, Hforeach, Hstep. simpl negb.
  assert (Hlane1 : negb (String.eqb sourceId "trigger_start") && isTriggerComponent
                   = false).
  { rewrite Hlane. destruct (String.eqb sourceId "trigger_start"); reflexivity. }
  assert (Hlane2 : String.eqb sourceId "trigger_start" && negb isTriggerComponent
                   = false).
  { rewrite Hlane. destruct (String.eqb sourceId "trigger_start"); reflexivity. }
  rewrite Hlane1, Hlane2. unfold throw_if.
  rewrite !bind_ret_eq, bind_get_eq, Hdup, bind_ret_eq, Hfind, bind_ret_eq,
    bind_get_eq.
  destruct (processWorkflowV2 _ _ _) as [newNodes newEdges].
  rewrite bind_set_eq.
  unfold bind at 1. rewrite seedTriggerProperties_run.
  match goal with
  | |- exists st', _ ?s = _ =>
      destruct (layout_then_definition
                  (if isTriggerComponent then step_id (data step) else uuid) s)
        as (st' & Hrun & _)
  end.
  exists st'. exact Hrun.
Qed.

(** C5: on the edge that the anchor names, a trigger step is rejected when
    the edge does not leave [trigger_start], and a step that is no trigger
    is rejected when it does.  A trigger on an edge that leaves
    [trigger_start] is inserted in front of [trigger_end], whatever the
    target of the edge: the legality checks, the scaffold and the index of
    the splice take [trigger_end] as the target, the edges from
    [trigger_start] to [trigger_end] are the ones replaced, and the call
    returns the id of the trigger whenever a trigger may go between
    [trigger_start] and [trigger_end], no node has its id and
    [trigger_end] is a node of the graph. *)
Theorem edge_type_legality
    nodeOrEdgeId rawStep type uuid now st step edge :
  (if isTriggerPayload rawStep then V2StepTriggerSchema_parse rawStep
   else V2StepTemplateSchema_parse rawStep) = Some step ->
  findAnchorEdge nodeOrEdgeId type (edges st) = Some edge ->
  (isTriggerPayload rawStep = true ->
   String.eqb (edge_source edge) "trigger_start" = false ->
   exists message,
     addNodeBetween nodeOrEdgeId rawStep type uuid now st
     = (Thrown (KeepWorkflowStoreError message), st))
  /\ (isTriggerPayload rawStep = false ->
      String.eqb (edge_source edge) "trigger_start" = true ->
      exists message,
        addNodeBetween nodeOrEdgeId rawStep type uuid now st
        = (Thrown (KeepWorkflowStoreError message), st))
  /\ (isTriggerPayload rawStep = true ->
      String.eqb (edge_source edge) "trigger_start" = true ->
      nonempty nodeOrEdgeId = true ->
      snd (insertionEndpoints edge) = "trigger_end"%string
      /\ addNodeBetween nodeOrEdgeId rawStep type uuid now st
         = insertOnEdge true step edge (edge_source edge) "trigger_end" uuid now st
      /\ (forall id st',
            addNodeBetween nodeOrEdgeId rawStep type uuid now st
            = (Returned id, st') ->
            id = step_id (data step)
            /\ canAddTriggerBeforeEdge "trigger_start" "trigger_end" = true
            /\ exists targetIndex,
                 findIndex
                   (fun node => String.eqb (node_id node) "trigger_end")
                   (nodes st)
                 = Some targetIndex
                 /\ (nodes st', edges st')
                    = layoutedElements
                        (take targetIndex (nodes st)
                         ++ map (set_node_isNested
                                   (inheritedNested (nodes st) "trigger_start"
                                      targetIndex))
                              (fst (processWorkflowV2
                                      [tempSource "trigger_start" edge;
                                       with_data
                                         (set_step_id (step_id (data step))
                                            (data step)) step;
                                       tempTarget "trigger_end"]
                                      (mkPosition 0 0) true))
                         ++ drop targetIndex (nodes st))
                        (snd (processWorkflowV2
                                [tempSource "trigger_start" edge;
                                 with_data
                                   (set_step_id (step_id (data step))
                                      (data step)) step;
                                 tempTarget "trigger_end"]
                                (mkPosition 0 0) true)
                         ++ List.filter
                              (fun e =>
                                 negb (String.eqb (edge_source e) "trigger_start"
                                       && String.eqb (edge_target e)
                                            "trigger_end"))
                              (edges st))
                        "DOWN")
      /\ (canAddTriggerBeforeEdge "trigger_start" "trigger_end" = true ->
          step_componentType (data step) = "trigger"%string ->
          (forall node, In node (nodes st) -> node_id node <> step_id (data step)) ->
          (exists node, In node (nodes st) /\ node_id node = "trigger_end"%string) ->
          exists st',
            addNodeBetween nodeOrEdgeId rawStep type uuid now st
            = (Returned (step_id (data step)), st'))).
Proof.
  intros Hparse Hanchor. split; [| split].
  - intros Htrigger Hsource.
    change (rejects (addNodeBetween nodeOrEdgeId rawStep type uuid now) st).
    unfold addNodeBetween. do 2 reject_step.
    rewrite Hparse, Htrigger. do 2 reject_step. rewrite Hanchor. reject_step.
    unfold insertionEndpoints. rewrite Hsource. unfold insertOnEdge.
    do 6 reject_step.
    rewrite Hsource in *. discriminate.
  - intros Htrigger Hsource.
    change (rejects (addNodeBetween nodeOrEdgeId rawStep type uuid now) st).
    unfold addNodeBetween. do 2 reject_step.
    rewrite Hparse, Htrigger. do 2 reject_step. rewrite Hanchor. reject_step.
    unfold insertionEndpoints. rewrite Hsource. unfold insertOnEdge.
    do 7 reject_step.
    rewrite Hsource in *. discriminate.
  - intros Htrigger Hsource Hid.
    assert (Hredirect : snd (insertionEndpoints edge) = "trigger_end"%string).
    { unfold insertionEndpoints. rewrite Hsource. reflexivity. }
    assert (Hsame :
      addNodeBetween nodeOrEdgeId rawStep type uuid now st
      = insertOnEdge true step edge (edge_source edge) "trigger_end" uuid now st).
    { unfold addNodeBetween.
      assert (Htruthy : truthy rawStep = true).
      { unfold isTriggerPayload, jget in Htrigger.
        destruct rawStep; try discriminate Htrigger. reflexivity. }
      rewrite Htruthy, Hid, Hparse, Htrigger.
      unfold bind at 1 2 3 4 5. simpl. rewrite Hanchor.
      unfold ret. unfold insertionEndpoints. rewrite Hsource. reflexivity. }
    pose proof Hsource as Hstart. apply String.eqb_eq in Hstart.
    split; [exact Hredirect |]. split; [exact Hsame |]. rewrite Hsame, Hstart.
    split.
    + intros id st' Hrun.
      assert (Hallowed : canAddTriggerBeforeEdge "trigger_start" "trigger_end"
                         = true).
      { unfold insertOnEdge in Hrun.
        apply bind_throw_if_returned in Hrun as [_ Hrun].
        apply bind_throw_if_returned in Hrun as [_ Hrun].
        apply bind_throw_if_returned in Hrun as [Hcan _].
        simpl in Hcan. apply negb_false_iff in Hcan. exact Hcan. }
      apply insertOnEdge_returned in Hrun
        as (targetIndex & Hfind & -> & _ & _ & Hgraph & _).
      split; [reflexivity |]. split; [exact Hallowed |].
      exists targetIndex. split; [exact Hfind | exact Hgraph].
    + intros Hallowed Hkind Hfresh (node & Hin & Hnode).
      assert (Hfind : exists targetIndex,
                findIndex (fun node => String.eqb (node_id node) "trigger_end")
                  (nodes st) = Some targetIndex).
      { clear Hfresh. induction (nodes st) as [| n ns IH]; [contradiction |].
        simpl. destruct (String.eqb_spec (node_id n) "trigger_end") as [_ | Hne].
        - exists 0%nat. reflexivity.
        - destruct Hin as [-> | Hin]; [contradiction |].
          destruct (IH Hin) as [k Hk]. exists (S k). rewrite Hk. reflexivity. }
      destruct Hfind as [targetIndex Hfind].
      apply (insertOnEdge_runs true step edge "trigger_start" "trigger_end" uuid
               now st targetIndex); try reflexivity.
      * rewrite Hallowed. reflexivity.
      * rewrite Hkind. reflexivity.
      * rewrite Hkind. reflexivity.
      * simpl. apply not_true_is_false. intros Hdup.
        apply existsb_exists in Hdup as (n & Hn & Heq).
        apply String.eqb_eq in Heq. exact (Hfresh n Hn (eq_sym Heq)).
      * exact Hfind.
Qed.

End Legality.

Lemma edge_type_legality_witness :
  (exists message,
     @addNodeBetween referenceCollaborators "end" alertTrigger AnchorNode "u1" 5
       (storeOf linearDefinition)
     = (Thrown (KeepWorkflowStoreError message), storeOf linearDefinition))
  /\ (exists message,
        @addNodeBetween referenceCollaborators "manual" slackTemplate AnchorNode
          "u1" 5 (storeOf linearDefinition)
        = (Thrown (KeepWorkflowStoreError message), storeOf linearDefinition))
  /\ (snd (insertionEndpoints (edgeBetween "trigger_start" "manual" None))
      = "trigger_end"%string
      /\ exists st',
           @addNodeBetween referenceCollaborators "manual" alertTrigger AnchorNode
             "u1" 5 (storeOf linearDefinition)
           = (Returned "alert"%string, st')).
Proof.
  split; [| split].
  - apply (proj1 (@edge_type_legality referenceCollaborators "end" alertTrigger
                    AnchorNode "u1" 5 (storeOf linearDefinition) alertStep
                    (edgeBetween "send-slack" "end" None)
                    ltac:(vm_compute; reflexivity)
                    ltac:(vm_compute; reflexivity)));
      vm_compute; reflexivity.
  - apply (proj1 (proj2 (@edge_type_legality referenceCollaborators "manual"
                           slackTemplate AnchorNode "u1" 5
                           (storeOf linearDefinition) slackStep
                           (edgeBetween "trigger_start" "manual" None)
                           ltac:(vm_compute; reflexivity)
                           ltac:(vm_compute; reflexivity))));
      vm_compute; reflexivity.
  - destruct (proj2 (proj2 (@edge_type_legality referenceCollaborators "manual"
                              alertTrigger AnchorNode "u1" 5
                              (storeOf linearDefinition) alertStep
                              (edgeBetween "trigger_start" "manual" None)
                              ltac:(vm_compute; reflexivity)
                              ltac:(vm_compute; reflexivity)))
                ltac:(vm_compute; reflexivity) ltac:(vm_compute; reflexivity)
                ltac:(vm_compute; reflexivity))
      as (Hredirect & _ & _ & Hreturns).
    split; [exact Hredirect |].
    apply Hreturns.
    + vm_compute; reflexivity.
    + reflexivity.
    + intros node Hin. vm_compute in Hin.
      repeat (destruct Hin as [<- | Hin]; [discriminate |]). destruct Hin.
    + exists (nodeFor origin false (sentinel "trigger_end")).
      split; [vm_compute; tauto | reflexivity].
Defined.

(** ** The ends of a deletion *)

Section DeleteMore.
Context `{Collaborators}.

(** The four ways a call of [deleteNodes] ends. *)
Lemma deleteNodes_cases ids now st :
  deleteNodes ids now st = (Returned [], st)
  \/ (exists id,
        ids = IdString id /\ In id PROTECTED_NODE_IDS
        /\ deleteNodes ids now st
           = (Thrown (KeepWorkflowStoreError "Cannot delete protected node"), st))
  \/ (exists id i startNode,
        ids = IdString id /\ ~ In id PROTECTED_NODE_IDS
        /\ findEntry (fun node => String.eqb id (node_id node)) (nodes st)
           = Some (i, startNode)
        /\ nodes st !! (fst (rangeEnd (nodes st) i startNode) + 1)%nat = None
        /\ deleteNodes ids now st
           = (Thrown (TypeError
                        "Cannot set properties of undefined (setting 'position')"),
              st))
  \/ (exists id i startNode st',
        ids = IdString id /\ ~ In id PROTECTED_NODE_IDS
        /\ findEntry (fun node => String.eqb id (node_id node)) (nodes st)
           = Some (i, startNode)
        /\ deleteNodes ids now st = (Returned [id], st')
        /\ selectedNode st' = None
        /\ selectedEdge st' = selectedEdge st
        /\ editorOpen st' = true
        /\ changes st' = changes st + 1
        /\ lastChangedAt st' = Some now
        /\ isLayouted st' = true
        /\ settled st').
Proof.
  destruct ids as [id | ids]; [| left; reflexivity].
  unfold deleteNodes.
  destruct (includes_id PROTECTED_NODE_IDS id) eqn:Hprotected.
  { right. left. exists id. split; [reflexivity |].
    split; [apply includes_id_true; exact Hprotected | reflexivity]. }
  pose proof (proj1 (includes_id_false _ _) Hprotected) as Hfree.
  unfold throw_if. rewrite bind_ret_eq, bind_get_eq.
  destruct (findEntry _ (nodes st)) as [[i startNode] |] eqn:Hfind;
    [| left; reflexivity].
  destruct (nodes st !! (fst (rangeEnd (nodes st) i startNode) + 1)%nat)
    as [next |] eqn:Hnext.
  - right. right. right. rewrite bind_ret_eq.
    set (dropped := if includes_id TRIGGER_IDS id
                    then delete id (v2Properties st) else v2Properties st).
    assert (Hdrop :
      (if includes_id TRIGGER_IDS id
       then set (fun s => with_v2Properties (delete id (v2Properties s)) s)
       else ret tt) st
      = (Returned tt, with_v2Properties dropped st)).
    { subst dropped. destruct (includes_id TRIGGER_IDS id); [reflexivity |].
      rewrite with_v2Properties_same. reflexivity. }
    unfold bind at 1. rewrite Hdrop. rewrite bind_set_eq.
    match goal with
    | |- context [bind (onLayout layoutDown) _ ?s] =>
        destruct (layout_then_definition [id] s)
          as (st2 & Hrun & _ & Hl & _ & Hsn & Hse & Ho & Hc & Ht & Hsettled)
    end.
    exists id, i, startNode, st2. split; [reflexivity |].
    split; [exact Hfree |]. split; [exact Hfind |]. split; [exact Hrun |].
    rewrite Hsn, Hse, Ho, Hc, Ht.
    repeat (split; [reflexivity |]). split; [exact Hl | exact Hsettled].
  - right. right. left. exists id, i, startNode.
    split; [reflexivity |]. split; [exact Hfree |].
    split; [exact Hfind |]. split; [exact Hnext | reflexivity].
Qed.

(** X6: a call of [deleteNodes] that throws leaves the store as it was.
    It throws the store's error, on a protected id, or the [TypeError] of
    the runtime, on a node of the graph that is not protected and whose
    range is followed by no node in the node list. *)
Theorem deleteNodes_throws_cleanly ids now st e st' :
  deleteNodes ids now st = (Thrown e, st') ->
  st' = st
  /\ exists id,
       ids = IdString id
       /\ ((e = KeepWorkflowStoreError "Cannot delete protected node"
            /\ In id PROTECTED_NODE_IDS)
           \/ (e = TypeError
                     "Cannot set properties of undefined (setting 'position')"
               /\ ~ In id PROTECTED_NODE_IDS
               /\ exists i startNode,
                    findEntry (fun node => String.eqb id (node_id node)) (nodes st)
                    = Some (i, startNode)
                    /\ nodes st !! (fst (rangeEnd (nodes st) i startNode) + 1)%nat
                       = None)).
Proof.
  intros Hrun.
  destruct (deleteNodes_cases ids now st)
    as [Hnone
       | [(id & -> & Hprotected & Hthrow)
         | [(id & i & startNode & -> & Hfree & Hfind & Hnext & Hthrow)
           | (id & i & startNode & st1 & -> & _ & _ & Hok & _)]]];
    rewrite Hrun in *.
  - discriminate Hnone.
  - injection Hthrow as -> ->. split; [reflexivity |]. exists id.
    split; [reflexivity |]. left. split; [reflexivity | exact Hprotected].
  - injection Hthrow as -> ->. split; [reflexivity |]. exists id.
    split; [reflexivity |]. right. split; [reflexivity |].
    split; [exact Hfree |]. exists i, startNode. split; assumption.
  - discriminate Hok.
Qed.

(** X7: [deleteNodes] on a node that is not protected and whose range
    ends at the end of the node list throws the [TypeError] of the write
    to the position of a node that is not there, and leaves the store as
    it was. *)
Theorem deleteNodes_at_the_end ids now st i startNode :
  ~ In ids PROTECTED_NODE_IDS ->
  findEntry (fun node => String.eqb ids (node_id node)) (nodes st)
  = Some (i, startNode) ->
  (length (nodes st) <= fst (rangeEnd (nodes st) i startNode) + 1)%nat ->
  deleteNodes (IdString ids) now st
  = (Thrown (TypeError "Cannot set properties of undefined (setting 'position')"),
     st).
Proof.
  intros Hfree Hfind Hlast. apply includes_id_false in Hfree.
  unfold deleteNodes. rewrite Hfree. unfold throw_if.
  rewrite bind_ret_eq, bind_get_eq, Hfind.
  rewrite (lookup_ge_None_2 _ _ Hlast). reflexivity.
Qed.

(** X8: a call of [deleteNodes] that returns has either returned the
    empty list and left the store as it was, or returned the one id it was
    given, of a node of the graph that is not protected; the store then
    has no node selected and the edge selection it had, the editor open,
    one change more, dated with the time of the call, a graph laid out,
    and the definition, the findings and the deploy flag of the new
    graph. *)
Theorem deleteNodes_returned ids now st removed st' :
  deleteNodes ids now st = (Returned removed, st') ->
  (removed = [] /\ st' = st)
  \/ (exists id,
        ids = IdString id /\ removed = [id]
        /\ ~ In id PROTECTED_NODE_IDS
        /\ (exists node, In node (nodes st) /\ node_id node = id)
        /\ selectedNode st' = None
        /\ selectedEdge st' = selectedEdge st
        /\ editorOpen st' = true
        /\ changes st' = changes st + 1
        /\ lastChangedAt st' = Some now
        /\ isLayouted st' = true
        /\ settled st').
Proof.
  intros Hrun.
  destruct (deleteNodes_cases ids now st)
    as [Hnone
       | [(id & -> & _ & Hthrow)
         | [(id & i & startNode & -> & _ & _ & _ & Hthrow)
           | (id & i & startNode & st1 & -> & Hfree & Hfind & Hok & Hrest)]]];
    rewrite Hrun in *.
  - injection Hnone as -> ->. left. split; reflexivity.
  - discriminate Hthrow.
  - discriminate Hthrow.
  - injection Hok as -> ->. right. exists id.
    do 2 (split; [reflexivity |]). split; [exact Hfree |].
    split; [| exact Hrest].
    apply findEntry_Some in Hfind as [Hlookup Hid]. exists startNode. split.
    + apply list_elem_of_In. eapply list_elem_of_lookup_2. exact Hlookup.
    + apply String.eqb_eq in Hid. congruence.
Qed.

End DeleteMore.

Lemma deleteNodes_throws_cleanly_witness :
  exists e st',
    @deleteNodes referenceCollaborators (IdString "trigger_start") 7
      (storeOf linearDefinition)
    = (Thrown e, st')
    /\ st' = storeOf linearDefinition.
Proof.
  assert (Hrun :
    @deleteNodes referenceCollaborators (IdString "trigger_start") 7
      (storeOf linearDefinition)
    = (Thrown (KeepWorkflowStoreError "Cannot delete protected node"),
       storeOf linearDefinition)) by (vm_compute; reflexivity).
  exists (KeepWorkflowStoreError "Cannot delete protected node"),
    (storeOf linearDefinition).
  split; [exact Hrun |].
  exact (proj1 (@deleteNodes_throws_cleanly referenceCollaborators
                  (IdString "trigger_start") 7 (storeOf linearDefinition)
                  (KeepWorkflowStoreError "Cannot delete protected node")
                  (storeOf linearDefinition) Hrun)).
Defined.

Lemma deleteNodes_at_the_end_witness :
  @deleteNodes referenceCollaborators (IdString "dropped") 7 droppedStore
  = (Thrown (TypeError "Cannot set properties of undefined (setting 'position')"),
     droppedStore).
Proof.
  apply (@deleteNodes_at_the_end referenceCollaborators "dropped" 7 droppedStore
           6%nat
           (mkFlowNode "dropped" (mkPosition 10 10) (taskData "dropped" "dropped")
              (Some true) None false)).
  - apply includes_id_false. vm_compute; reflexivity.
  - vm_compute; reflexivity.
  - vm_compute. lia.
Defined.

Lemma deleteNodes_returned_witness :
  @settled referenceCollaborators deletedStore
  /\ selectedNode deletedStore = None
  /\ changes deletedStore = changes (storeOf linearDefinition) + 1.
Proof.
  destruct (@deleteNodes_returned referenceCollaborators (IdString "send-slack")
              7 (storeOf linearDefinition) ["send-slack"%string] deletedStore
              ltac:(vm_compute; reflexivity))
    as [[Hnone _]
       | (id & _ & _ & _ & _ & Hsn & _ & _ & Hc & _ & _ & Hsettled)].
  - discriminate Hnone.
  - split; [exact Hsettled |]. split; [exact Hsn | exact Hc].
Defined.

(** ** What a connection leaves alone *)

Section ConnectMore.
Context `{Collaborators}.

Lemma onConnect_run connection st :
  onConnect connection st
  = (Returned tt,
     if canConnect st (conn_source connection)
          (getNodeById st (conn_source connection))
          (getNodeById st (conn_target connection))
     then with_nodes
            (map (connectNode (conn_source connection) (conn_target connection))
               (nodes st))
            (with_edges (addEdge connection "custom-edge" (edges st)) st)
     else st).
Proof.
  unfold onConnect. rewrite bind_get_eq.
  destruct (canConnect st _ _ _); reflexivity.
Qed.

(** X9: [onConnect] never throws and writes nodes and edges only: the
    definition, the findings, the deploy flag and the synced flag, the
    count and the time of the changes, the properties, the selection, the
    editor and the layouted flag are as they were, and the node list keeps
    its length.  So an accepted connection is not in the definition until
    another command rebuilds it. *)
Theorem onConnect_leaves_definition connection st :
  exists st',
    onConnect connection st = (Returned tt, st')
    /\ definition st' = definition st
    /\ validationErrors st' = validationErrors st
    /\ canDeploy st' = canDeploy st
    /\ isEditorSyncedWithNodes st' = isEditorSyncedWithNodes st
    /\ changes st' = changes st
    /\ lastChangedAt st' = lastChangedAt st
    /\ v2Properties st' = v2Properties st
    /\ selectedNode st' = selectedNode st
    /\ selectedEdge st' = selectedEdge st
    /\ editorOpen st' = editorOpen st
    /\ isLayouted st' = isLayouted st
    /\ length (nodes st') = length (nodes st).
Proof.
  rewrite onConnect_run. eexists. split; [reflexivity |].
  destruct (canConnect st _ _ _); cbn.
  - repeat (split; [reflexivity |]). apply length_map.
  - repeat split.
Qed.

End ConnectMore.

(** ** A valid definition *)

Section ValidateMore.
Context `{Collaborators}.

Lemma recordFirst_valid s errors acc :
  fst (recordFirst s errors acc) = true <-> fst acc = true /\ errors = [].
Proof.
  destruct errors as [| first rest]; simpl; [tauto |].
  split; [discriminate | intros [_ Hnil]; discriminate Hnil].
Qed.

Lemma fold_validateNested_valid st d l acc :
  fst (fold_left (validateNested st d) l acc) = true
  <-> fst acc = true /\ forall c, In c l -> findingsOf st d c = [].
Proof.
  revert acc. induction l as [| c l IH]; intros acc; simpl.
  - split; [intros Hacc; split; [exact Hacc | contradiction] | tauto].
  - rewrite IH. unfold validateNested. rewrite recordFirst_valid.
    fold (findingsOf st d c). split.
    + intros [[Hacc Hc] Hl]. split; [exact Hacc |].
      intros c' [<- | Hin]; [exact Hc | exact (Hl c' Hin)].
    + intros [Hacc Hall]. split; [split; [exact Hacc |] |].
      * apply Hall. left. reflexivity.
      * intros c' Hin. apply Hall. right. exact Hin.
Qed.

Lemma validateStep_valid st d acc step :
  fst (validateStep st d acc step) = true
  <-> fst acc = true /\ findingsOf st d step = []
      /\ forall c, In c (directChildren step) -> findingsOf st d c = [].
Proof.
  unfold validateStep. cbv zeta. rewrite recordFirst_valid.
  fold (findingsOf st d step).
  destruct step as [sd | sd t f | sd q]; simpl directChildren.
  - split; [intros [Hacc Hs]; repeat split; [assumption .. | contradiction] | tauto].
  - rewrite fold_validateNested_valid. tauto.
  - rewrite fold_validateNested_valid. tauto.
Qed.

Lemma fold_validateStep_valid st d l acc :
  fst (fold_left (validateStep st d) l acc) = true
  <-> fst acc = true
      /\ forall s, In s l ->
           findingsOf st d s = []
           /\ forall c, In c (directChildren s) -> findingsOf st d c = [].
Proof.
  revert acc. induction l as [| s l IH]; intros acc; simpl.
  - split; [intros Hacc; split; [exact Hacc | contradiction] | tauto].
  - rewrite IH, validateStep_valid. split.
    + intros [(Hacc & Hs & Hc) Hl]. split; [exact Hacc |].
      intros s' [<- | Hin]; [split; assumption | exact (Hl s' Hin)].
    + intros [Hacc Hall]. split; [split; [exact Hacc |] |].
      * apply Hall. left. reflexivity.
      * intros s' Hin. apply Hall. right. exact Hin.
Qed.

Lemma validateDefinition_fold st d :
  (res_isValid (validateDefinition st d),
   res_validationErrors (validateDefinition st d))
  = fold_left (validateStep st d) (def_sequence d)
      (bool_decide (validateGlobalPure d = []),
       fold_left (fun (ve : gmap string ValidationError) '(key, err) =>
                    assign key (err, error) ve) (validateGlobalPure d) ∅).
Proof.
  unfold validateDefinition. cbv zeta.
  destruct (fold_left (validateStep st d) (def_sequence d) _) as [isValid ve].
  reflexivity.
Qed.

(** X10: [validateDefinition] returns [isValid = true] exactly when the
    global pass finds nothing and the per-step pass finds nothing for any
    step of the sequence nor for any step directly below one: in the two
    branches of a switch or in the sequence of a container. *)
Theorem isValid_iff_no_finding st d :
  res_isValid (validateDefinition st d) = true
  <-> validateGlobalPure d = []
      /\ forall s, In s (def_sequence d) ->
           findingsOf st d s = []
           /\ forall c, In c (directChildren s) -> findingsOf st d c = [].
Proof.
  change (res_isValid (validateDefinition st d))
    with (fst (res_isValid (validateDefinition st d),
               res_validationErrors (validateDefinition st d))).
  rewrite validateDefinition_fold, fold_validateStep_valid. simpl.
  rewrite bool_decide_eq_true. reflexivity.
Qed.

(** X11: [validateDefinition] returns [isValid = true] exactly when it
    files no finding.  A valid definition has empty [validationErrors]
    and can be deployed.  The [validationErrors] are empty exactly when
    every finding was filed under the key [__proto__], where the write
    leaves no entry; so for a definition with no finding under that key
    [isValid] is true exactly when the [validationErrors] are empty. *)
Theorem isValid_and_validation_errors st d :
  (res_isValid (validateDefinition st d) = true <-> filings st d = [])
  /\ (res_isValid (validateDefinition st d) = true ->
      res_validationErrors (validateDefinition st d) = ∅
      /\ res_canDeploy (validateDefinition st d) = true)
  /\ (res_validationErrors (validateDefinition st d) = ∅
      <-> forall key finding,
            In (key, finding) (filings st d) -> key = "__proto__"%string)
  /\ ((forall key finding,
         In (key, finding) (filings st d) -> key <> "__proto__"%string) ->
      (res_isValid (validateDefinition st d) = true
       <-> res_validationErrors (validateDefinition st d) = ∅)).
Proof.
  pose proof (validateDefinition_filings st d) as Hfiled.
  pose proof (f_equal fst Hfiled) as Hvalid.
  pose proof (f_equal snd Hfiled) as Hrecord.
  simpl in Hvalid, Hrecord.
  assert (Hnone : res_isValid (validateDefinition st d) = true
                  <-> filings st d = []).
  { rewrite Hvalid. destruct (filings st d); split; congruence. }
  assert (Hempty :
    res_validationErrors (validateDefinition st d) = ∅
    <-> forall key finding,
          In (key, finding) (filings st d) -> key = "__proto__"%string).
  { rewrite Hrecord. split.
    - intros Hmap key finding Hin.
      destruct (String.eqb_spec key "__proto__") as [Hkey | Hkey];
        [exact Hkey | exfalso].
      pose proof (f_equal (fun m : gmap string ValidationError => m !! key) Hmap)
        as Hlookup.
      simpl in Hlookup. rewrite lookup_filed, lookup_empty in Hlookup.
      apply String.eqb_neq in Hkey. rewrite Hkey in Hlookup.
      destruct (lastFiled key (filings st d)) eqn:Hlast; [discriminate |].
      exact (proj1 (lastFiled_none _ _) Hlast finding Hin).
    - intros Hall. apply map_eq. intros key.
      rewrite lookup_filed, lookup_empty.
      destruct (String.eqb_spec key "__proto__") as [_ | Hkey]; [reflexivity |].
      destruct (lastFiled key (filings st d)) eqn:Hlast; [| reflexivity].
      apply lastFiled_in, Hall in Hlast. contradiction. }
  split; [exact Hnone |]. split; [| split; [exact Hempty |]].
  - intros Hv. assert (Hmap : res_validationErrors (validateDefinition st d) = ∅).
    { apply Hempty. apply Hnone in Hv. rewrite Hv. intros key finding []. }
    split; [exact Hmap |].
    rewrite validateDefinition_canDeploy, Hmap. reflexivity.
  - intros Hplain. rewrite Hnone, Hempty. split.
    + intros ->. intros key finding [].
    + intros Hall. destruct (filings st d) as [| [key finding] rest];
        [reflexivity | exfalso].
      apply (Hplain key finding); [left; reflexivity |].
      apply (Hall key finding). left. reflexivity.
Qed.

End ValidateMore.

(** ** Reads and properties *)

Section Reads.
Context `{Collaborators}.

(** X12: a call of [getNextEdge] that returns has left the store as it
    was; the id names a node with an edge out of it, and the result is the
    second of the edges out of the node for a switch and the first for any
    other node; an edge that is returned is an edge of the graph that
    leaves the node. *)
Theorem getNextEdge_returned nodeId st next st' :
  getNextEdge nodeId st = (Returned next, st') ->
  st' = st
  /\ exists node,
       getNodeById st nodeId = Some node
       /\ outgoing st nodeId <> []
       /\ next
          = (if String.eqb (step_componentType (node_data node)) "switch"
             then outgoing st nodeId !! 1%nat
             else outgoing st nodeId !! 0%nat)
       /\ forall e, next = Some e -> In e (edges st) /\ edge_source e = nodeId.
Proof.
  unfold getNextEdge. rewrite bind_get_eq. intros Hrun.
  destruct (getNodeById st nodeId) as [node |] eqn:Hnode; [| discriminate Hrun].
  apply bind_throw_if_returned in Hrun as [Hlen Hrun].
  fold (outgoing st nodeId) in Hlen, Hrun.
  assert (Hnext : st' = st
                  /\ next
                     = (if String.eqb (step_componentType (node_data node)) "switch"
                        then outgoing st nodeId !! 1%nat
                        else outgoing st nodeId !! 0%nat)).
  { destruct (String.eqb _ "switch"); injection Hrun as <- <-;
      split; reflexivity. }
  destruct Hnext as [-> Hnext]. split; [reflexivity |].
  exists node. split; [reflexivity |]. split.
  { intros Hnil. rewrite Hnil in Hlen. discriminate Hlen. }
  split; [exact Hnext |].
  intros e ->.
  assert (Hin : e ∈ outgoing st nodeId).
  { destruct (String.eqb _ "switch"); symmetry in Hnext;
      eapply list_elem_of_lookup_2; exact Hnext. }
  apply list_elem_of_In in Hin. unfold outgoing in Hin.
  apply filter_In in Hin as [Hin Hsource].
  split; [exact Hin | apply String.eqb_eq; exact Hsource].
Qed.

(** X13: a call of [getNextEdge] that throws has left the store as it
    was, and throws the store's error: [Node not found] when no node has
    the id, [Edge not found] when no edge leaves the node. *)
Theorem getNextEdge_thrown nodeId st e st' :
  getNextEdge nodeId st = (Thrown e, st') ->
  st' = st
  /\ ((e = KeepWorkflowStoreError "Node not found"
       /\ forall node, In node (nodes st) -> node_id node <> nodeId)
      \/ (e = KeepWorkflowStoreError "Edge not found"
          /\ forall edge, In edge (edges st) -> edge_source edge <> nodeId)).
Proof.
  unfold getNextEdge. rewrite bind_get_eq. intros Hrun.
  destruct (getNodeById st nodeId) as [node |] eqn:Hnode.
  - destruct (outgoing st nodeId) as [| first rest] eqn:Hout.
    + unfold outgoing in Hout. rewrite Hout in Hrun.
      injection Hrun as <- <-. split; [reflexivity |]. right.
      split; [reflexivity |]. intros edge Hin Hsource.
      assert (Hmem : In edge (List.filter
                                (fun e => String.eqb (edge_source e) nodeId)
                                (edges st))).
      { apply filter_In. split; [exact Hin | apply String.eqb_eq, Hsource]. }
      rewrite Hout in Hmem. contradiction.
    + unfold outgoing in Hout. rewrite Hout in Hrun. exfalso.
      simpl in Hrun. rewrite bind_ret_eq in Hrun.
      destruct (String.eqb _ "switch"); discriminate Hrun.
  - injection Hrun as <- <-. split; [reflexivity |]. left.
    split; [reflexivity |]. intros node Hin Hid.
    unfold getNodeById in Hnode.
    apply (find_none _ _ Hnode) in Hin. apply String.eqb_neq in Hin. auto.
Qed.

(** X14: on a switch with exactly one edge out of it, [getNextEdge]
    does not throw and returns no edge: the second element of the array of
    one. *)
Theorem getNextEdge_switch_with_one_edge nodeId st node only :
  getNodeById st nodeId = Some node ->
  step_componentType (node_data node) = "switch"%string ->
  outgoing st nodeId = [only] ->
  getNextEdge nodeId st = (Returned None, st).
Proof.
  intros Hnode Hswitch Hout. unfold getNextEdge.
  rewrite bind_get_eq, Hnode. fold (outgoing st nodeId). rewrite Hout, Hswitch.
  reflexivity.
Qed.

(** X15: [updateV2Properties] never throws.  In the properties map the
    new entries win and every other key keeps its value; the graph, the
    selection, the editor and the layouted flag are as they were; one
    change is counted and dated with the time of the call; and the
    definition, the findings and the deploy flag are those of the graph
    with the new properties. *)
Theorem updateV2Properties_merges properties now st :
  exists st',
    updateV2Properties properties now st = (Returned tt, st')
    /\ (forall k,
          v2Properties st' !! k
          = match properties !! k with
            | Some v => Some v
            | None => v2Properties st !! k
            end)
    /\ nodes st' = nodes st
    /\ edges st' = edges st
    /\ selectedNode st' = selectedNode st
    /\ selectedEdge st' = selectedEdge st
    /\ editorOpen st' = editorOpen st
    /\ isLayouted st' = isLayouted st
    /\ changes st' = changes st + 1
    /\ lastChangedAt st' = Some now
    /\ settled st'.
Proof.
  unfold updateV2Properties. rewrite bind_get_eq, bind_set_eq.
  match goal with
  | |- exists st', updateDefinition ?s = _ /\ _ =>
      destruct (updateDefinition_frame s)
        as (Hu & Hn & He & Hv & Hsn & Hse & Ho & Hl & Hc & Ht & _);
      pose proof (updateDefinition_settles s) as Hsettled;
      exists (snd (updateDefinition s))
  end.
  split.
  { rewrite (surjective_pairing (updateDefinition _)), Hu. reflexivity. }
  rewrite Hn, He, Hv, Hsn, Hse, Ho, Hl, Hc, Ht. cbn.
  split.
  { intros k. rewrite lookup_union.
    destruct (properties !! k), (v2Properties st !! k); reflexivity. }
  repeat (split; [reflexivity |]). exact Hsettled.
Qed.

End Reads.

Lemma getNextEdge_returned_witness :
  exists e,
    getNextEdge "send-slack" (storeOf linearDefinition)
    = (Returned (Some e), storeOf linearDefinition)
    /\ In e (edges (storeOf linearDefinition))
    /\ edge_source e = "send-slack"%string.
Proof.
  exists (edgeBetween "send-slack" "end" None).
  assert (Hrun :
    getNextEdge "send-slack" (storeOf linearDefinition)
    = (Returned (Some (edgeBetween "send-slack" "end" None)),
       storeOf linearDefinition)) by (vm_compute; reflexivity).
  split; [exact Hrun |].
  destruct (getNextEdge_returned "send-slack"
              (storeOf linearDefinition) _ _ Hrun)
    as (_ & node & _ & _ & _ & Hedge).
  apply Hedge. reflexivity.
Defined.

Lemma getNextEdge_thrown_witness :
  getNextEdge "ghost" (storeOf linearDefinition)
  = (Thrown (KeepWorkflowStoreError "Node not found"), storeOf linearDefinition)
  /\ forall node,
       In node (nodes (storeOf linearDefinition)) ->
       node_id node <> "ghost"%string.
Proof.
  assert (Hrun :
    getNextEdge "ghost" (storeOf linearDefinition)
    = (Thrown (KeepWorkflowStoreError "Node not found"),
       storeOf linearDefinition)) by (vm_compute; reflexivity).
  split; [exact Hrun |].
  destruct (getNextEdge_thrown "ghost" (storeOf linearDefinition)
              (KeepWorkflowStoreError "Node not found")
              (storeOf linearDefinition) Hrun)
    as [_ [[_ Hmissing] | [Hother _]]].
  - exact Hmissing.
  - discriminate Hother.
Defined.

Lemma getNextEdge_switch_with_one_edge_witness :
  getNextEdge "check" loneSwitchStore
  = (Returned None, loneSwitchStore).
Proof.
  apply (getNextEdge_switch_with_one_edge "check"
           loneSwitchStore (nodeFor origin false (switchData "check"))
           (edgeBetween "check" "end" None));
    vm_compute; reflexivity.
Defined.

(** ** The whole store *)

Section StoreProps.
Context `{Collaborators} `{BuilderCollaborators}.

Lemma withOwnName_same properties : withOwnName properties = properties.
Proof.
  unfold withOwnName. destruct (properties !! "name"%string) eqn:Hname;
    [apply insert_id; exact Hname | reflexivity].
Qed.

Lemma on_values_returned {A} (c : Cmd A) (a : A) s :
  fst (c (values s)) = Returned a ->
  on_values c s = (inl a, with_values (snd (c (values s))) s).
Proof.
  intros Hc. unfold on_values. rewrite (surjective_pairing (c (values s))), Hc.
  reflexivity.
Qed.

Lemma on_values_snd {A} (c : Cmd A) s :
  snd (on_values c s) = with_values (snd (c (values s))) s.
Proof.
  unfold on_values. destruct (c (values s)) as [[a | e] v]; reflexivity.
Qed.

(** A successful run of [initializeWorkflow], field by field. *)
Lemma initializeWorkflow_run wid ps ips secs s def :
  definition (values s) = Some def ->
  exists s',
    initializeWorkflow wid ps ips secs s = (inl tt, s')
    /\ workflowId s' = wid
    /\ toolboxConfiguration s' = Some (getToolboxConfiguration ps)
    /\ yamlSchema s' = Some (getYamlWorkflowDefinitionSchema ps (Some true))
    /\ isInitialized s' = true
    /\ isLoading s' = false
    /\ isDeployed s' = bool_decide (is_Some wid)
    /\ lastDeployedAt s' = None
    /\ saveRequestCount s' = saveRequestCount s
    /\ isSaving s' = isSaving s
    /\ (nodes (values s'), edges (values s'))
       = layoutedElements
           (fst (processWorkflowV2 (fullSequence (def_value def))
                   (mkPosition 0 50) true))
           (snd (processWorkflowV2 (fullSequence (def_value def))
                   (mkPosition 0 50) true))
           "DOWN"
    /\ v2Properties (values s') = def_properties (def_value def)
    /\ providers (values s') = Some ps
    /\ installedProviders (values s') = Some ips
    /\ secrets (values s') = Some secs
    /\ selectedNode (values s')
       = rematchedSelection (bool_decide (workflowId s = wid))
           (selectedNode (values s)) (selectedStepName (values s))
           (fst (processWorkflowV2 (fullSequence (def_value def))
                   (mkPosition 0 50) true))
    /\ selectedEdge (values s') = selectedEdge (values s)
    /\ editorOpen (values s')
       = noWorkflowId wid
         || (bool_decide (workflowId s = wid) && editorOpen (values s))
    /\ isLayouted (values s') = true
    /\ changes (values s') = changes (values s)
    /\ lastChangedAt (values s') = None
    /\ settled (values s').
Proof.
  intros Hdef. unfold initializeWorkflow. rewrite Hdef.
  destruct (processWorkflowV2 (fullSequence (def_value def)) (mkPosition 0 50) true)
    as [ns es] eqn:Hmade.
  cbv zeta. unfold call_bind.
  match goal with
  | |- context [on_values (onLayout layoutDown) ?t] =>
      set (s2 := t);
      destruct (onLayout_down_frame (values s2))
        as (Hl & Hlg & Hli & Hlv & Hln & Hle & Hlo & Hlc & Hlt & Hlp & Hlip & Hls);
      rewrite (on_values_returned (onLayout layoutDown) tt s2 Hl)
  end.
  set (s3 := with_values (snd (onLayout layoutDown (values s2))) s2).
  destruct (updateDefinition_frame (values s3))
    as (Hu & Hun & Hue & Huv & Husn & Huse & Huo & Hui & Huc & Hut & Hup & Huip & Hus).
  rewrite (on_values_returned updateDefinition tt s3 Hu).
  eexists. split; [reflexivity |].
  cbn [values workflowId toolboxConfiguration yamlSchema isInitialized isLoading
       isDeployed lastDeployedAt saveRequestCount isSaving with_values].
  rewrite Hun, Hue, Huv, Husn, Huse, Huo, Hui, Huc, Hut, Hup, Huip, Hus.
  subst s3. cbn [values with_values].
  rewrite Hlg, Hli, Hlv, Hln, Hle, Hlo, Hlc, Hlt, Hlp, Hlip, Hls.
  subst s2.
  cbn [values with_isLoading saveRequestCount isSaving fst snd
       nodes edges selectedNode v2Properties editorOpen providers
       installedProviders secrets isLayouted selectedEdge changes lastChangedAt
       with_lastChangedAt with_editorOpen with_secrets with_installedProviders
       with_providers with_v2Properties with_edges with_nodes with_isLayouted
       with_selectedNode].
  rewrite withOwnName_same.
  repeat (split; [reflexivity |]).
  apply updateDefinition_settles.
Qed.

(** X16: [initializeWorkflow] on a store with no definition throws a
    plain [Error] before it writes anything: the store is as it was, not
    even flagged as loading. *)
Theorem initializeWorkflow_needs_definition wid ps ips secs s :
  definition (values s) = None ->
  initializeWorkflow wid ps ips secs s
  = (inr (PlainError "Definition should be set before initializing workflow"), s).
Proof. intros Hdef. unfold initializeWorkflow. rewrite Hdef. reflexivity. Qed.


(** X17: [initializeWorkflow] on a store with a definition returns.  The
    store then has the workflow id it was given, is initialized, not
    loading, deployed exactly when the id is not [null], with no time of
    deployment and no time of change; it holds the providers and secrets
    it was given, the properties of the definition, and the layout of the
    graph that [processWorkflowV2] makes of [start], the trigger steps,
    the sequence and [end]; the count of changes is as it was; the
    definition, the findings and the deploy flag are rebuilt from that
    graph. *)
Theorem initializeWorkflow_returned wid ps ips secs s def :
  definition (values s) = Some def ->
  exists s',
    initializeWorkflow wid ps ips secs s = (inl tt, s')
    /\ workflowId s' = wid
    /\ isInitialized s' = true
    /\ isLoading s' = false
    /\ isDeployed s' = bool_decide (is_Some wid)
    /\ lastDeployedAt s' = None
    /\ (nodes (values s'), edges (values s'))
       = layoutedElements
           (fst (processWorkflowV2 (fullSequence (def_value def))
                   (mkPosition 0 50) true))
           (snd (processWorkflowV2 (fullSequence (def_value def))
                   (mkPosition 0 50) true))
           "DOWN"
    /\ v2Properties (values s') = def_properties (def_value def)
    /\ providers (values s') = Some ps
    /\ installedProviders (values s') = Some ips
    /\ secrets (values s') = Some secs
    /\ isLayouted (values s') = true
    /\ changes (values s') = changes (values s)
    /\ lastChangedAt (values s') = None
    /\ settled (values s').
Proof.
  intros Hdef.
  destruct (initializeWorkflow_run wid ps ips secs s def Hdef)
    as (s' & Hrun & Hw & _ & _ & Hi & Hlo & Hd & Hld & _ & _ & Hg & Hv & Hp
        & Hip & Hs & _ & _ & _ & Hl & Hc & Ht & Hsettled).
  exists s'. repeat (split; [assumption |]). exact Hsettled.
Qed.

Lemma rematchedSelection_some updating current name ns j :
  rematchedSelection updating current name ns = Some j ->
  updating = true
  /\ (exists i, current = Some i /\ i <> ""%string)
  /\ exists n node,
       name = Some n /\ In node ns /\ node_id node = j
       /\ step_name (node_data node) = n.
Proof.
  unfold rematchedSelection. destruct updating; [| discriminate]. simpl.
  destruct current as [i |]; [| discriminate]. unfold truthyId.
  destruct (nonempty i) eqn:Hi; [| discriminate]. simpl.
  destruct name as [n |]; [| discriminate].
  destruct (find _ ns) as [node |] eqn:Hfind; [| discriminate].
  intros [= <-]. apply find_some in Hfind as [Hin Hname].
  split; [reflexivity |]. split.
  - exists i. split; [reflexivity |]. intros ->. discriminate Hi.
  - exists n, node. repeat split; [exact Hin | apply String.eqb_eq, Hname].
Qed.

(** X18: the selection over [initializeWorkflow].  The selected edge
    stays.  For another workflow id than the one of the store, no node is
    selected, and the editor is open exactly when the new id is [null] or
    empty.  For the same id the editor, besides, stays open when it was.
    A node is selected afterwards only for the same id, when a node of the
    old graph was selected, and it is a node that the compiler made with
    the name of the step of that node. *)
Theorem initializeWorkflow_selection wid ps ips secs s def :
  definition (values s) = Some def ->
  exists s',
    initializeWorkflow wid ps ips secs s = (inl tt, s')
    /\ selectedEdge (values s') = selectedEdge (values s)
    /\ (workflowId s <> wid ->
        selectedNode (values s') = None
        /\ editorOpen (values s') = noWorkflowId wid)
    /\ (workflowId s = wid ->
        editorOpen (values s') = noWorkflowId wid || editorOpen (values s))
    /\ (selectedNode (values s) = None -> selectedNode (values s') = None)
    /\ (forall j,
          selectedNode (values s') = Some j ->
          workflowId s = wid
          /\ exists i old new,
               selectedNode (values s) = Some i
               /\ getNodeById (values s) i = Some old
               /\ In new (fst (processWorkflowV2 (fullSequence (def_value def))
                                 (mkPosition 0 50) true))
               /\ node_id new = j
               /\ step_name (node_data new) = step_name (node_data old)).
Proof.
  intros Hdef.
  destruct (initializeWorkflow_run wid ps ips secs s def Hdef)
    as (s' & Hrun & _ & _ & _ & _ & _ & _ & _ & _ & _ & _ & _ & _ & _ & _
        & Hsn & Hse & Ho & _).
  exists s'. split; [exact Hrun |]. split; [exact Hse |].
  rewrite Hsn, Ho. split; [| split; [| split]].
  - intros Hne. rewrite (bool_decide_eq_false_2 _ Hne). simpl.
    split; [reflexivity | apply orb_false_r].
  - intros Heq. rewrite (bool_decide_eq_true_2 _ Heq). reflexivity.
  - intros Hnone. unfold rematchedSelection. rewrite Hnone. simpl.
    rewrite andb_false_r. reflexivity.
  - intros j Hj.
    apply rematchedSelection_some in Hj
      as (Hupdating & (i & Hi & _) & n & node & Hname & Hin & Hid & Hn).
    split; [apply bool_decide_eq_true_1 in Hupdating; exact Hupdating |].
    unfold selectedStepName in Hname. rewrite Hi in Hname.
    destruct (find _ (nodes (values s))) as [old |] eqn:Hold;
      [| discriminate Hname].
    injection Hname as <-.
    exists i, old, node. repeat split; assumption.
Qed.

(** X19: [updateFromYamlString] on a string that does not parse as YAML,
    or that the YAML schema of the store rejects, returns and leaves the
    store as it was. *)
Theorem updateFromYamlString_invalid yamlString now s :
  parseWorkflowYamlStringToJSON yamlString = None
  \/ (exists json schema,
        parseWorkflowYamlStringToJSON yamlString = Some json
        /\ yamlSchema s = Some schema /\ schema json = false) ->
  updateFromYamlString yamlString now s = (inl tt, s).
Proof.
  unfold updateFromYamlString.
  intros [-> | (json & schema & -> & -> & ->)]; reflexivity.
Qed.

(** X20: [updateFromYamlString] on a string that parses and that the
    schema of the store, when there is one, accepts: the call returns; the
    workflow id stays; the graph is the layout of the graph compiled from
    the parsed definition and the properties are those of that definition;
    the selected edge stays and the editor is open when it was or when
    the store has no workflow id; one change is counted, but the time of
    the change, written with the time of the call, is cleared again by the
    initialization. *)
Theorem updateFromYamlString_valid yamlString now s json parsed :
  parseWorkflowYamlStringToJSON yamlString = Some json ->
  (forall schema, yamlSchema s = Some schema -> schema json = true) ->
  parseWorkflow yamlString (default [] (providers (values s))) = Some parsed ->
  exists s',
    updateFromYamlString yamlString now s = (inl tt, s')
    /\ workflowId s' = workflowId s
    /\ (nodes (values s'), edges (values s'))
       = layoutedElements
           (fst (processWorkflowV2
                   (fullSequence (def_value (wrapDefinitionV2 parsed true)))
                   (mkPosition 0 50) true))
           (snd (processWorkflowV2
                   (fullSequence (def_value (wrapDefinitionV2 parsed true)))
                   (mkPosition 0 50) true))
           "DOWN"
    /\ v2Properties (values s')
       = def_properties (def_value (wrapDefinitionV2 parsed true))
    /\ selectedEdge (values s') = selectedEdge (values s)
    /\ editorOpen (values s')
       = noWorkflowId (workflowId s) || editorOpen (values s)
    /\ changes (values s') = changes (values s) + 1
    /\ lastChangedAt (values s') = None
    /\ settled (values s').
Proof.
  intros Hjson Hschema Hparsed. unfold updateFromYamlString.
  rewrite Hjson.
  assert (Haccepted : match yamlSchema s with
                      | Some schema => schema json
                      | None => true
                      end = true).
  { destruct (yamlSchema s) as [schema |]; [apply Hschema |]; reflexivity. }
  rewrite Haccepted, Hparsed. cbv zeta.
  match goal with
  | |- exists s', initializeWorkflow ?w ?p ?ip ?sec ?s2 = _ /\ _ =>
      destruct (initializeWorkflow_run w p ip sec s2
                  (wrapDefinitionV2 parsed true) eq_refl)
        as (s' & Hrun & Hw & _ & _ & _ & _ & _ & _ & _ & _ & Hg & Hv & _ & _
            & _ & _ & Hse & Ho & _ & Hc & Ht & Hsettled)
  end.
  exists s'. split; [exact Hrun |].
  rewrite Hw, Hg, Hv, Hse, Ho, Hc, Ht. cbn [workflowId with_values values].
  rewrite bool_decide_eq_true_2 by reflexivity.
  repeat (split; [reflexivity |]). exact Hsettled.
Qed.

(** *** What every call keeps *)

Lemma bumps_refl st : bumps st st.
Proof. split; [tauto | left; reflexivity]. Qed.

Lemma bumps_steady st st' :
  selectedNode st' = selectedNode st -> selectedEdge st' = selectedEdge st ->
  changes st' = changes st ->
  bumps st st'.
Proof.
  unfold bumps, exclusiveSelection. intros -> -> ->.
  split; [tauto | left; reflexivity].
Qed.

Lemma wellKept_with_values v s :
  wellKept s -> bumps (values s) v -> wellKept (with_values v s).
Proof.
  intros (Hsel & Hc & Hrest) [Hkeeps Hbump].
  split; [exact (Hkeeps Hsel) |]. split; [| exact Hrest].
  cbn. destruct Hbump as [-> | ->]; lia.
Qed.

Lemma addNodeBetween_method_run nodeOrEdgeId rawStep type uuid now st id st' :
  addNodeBetween_method nodeOrEdgeId rawStep type uuid now st
  = (Returned id, st') ->
  exists st1,
    addNodeBetween nodeOrEdgeId rawStep type uuid now st = (Returned id, st1)
    /\ st' = with_selectedEdge None (with_selectedNode (Some id) st1).
Proof.
  intros Hrun. unfold addNodeBetween_method in Hrun.
  apply bind_returned in Hrun as (newNodeId & st1 & Hinsert & Hrun).
  rewrite bind_set_eq in Hrun. injection Hrun as <- <-.
  exists st1. split; [exact Hinsert | reflexivity].
Qed.

Lemma bumps_addNodeBetween_method nodeOrEdgeId rawStep type uuid now st :
  bumps st (snd (addNodeBetween_method nodeOrEdgeId rawStep type uuid now st)).
Proof.
  destruct (addNodeBetween_method nodeOrEdgeId rawStep type uuid now st)
    as [[id | e] st'] eqn:Hrun; simpl.
  - apply addNodeBetween_method_run in Hrun as (st1 & Hinsert & ->).
    apply addNodeBetween_returned in Hinsert as (step & edge & _ & _ & Hinsert).
    apply insertOnEdge_returned in Hinsert
      as (targetIndex & _ & _ & _ & _ & _ & _ & Hc & _).
    split; [intros _; right; reflexivity | right; exact Hc].
  - apply clean_addNodeBetween_method in Hrun as [-> _]. apply bumps_refl.
Qed.

Lemma addNodeBetweenSafe_snd nodeOrEdgeId step type uuid now st :
  snd (addNodeBetweenSafe nodeOrEdgeId step type uuid now st)
  = snd (addNodeBetween_method nodeOrEdgeId step type uuid now st).
Proof.
  unfold addNodeBetweenSafe.
  destruct (addNodeBetween_method _ _ _ _ _ st) as [[id | e] st']; reflexivity.
Qed.

Lemma bumps_deleteNodes ids now st : bumps st (snd (deleteNodes ids now st)).
Proof.
  destruct (deleteNodes_cases ids now st)
    as [Hrun
       | [(id & _ & _ & Hrun)
         | [(id & i & startNode & _ & _ & _ & _ & Hrun)
           | (id & i & startNode & st' & _ & _ & _ & Hrun & Hsn & _ & _ & Hc & _)]]];
    rewrite Hrun; simpl; try apply bumps_refl.
  split; [intros _; left; exact Hsn | right; exact Hc].
Qed.

Lemma bumps_onConnect connection st : bumps st (snd (onConnect connection st)).
Proof.
  rewrite onConnect_run. simpl.
  destruct (canConnect st _ _ _); [| apply bumps_refl].
  apply bumps_steady; reflexivity.
Qed.

Lemma bumps_setSelectedEdge id st : bumps st (snd (setSelectedEdge id st)).
Proof.
  unfold setSelectedEdge. rewrite bind_get_eq.
  destruct (find _ (edges st)); simpl; [| apply bumps_refl].
  split; [intros _; left; reflexivity | left; reflexivity].
Qed.

Lemma bumps_setSelectedNode id st : bumps st (snd (setSelectedNode id st)).
Proof. split; [intros _; right; reflexivity | left; reflexivity]. Qed.

Lemma bumps_updateDefinition st : bumps st (snd (updateDefinition st)).
Proof.
  destruct (updateDefinition_frame st)
    as (_ & _ & _ & _ & Hsn & Hse & _ & _ & Hc & _).
  apply bumps_steady; assumption.
Qed.

Lemma bumps_updateV2Properties properties now st :
  bumps st (snd (updateV2Properties properties now st)).
Proof.
  unfold updateV2Properties. rewrite bind_get_eq, bind_set_eq.
  match goal with
  | |- bumps _ (snd (updateDefinition ?s)) =>
      destruct (updateDefinition_frame s)
        as (_ & _ & _ & _ & Hsn & Hse & _ & _ & Hc & _)
  end.
  unfold bumps, exclusiveSelection. rewrite Hsn, Hse, Hc.
  split; [tauto | right; reflexivity].
Qed.

Lemma onLayout_run params st :
  onLayout params st
  = (Returned tt,
     with_isLayouted true
       (with_edges
          (snd (layoutedElements (fst (layoutInput params st))
                  (snd (layoutInput params st)) (direction params)))
          (with_nodes
             (fst (layoutedElements (fst (layoutInput params st))
                     (snd (layoutInput params st)) (direction params)))
             st))).
Proof.
  unfold onLayout. rewrite bind_get_eq.
  destruct (layoutInput params st) as [ns es]. simpl fst. simpl snd.
  destruct (layoutedElements ns es (direction params)). reflexivity.
Qed.

Lemma bumps_onLayout params st : bumps st (snd (onLayout params st)).
Proof. rewrite onLayout_run. apply bumps_steady; reflexivity. Qed.

Lemma getNextEdge_reads nodeId st : snd (getNextEdge nodeId st) = st.
Proof.
  unfold getNextEdge. rewrite bind_get_eq.
  destruct (getNodeById st nodeId) as [node |]; [| reflexivity].
  unfold bind, throw_if.
  destruct (Nat.eqb _ 0); [reflexivity |].
  simpl. destruct (String.eqb _ "switch"); reflexivity.
Qed.

(** What [initializeWorkflow] keeps of the store. *)
Lemma initializeWorkflow_keeps wid ps ips secs s :
  (exclusiveSelection (values s) ->
   exclusiveSelection (values (snd (initializeWorkflow wid ps ips secs s))))
  /\ changes (values (snd (initializeWorkflow wid ps ips secs s)))
     = changes (values s)
  /\ saveRequestCount (snd (initializeWorkflow wid ps ips secs s))
     = saveRequestCount s
  /\ (isDeployed s = bool_decide (is_Some (workflowId s)) ->
      isDeployed (snd (initializeWorkflow wid ps ips secs s))
      = bool_decide
          (is_Some (workflowId (snd (initializeWorkflow wid ps ips secs s))))).
Proof.
  destruct (definition (values s)) as [def |] eqn:Hdef.
  - destruct (initializeWorkflow_run wid ps ips secs s def Hdef)
      as (s' & Hrun & Hw & _ & _ & _ & _ & Hd & _ & Hsave & _ & _ & _ & _ & _
          & _ & Hsn & Hse & _ & _ & Hc & _).
    rewrite Hrun. simpl. split; [| split; [exact Hc | split; [exact Hsave |]]].
    + unfold exclusiveSelection. rewrite Hsn, Hse.
      intros [Hnone | Hnone]; [left | right; exact Hnone].
      unfold rematchedSelection. rewrite Hnone. simpl.
      rewrite andb_false_r. reflexivity.
    + intros _. rewrite Hd, Hw. reflexivity.
  - unfold initializeWorkflow. rewrite Hdef. simpl. tauto.
Qed.

(** Every call but [reset] and [setLastDeployedAt] keeps the count of
    changes or adds one to it. *)
Lemma after_changes a s :
  a = Reset \/ (exists deployedAt, a = SetLastDeployedAt deployedAt)
  \/ changes (values (after a s)) = changes (values s)
  \/ changes (values (after a s)) = changes (values s) + 1.
Proof.
  destruct a; unfold after;
    try (right; right; rewrite on_values_snd; cbn [values with_values]).
  - apply bumps_addNodeBetween_method.
  - rewrite addNodeBetweenSafe_snd. apply bumps_addNodeBetween_method.
  - apply bumps_deleteNodes.
  - apply bumps_onConnect.
  - apply bumps_setSelectedEdge.
  - apply bumps_setSelectedNode.
  - apply bumps_updateV2Properties.
  - apply bumps_updateDefinition.
  - apply bumps_onLayout.
  - left; reflexivity.
  - left; reflexivity.
  - left; reflexivity.
  - left; reflexivity.
  - rewrite getNextEdge_reads. left; reflexivity.
  - right; right; left; reflexivity.
  - right; right; left; reflexivity.
  - right; right; left; reflexivity.
  - right; right; left; reflexivity.
  - right; right; left; reflexivity.
  - right; right; left; reflexivity.
  - right; left. eexists; reflexivity.
  - right; right; left; reflexivity.
  - right; right; left; reflexivity.
  - right; right; left; reflexivity.
  - right; right; left; reflexivity.
  - right; right; left; reflexivity.
  - right; right; left. apply initializeWorkflow_keeps.
  - right; right. unfold updateFromYamlString.
    destruct (parseWorkflowYamlStringToJSON yamlString) as [json |];
      [| left; reflexivity].
    destruct (match yamlSchema s with Some schema => schema json | None => true end);
      [| left; reflexivity].
    destruct (parseWorkflow _ _) as [parsed |]; [| left; reflexivity].
    cbv zeta. right.
    match goal with
    | |- context [initializeWorkflow ?w ?p ?ip ?sec ?s2] =>
        rewrite (proj1 (proj2 (initializeWorkflow_keeps w p ip sec s2)))
    end.
    reflexivity.
  - left; reflexivity.
Qed.

Lemma wellKept_initializeWorkflow wid ps ips secs s :
  wellKept s -> wellKept (snd (initializeWorkflow wid ps ips secs s)).
Proof.
  intros (Hsel & Hc & Hcount & Hd).
  destruct (initializeWorkflow_keeps wid ps ips secs s)
    as (Hsel' & Hc' & Hcount' & Hd').
  split; [exact (Hsel' Hsel) |]. rewrite Hc', Hcount'.
  split; [exact Hc |]. split; [exact Hcount | exact (Hd' Hd)].
Qed.

Lemma wellKept_updateFromYamlString yamlString now s :
  wellKept s -> wellKept (snd (updateFromYamlString yamlString now s)).
Proof.
  intros Hs. unfold updateFromYamlString.
  destruct (parseWorkflowYamlStringToJSON yamlString) as [json |]; [| exact Hs].
  destruct (match yamlSchema s with Some schema => schema json | None => true end);
    [| exact Hs].
  destruct (parseWorkflow _ _) as [parsed |]; [| exact Hs].
  cbv zeta. apply wellKept_initializeWorkflow.
  destruct Hs as (Hsel & Hch & Hrest).
  split; [exact Hsel |]. split; [cbn; lia | exact Hrest].
Qed.

Lemma wellKept_after a s : wellKept s -> wellKept (after a s).
Proof.
  intros Hs. pose proof Hs as (Hsel & Hc & Hcount & Hdeployed).
  destruct a; unfold after;
    try (rewrite on_values_snd; apply wellKept_with_values; [exact Hs |]).
  - apply bumps_addNodeBetween_method.
  - rewrite addNodeBetweenSafe_snd. apply bumps_addNodeBetween_method.
  - apply bumps_deleteNodes.
  - apply bumps_onConnect.
  - apply bumps_setSelectedEdge.
  - apply bumps_setSelectedNode.
  - apply bumps_updateV2Properties.
  - apply bumps_updateDefinition.
  - apply bumps_onLayout.
  - apply bumps_steady; reflexivity.
  - apply bumps_steady; reflexivity.
  - apply bumps_steady; reflexivity.
  - apply bumps_steady; reflexivity.
  - rewrite getNextEdge_reads. apply bumps_refl.
  - exact Hs.
  - exact Hs.
  - split; [exact Hsel |]. split; [exact Hc |].
    split; [cbn; lia | exact Hdeployed].
  - exact Hs.
  - exact Hs.
  - exact Hs.
  - split; [exact Hsel |]. split; [cbn; lia |].
    split; [exact Hcount | exact Hdeployed].
  - exact Hs.
  - exact Hs.
  - exact Hs.
  - exact Hs.
  - exact Hs.
  - apply wellKept_initializeWorkflow, Hs.
  - apply wellKept_updateFromYamlString, Hs.
  - repeat split; [left; reflexivity | cbn; lia | cbn; lia].
Qed.

Lemma reachable_wellKept s : reachable s -> wellKept s.
Proof.
  intros Hreach. induction Hreach as [| a s _ IH].
  - repeat split; [left; reflexivity | cbn; lia | cbn; lia].
  - apply wellKept_after, IH.
Qed.

(** X21: in every store that the modelled calls reach from the default
    store, at most one of a node and an edge is selected, the count of
    changes and the count of save requests are not negative, and the store
    is flagged deployed exactly when it has a workflow id. *)
Theorem reachable_store_invariants s :
  reachable s ->
  (selectedNode (values s) = None \/ selectedEdge (values s) = None)
  /\ 0 <= changes (values s)
  /\ 0 <= saveRequestCount s
  /\ isDeployed s = bool_decide (is_Some (workflowId s)).
Proof. intros Hreach. exact (reachable_wellKept s Hreach). Qed.

(** X22: in a store reached by the modelled calls, the only calls that
    clear the flag of unsaved changes are [reset] and
    [setLastDeployedAt]. *)
Theorem unsaved_changes_cleared_by_deploy_or_reset a s :
  reachable s ->
  useUIBuilderUnsavedChanges (values s) = true ->
  useUIBuilderUnsavedChanges (values (after a s)) = false ->
  a = Reset \/ exists deployedAt, a = SetLastDeployedAt deployedAt.
Proof.
  intros Hreach Hunsaved Hcleared.
  apply reachable_wellKept in Hreach as (_ & Hc & _).
  unfold useUIBuilderUnsavedChanges in Hunsaved, Hcleared.
  apply negb_true_iff, Z.eqb_neq in Hunsaved.
  apply negb_false_iff, Z.eqb_eq in Hcleared.
  destruct (after_changes a s) as [Hreset | [Hdeploy | [Hsame | Hbump]]].
  - left. exact Hreset.
  - right. exact Hdeploy.
  - lia.
  - lia.
Qed.

Lemma find_first {A} (p : A -> bool) (before : list A) a behind :
  p a = true -> (forall b, In b before -> p b = false) ->
  find p (before ++ a :: behind) = Some a.
Proof.
  intros Ha Hbefore. induction before as [| b before IH]; simpl.
  - rewrite Ha. reflexivity.
  - rewrite (Hbefore b) by (left; reflexivity).
    apply IH. intros b' Hin. apply Hbefore. right. exact Hin.
Qed.

(** X23: [setSelectedEdge] never throws.  On an id that names no edge it
    leaves the store as it was, so a selection stays.  Otherwise it
    selects the id and no node, leaves the graph as it was, and opens the
    editor exactly when the first edge with the id, the one with no edge
    of that id in front of it, can have an add button. *)
Theorem setSelectedEdge_selects_an_edge id st :
  exists st',
    setSelectedEdge id st = (Returned tt, st')
    /\ ((forall edge, In edge (edges st) -> edge_id edge <> id) -> st' = st)
    /\ (forall before edge behind,
          edges st = before ++ edge :: behind ->
          edge_id edge = id ->
          (forall e, In e before -> edge_id e <> id) ->
          selectedEdge st' = Some id
          /\ selectedNode st' = None
          /\ editorOpen st'
             = edgeCanHaveAddButton (edge_source edge) (edge_target edge)
          /\ nodes st' = nodes st
          /\ edges st' = edges st).
Proof.
  unfold setSelectedEdge. rewrite bind_get_eq.
  destruct (find _ (edges st)) as [first |] eqn:Hfind.
  - eexists. split; [reflexivity |]. split.
    + intros Hnone. exfalso. apply find_some in Hfind as [Hin Hid].
      apply (Hnone first Hin). apply String.eqb_eq, Hid.
    + intros before edge behind Hedges Hid Hbefore.
      rewrite Hedges in Hfind.
      rewrite (find_first _ before edge behind) in Hfind.
      * injection Hfind as <-. repeat split.
      * apply String.eqb_eq, Hid.
      * intros e Hin. apply String.eqb_neq, Hbefore, Hin.
  - exists st. split; [reflexivity |]. split; [reflexivity |].
    intros before edge behind Hedges Hid _. exfalso.
    assert (Hin : In edge (edges st)).
    { rewrite Hedges. apply in_or_app. right. left. reflexivity. }
    apply (find_none _ _ Hfind) in Hin. apply String.eqb_neq in Hin. auto.
Qed.

(** X24: [updateDefinition] never throws and is idempotent: a second
    run leaves the store that the first run left.  It leaves the graph,
    the properties, the count and the time of the changes as they were,
    and the definition, the findings and the deploy flag it writes are
    those of the graph. *)
Theorem updateDefinition_idempotent st :
  exists st',
    updateDefinition st = (Returned tt, st')
    /\ updateDefinition st' = (Returned tt, st')
    /\ settled st'
    /\ nodes st' = nodes st
    /\ edges st' = edges st
    /\ v2Properties st' = v2Properties st
    /\ changes st' = changes st
    /\ lastChangedAt st' = lastChangedAt st.
Proof.
  destruct (updateDefinition_frame st)
    as (Hu & Hn & He & Hv & _ & _ & _ & _ & Hc & Ht & _).
  pose proof (updateDefinition_settles st) as Hsettled.
  exists (snd (updateDefinition st)).
  split; [rewrite <- Hu; apply surjective_pairing |].
  split; [| split; [exact Hsettled | repeat split; assumption]].
  set (st' := snd (updateDefinition st)) in *.
  rewrite (updateDefinition_explicit st'). f_equal.
  destruct Hsettled as (Hd & Hve & Hcd & Hsync). cbv zeta.
  set (d := mkWfDefinition _ _) in *.
  rewrite <- Hd, <- Hve, <- Hcd. destruct st'; simpl in *. subst. reflexivity.
Qed.

End StoreProps.

Lemma initializeWorkflow_needs_definition_witness :
  @initializeWorkflow referenceCollaborators referenceBuilder (Some "wf-1"%string)
    [] [] ∅ defaultStore
  = (inr (PlainError "Definition should be set before initializing workflow"),
     defaultStore).
Proof.
  apply (@initializeWorkflow_needs_definition referenceCollaborators
           referenceBuilder (Some "wf-1"%string) [] [] ∅ defaultStore).
  reflexivity.
Defined.

Lemma initializeWorkflow_returned_witness :
  exists s',
    @initializeWorkflow referenceCollaborators referenceBuilder
      (Some "wf-1"%string) [] [] ∅ definedStore
    = (inl tt, s')
    /\ isInitialized s' = true
    /\ isDeployed s' = true
    /\ v2Properties (values s') = def_properties linearDefinition
    /\ @settled referenceCollaborators (values s').
Proof.
  destruct (@initializeWorkflow_returned referenceCollaborators referenceBuilder
              (Some "wf-1"%string) [] [] ∅ definedStore
              (mkDefinitionV2 linearDefinition true) eq_refl)
    as (s' & Hrun & _ & Hi & _ & Hd & _ & _ & Hv & _ & _ & _ & _ & _ & _ & Hsettled).
  exists s'. split; [exact Hrun |]. split; [exact Hi |].
  split; [exact Hd |]. split; [exact Hv | exact Hsettled].
Defined.

Lemma initializeWorkflow_selection_witness :
  exists s',
    @initializeWorkflow referenceCollaborators referenceBuilder
      (Some "wf-1"%string) [] [] ∅ definedStore
    = (inl tt, s')
    /\ selectedNode (values s') = None
    /\ editorOpen (values s') = false.
Proof.
  destruct (@initializeWorkflow_selection referenceCollaborators referenceBuilder
              (Some "wf-1"%string) [] [] ∅ definedStore
              (mkDefinitionV2 linearDefinition true) eq_refl)
    as (s' & Hrun & _ & Hother & _).
  exists s'. split; [exact Hrun |]. apply Hother. discriminate.
Defined.

Lemma updateFromYamlString_invalid_witness :
  @updateFromYamlString referenceCollaborators referenceBuilder "" 9 definedStore
  = (inl tt, definedStore).
Proof.
  apply (@updateFromYamlString_invalid referenceCollaborators referenceBuilder
           "" 9 definedStore).
  left. reflexivity.
Defined.

Lemma updateFromYamlString_valid_witness :
  exists s',
    @updateFromYamlString referenceCollaborators referenceBuilder "workflow" 9
      defaultStore
    = (inl tt, s')
    /\ changes (values s') = 1
    /\ lastChangedAt (values s') = None
    /\ @settled referenceCollaborators (values s').
Proof.
  destruct (@updateFromYamlString_valid referenceCollaborators referenceBuilder
              "workflow" 9 defaultStore
              (JObj [("workflow"%string, JStr "workflow")]) linearDefinition
              eq_refl ltac:(discriminate) eq_refl)
    as (s' & Hrun & _ & _ & _ & _ & _ & Hc & Ht & Hsettled).
  exists s'. split; [exact Hrun |]. split; [exact Hc |].
  split; [exact Ht | exact Hsettled].
Defined.

Lemma reachable_store_invariants_witness :
  (selectedNode (values changedStore) = None
   \/ selectedEdge (values changedStore) = None)
  /\ 0 <= changes (values changedStore)
  /\ 0 <= saveRequestCount changedStore
  /\ isDeployed changedStore = bool_decide (is_Some (workflowId changedStore)).
Proof.
  apply (@reachable_store_invariants referenceCollaborators referenceBuilder
           changedStore).
  apply reachable_after, reachable_default.
Defined.

Lemma unsaved_changes_cleared_by_deploy_or_reset_witness :
  useUIBuilderUnsavedChanges (values changedStore) = true
  /\ (Reset = Reset \/ exists deployedAt, Reset = SetLastDeployedAt deployedAt).
Proof.
  split; [vm_compute; reflexivity |].
  apply (@unsaved_changes_cleared_by_deploy_or_reset referenceCollaborators
           referenceBuilder Reset changedStore).
  - apply reachable_after, reachable_default.
  - vm_compute; reflexivity.
  - vm_compute; reflexivity.
Defined.

(** ** What an insert keeps of the graph *)

Section Kept.
Context `{Collaborators}.

Lemma layoutedElements_content ns es ns' es' :
  keepsContent ns es (getLayoutedWorkflowElements ns es "DOWN") ->
  (ns', es') = layoutedElements ns es "DOWN" ->
  map withoutLayout ns' = map withoutLayout ns
  /\ map withoutFlags es' = map withoutFlags es.
Proof.
  intros [Hnodes Hedges]. unfold layoutedElements.
  destruct (getLayoutedWorkflowElements ns es "DOWN") as [moved kept].
  simpl in Hnodes, Hedges. subst kept. intros [= -> ->]. split.
  - apply withoutLayout_layouted, Hnodes.
  - rewrite map_map. reflexivity.
Qed.

(** X25: with a layout routine that keeps to its contract, a successful
    insert loses no node: apart from positions and layouted flags the node
    list is the old one with the new nodes put in at one index, in the old
    order, and every old edge is still there, apart from its flags, unless
    it went from the source to the target of the insertion. *)
Theorem addNodeBetween_keeps_old_nodes
    nodeOrEdgeId rawStep type uuid now st id st' :
  (forall ns es, keepsContent ns es (getLayoutedWorkflowElements ns es "DOWN")) ->
  addNodeBetween nodeOrEdgeId rawStep type uuid now st = (Returned id, st') ->
  exists edge targetIndex added,
    findAnchorEdge nodeOrEdgeId type (edges st) = Some edge
    /\ map withoutLayout (nodes st')
       = map withoutLayout (take targetIndex (nodes st))
         ++ map withoutLayout added
         ++ map withoutLayout (drop targetIndex (nodes st))
    /\ length (nodes st') = (length (nodes st) + length added)%nat
    /\ (forall node,
          In node (nodes st) ->
          In (withoutLayout node) (map withoutLayout (nodes st')))
    /\ (forall e,
          In e (edges st) ->
          (edge_source e = edge_source edge
           /\ edge_target e = snd (insertionEndpoints edge))
          \/ In (withoutFlags e) (map withoutFlags (edges st'))).
Proof.
  intros Hlayout Hrun.
  apply addNodeBetween_returned in Hrun as (step & edge & _ & Hanchor & Hrun).
  apply insertOnEdge_returned in Hrun
    as (targetIndex & _ & _ & _ & _ & Hgraph & _).
  apply (layoutedElements_content _ _ _ _ (Hlayout _ _)) in Hgraph
    as [Hnodes Hedges].
  rewrite !map_app in Hnodes.
  exists edge, targetIndex. eexists.
  split; [exact Hanchor |]. split; [exact Hnodes |]. split; [| split].
  - rewrite <- (length_map withoutLayout (nodes st')), Hnodes.
    rewrite !length_app, !length_map.
    pose proof (f_equal (@length FlowNode) (take_drop targetIndex (nodes st)))
      as Hlen.
    rewrite length_app in Hlen. lia.
  - intros node Hin. rewrite Hnodes.
    rewrite <- (take_drop targetIndex (nodes st)) in Hin.
    apply in_app_or in Hin as [Hin | Hin].
    + apply in_or_app. left. apply in_map, Hin.
    + apply in_or_app. right. apply in_or_app. right. apply in_map, Hin.
  - intros e Hin. rewrite Hedges.
    destruct (String.eqb_spec (edge_source e) (edge_source edge)) as [Hs | Hs];
      [destruct (String.eqb_spec (edge_target e) (snd (insertionEndpoints edge)))
         as [Ht | Ht] |].
    + left. split; assumption.
    + right. apply in_map, in_or_app. right. apply filter_In.
      split; [exact Hin |].
      apply String.eqb_neq in Ht. cbv beta. rewrite Ht, andb_false_r.
      reflexivity.
    + right. apply in_map, in_or_app. right. apply filter_In.
      split; [exact Hin |].
      apply String.eqb_neq in Hs. cbv beta.
      change (fst (insertionEndpoints edge)) with (edge_source edge).
      rewrite Hs. reflexivity.
Qed.

End Kept.

Lemma placeNodes_withoutPosition direction k ns :
  map withoutPosition (placeNodes direction k ns) = map withoutPosition ns.
Proof.
  revert k. induction ns as [| n ns IH]; intros k; [reflexivity |].
  simpl. rewrite IH. reflexivity.
Qed.

Lemma addNodeBetween_keeps_old_nodes_witness :
  length (nodes alertedStore) = 7%nat
  /\ forall node,
       In node (nodes (storeOf linearDefinition)) ->
       In (withoutLayout node) (map withoutLayout (nodes alertedStore)).
Proof.
  destruct (@addNodeBetween_keeps_old_nodes referenceCollaborators "manual"
              alertTrigger AnchorNode "u1" 5 (storeOf linearDefinition) "alert"
              alertedStore)
    as (edge & targetIndex & added & _ & _ & _ & Hold & _).
  - intros ns es. split; [apply placeNodes_withoutPosition | reflexivity].
  - vm_compute; reflexivity.
  - split; [vm_compute; reflexivity | exact Hold].
Defined.
